(** * Article API of webapppro: a shallow embedding and its properties

    The Hono worker (the revision that reads the [X-API-Key] header and
    derives the excerpt from the content) serves a public read API over the
    [articles] table and an API-key-protected admin API that creates, updates
    and deletes articles.  This file embeds the handlers as functions over an
    explicit database state and proves the properties of the article
    life cycle.

    Conventions of the embedding.
    - A JavaScript string is the list of its UTF-16 code units.  The table
      gives back a well-formed string as it was bound; a lone surrogate
      does not survive the UTF-8 of the engine, and the statements about
      stored strings of the caller assume them [storable].
    - The handlers take a body that failed to parse, or a JSON value by
      the members they destructure.  A member is [undefined] (missing),
      [null] or a string; numbers, booleans, arrays and objects as member
      values are not part of the article data model and are not modelled.
      The body that is the JSON text [null], on which the destructuring
      throws, is a case of [admin_request].
    - A handler is a function from the database to an answer and a
      database; the database also keeps the list of the statements run.
      Storage failures are an argument of the handler: the statements that
      throw in this request, with their messages.
    - [new Date().toISOString()] and SQL's [CURRENT_TIMESTAMP] read a clock
      that is handed to each handler as an argument, one reading per place
      where the source reads it.
    - Numbers are mathematical integers ([Z]).  The source computes with
      doubles and the engine with 64-bit integers, which are these
      integers within the safe integer range; the statements about the
      numbers of a listing assume [safe_listing].
    - [toLowerCase] is the case mapping of Basic Latin and Latin-1, and
      keeps the units above U+00FF.  A lower-cased text enters the
      statements through the test against [published], which no text with
      such a unit lower-cases to, or as the stored status of a text that is
      assumed [latin1]. *)

From Stdlib Require Import String Ascii.
From Stdlib Require Import List ZArith NArith Lia Bool.
From Stdlib Require Import Sorting.Sorted Sorting.Permutation.
Import ListNotations.

Local Open Scope Z_scope.

(* ================================================================== *)
(** ** JavaScript strings and values *)

(** A string is its sequence of UTF-16 code units. *)
Definition jsstring := list N.

(** The literal of an ASCII text. *)
Definition js (s : string) : jsstring :=
  map N_of_ascii (list_ascii_of_string s).

Fixpoint str_eqb (a b : jsstring) : bool :=
  match a, b with
  | [], [] => true
  | x :: a', y :: b' => N.eqb x y && str_eqb a' b'
  | _, _ => false
  end.

(** The values a body member, a header or a query parameter can take. *)
Inductive jsval :=
| JUndefined
| JNull
| JStr (s : jsstring).

(** ToBoolean: [undefined], [null] and the empty string are falsy. *)
Definition truthy (v : jsval) : bool :=
  match v with
  | JStr (_ :: _) => true
  | _ => false
  end.

(** [a === b]. *)
Definition strict_eq (a b : jsval) : bool :=
  match a, b with
  | JUndefined, JUndefined => true
  | JNull, JNull => true
  | JStr s, JStr t => str_eqb s t
  | _, _ => false
  end.

(** [a || b] and [a && b] on values. *)
Definition js_or (a b : jsval) : jsval := if truthy a then a else b.
Definition js_and (a b : jsval) : jsval := if truthy a then b else a.

(** [String.prototype.toLowerCase] on one code unit: Basic Latin and the
    Latin-1 Supplement (U+00D7, the multiplication sign, has no case).  The
    case mapping of code units above U+00FF is not modelled: they are kept. *)
Definition lower_unit (c : N) : N :=
  (if (65 <=? c) && (c <=? 90) then c + 32
   else if (192 <=? c) && (c <=? 222) && negb (c =? 215) then c + 32
   else c)%N.

Definition toLowerCase (s : jsstring) : jsstring := map lower_unit s.

(** WhiteSpace and LineTerminator code units, the ones [trim] removes. *)
Definition is_white_space (c : N) : bool :=
  ((9 <=? c) && (c <=? 13) || (c =? 32) || (c =? 160) || (c =? 5760)
   || (8192 <=? c) && (c <=? 8202) || (c =? 8232) || (c =? 8233)
   || (c =? 8239) || (c =? 8287) || (c =? 12288) || (c =? 65279))%N.

Fixpoint trimStart (s : jsstring) : jsstring :=
  match s with
  | c :: s' => if is_white_space c then trimStart s' else s
  | [] => []
  end.

Definition trimEnd (s : jsstring) : jsstring := rev (trimStart (rev s)).

Definition trim (s : jsstring) : jsstring := trimEnd (trimStart s).

(** [s.substring(start, end)] for non-negative indices: both are clamped to
    the length and swapped when [start > end]. *)
Definition substring (s : jsstring) (i j : nat) : jsstring :=
  let i' := Nat.min i (length s) in
  let j' := Nat.min j (length s) in
  let lo := Nat.min i' j' in
  let hi := Nat.max i' j' in
  firstn (hi - lo) (skipn lo s).

Fixpoint starts_with (p s : jsstring) : bool :=
  match p, s with
  | [], _ => true
  | x :: p', y :: s' => N.eqb x y && starts_with p' s'
  | _ :: _, [] => false
  end.

(** [s.includes(p)]. *)
Fixpoint includes (s p : jsstring) : bool :=
  starts_with p s ||
  match s with
  | [] => false
  | _ :: s' => includes s' p
  end.

(* ================================================================== *)
(** ** createExcerpt *)

(** The character class [[\#\*\-\>\[\]\n]] of the pattern. *)
Definition markup_class (c : N) : bool :=
  ((c =? 35) || (c =? 42) || (c =? 45) || (c =? 62) || (c =? 91)
   || (c =? 93) || (c =? 10))%N.

(** [content.replace(/[\#\*\-\>\[\]\n]/g, '')]: every match of the class,
    one code unit each, is replaced by the empty string. *)
Fixpoint replace_markup (s : jsstring) : jsstring :=
  match s with
  | [] => []
  | c :: s' => if markup_class c then replace_markup s' else c :: replace_markup s'
  end.

Definition createExcerpt (content : jsval) : jsval :=
  if negb (truthy content) then JNull
  else
    match content with
    | JStr text =>
        let cleanText := trim (replace_markup text) in
        JStr (substring cleanText 0 150
              ++ (if (150 <? length cleanText)%nat then js "..." else []))
    | _ => JNull
    end.

(* ================================================================== *)
(** ** Numbers and templates *)

(** [parseInt(v)] with no radix, [None] for NaN.  The argument is converted
    to a string ([null] becomes the text null, which has no digits), leading
    white space is skipped, then an optional sign and an optional 0x prefix,
    and the longest run of digits of the radix is read. *)
Definition digit_of (radix : Z) (c : N) : option Z :=
  let d :=
    if ((48 <=? c) && (c <=? 57))%N then Z.of_N c - 48
    else if ((97 <=? c) && (c <=? 122))%N then Z.of_N c - 87
    else if ((65 <=? c) && (c <=? 90))%N then Z.of_N c - 55
    else 36 in
  if d <? radix then Some d else None.

Fixpoint read_digits (radix : Z) (s : jsstring) (acc : option Z) : option Z :=
  match s with
  | [] => acc
  | c :: s' =>
      match digit_of radix c with
      | Some d =>
          read_digits radix s'
            (Some (match acc with Some a => a * radix + d | None => d end))
      | None => acc
      end
  end.

Definition parseInt (v : jsval) : option Z :=
  match v with
  | JStr text =>
      let S0 := trimStart text in
      let sign := if starts_with (js "-") S0 then (-1) else 1 in
      let S1 :=
        if starts_with (js "-") S0 || starts_with (js "+") S0
        then skipn 1 S0 else S0 in
      let hex := starts_with (js "0x") S1 || starts_with (js "0X") S1 in
      let S2 := if hex then skipn 2 S1 else S1 in
      match read_digits (if hex then 16 else 10) S2 None with
      | Some n => Some (sign * n)
      | None => None
      end
  | _ => None
  end.

(** [n || d] on a number: NaN and zero are falsy. *)
Definition num_or (n : option Z) (d : Z) : Z :=
  match n with
  | Some z => if z =? 0 then d else z
  | None => d
  end.

(** [Math.ceil(a / b)] for [b <> 0]. *)
Definition ceil_div (a b : Z) : Z := - ((- a) / b).

(** Template interpolation, [`${v}`]. *)
Definition to_string (v : jsval) : jsstring :=
  match v with
  | JStr s => s
  | JNull => js "null"
  | JUndefined => js "undefined"
  end.

(* ================================================================== *)
(** ** The articles table *)

(** A column value: [NULL] or a text. *)
Definition sqlval := option jsstring.

(** What D1 binds for a value, and what it hands back for a column. *)
Definition sql_of (v : jsval) : sqlval :=
  match v with
  | JStr s => Some s
  | _ => None
  end.

Definition js_of (v : sqlval) : jsval :=
  match v with
  | Some s => JStr s
  | None => JNull
  end.

(** The order of [ORDER BY]: [NULL] sorts before every text, texts are
    compared unit by unit. *)
Fixpoint str_leb (a b : jsstring) : bool :=
  match a, b with
  | [], _ => true
  | _ :: _, [] => false
  | x :: a', y :: b' => (x <? y)%N || ((x =? y)%N && str_leb a' b')
  end.

Definition sql_leb (a b : sqlval) : bool :=
  match a, b with
  | None, _ => true
  | Some _, None => false
  | Some s, Some t => str_leb s t
  end.

Module Row.
(** A row of [articles], column by column as in the schema. *)
Record t := mk {
  id : Z;
  slug : sqlval;
  title : sqlval;
  excerpt : sqlval;
  content : sqlval;
  featured_image : sqlval;
  category : sqlval;
  author : sqlval;
  status : sqlval;
  created_at : sqlval;
  updated_at : sqlval;
  published_at : sqlval;
  meta_title : sqlval;
  meta_description : sqlval
}.
End Row.

Module Summary.
(** The columns the list query selects. *)
Record t := mk {
  id : Z;
  slug : sqlval;
  title : sqlval;
  excerpt : sqlval;
  featured_image : sqlval;
  category : sqlval;
  author : sqlval;
  published_at : sqlval;
  created_at : sqlval;
  updated_at : sqlval
}.

Definition of_row (a : Row.t) : t :=
  mk (Row.id a) (Row.slug a) (Row.title a) (Row.excerpt a)
     (Row.featured_image a) (Row.category a) (Row.author a)
     (Row.published_at a) (Row.created_at a) (Row.updated_at a).
End Summary.

(** The columns an [UPDATE] of the admin API assigns through a parameter. *)
Inductive column :=
| c_title | c_excerpt | c_content | c_featured_image | c_category
| c_author | c_status | c_published_at | c_meta_title | c_meta_description.

Definition column_eqb (a b : column) : bool :=
  match a, b with
  | c_title, c_title | c_excerpt, c_excerpt | c_content, c_content
  | c_featured_image, c_featured_image | c_category, c_category
  | c_author, c_author | c_status, c_status
  | c_published_at, c_published_at | c_meta_title, c_meta_title
  | c_meta_description, c_meta_description => true
  | _, _ => false
  end.

Definition set_column (c : column) (v : sqlval) (a : Row.t) : Row.t :=
  let '(Row.mk i sl ti ex co fi ca au st cr up pu mt md) := a in
  match c with
  | c_title => Row.mk i sl v ex co fi ca au st cr up pu mt md
  | c_excerpt => Row.mk i sl ti v co fi ca au st cr up pu mt md
  | c_content => Row.mk i sl ti ex v fi ca au st cr up pu mt md
  | c_featured_image => Row.mk i sl ti ex co v ca au st cr up pu mt md
  | c_category => Row.mk i sl ti ex co fi v au st cr up pu mt md
  | c_author => Row.mk i sl ti ex co fi ca v st cr up pu mt md
  | c_status => Row.mk i sl ti ex co fi ca au v cr up pu mt md
  | c_published_at => Row.mk i sl ti ex co fi ca au st cr up v mt md
  | c_meta_title => Row.mk i sl ti ex co fi ca au st cr up pu v md
  | c_meta_description => Row.mk i sl ti ex co fi ca au st cr up pu mt v
  end.

Definition set_updated_at (v : sqlval) (a : Row.t) : Row.t :=
  let '(Row.mk i sl ti ex co fi ca au st cr up pu mt md) := a in
  Row.mk i sl ti ex co fi ca au st cr v pu mt md.

(** The statements the worker prepares against the table. *)
Inductive statement :=
| SelectPage | SelectCount | SelectBySlug | SelectExisting
| InsertArticle | UpdateArticle | DeleteArticle.

(** The database as the worker sees it: the rows in rowid order, the
    AUTOINCREMENT counter, and the statements run so far, newest first. *)
Record world := mkWorld {
  DB : list Row.t;
  sequence : Z;
  queries : list statement
}.

(** Storage failures: the statements that fail in this request, each with
    the message of the error it throws. *)
Definition faults := statement -> option jsstring.
Definition no_fault : faults := fun _ => None.

(** A computation over the database. *)
Definition M (A : Type) : Type := world -> A * world.

Definition ret {A} (a : A) : M A := fun w => (a, w).

Definition bind {A B} (m : M A) (k : A -> M B) : M B :=
  fun w => let (a, w') := m w in k a w'.

Notation "x <- m ;; k" := (bind m (fun x => k))
  (at level 61, m at next level, right associativity).

(** Running a prepared statement records it; it throws when the storage
    fails, otherwise the engine [run]s it on the rows. *)
Definition prepare {A} (f : faults) (st : statement)
    (run : world -> (jsstring + A) * world) : M (jsstring + A) :=
  fun w =>
    let w1 := mkWorld (DB w) (sequence w) (st :: queries w) in
    match f st with
    | Some msg => (inl msg, w1)
    | None => run w1
    end.

(** [a = b] in a [WHERE] clause: never true on [NULL]. *)
Definition sql_eq (a b : sqlval) : bool :=
  match a, b with
  | Some s, Some t => str_eqb s t
  | _, _ => false
  end.

(** The text of the error D1 throws for an SQLite constraint failure, with
    the name of the extended result code. *)
Definition d1_error (text extended : string) : jsstring :=
  js "D1_ERROR: " ++ js text ++ js ": SQLITE_CONSTRAINT (extended: "
  ++ js extended ++ js ")".

(** [WHERE status = 'published'], and [AND category = ?] when the handler
    appended it. *)
Definition where_published (category : jsval) (a : Row.t) : bool :=
  sql_eq (Row.status a) (Some (js "published"))
  && (if truthy category then sql_eq (Row.category a) (sql_of category)
      else true).

(** [ORDER BY published_at DESC]; rows with equal keys keep their rowid
    order here, the engine promises nothing for them. *)
Fixpoint insert_desc (a : Row.t) (l : list Row.t) : list Row.t :=
  match l with
  | [] => [a]
  | b :: l' =>
      if sql_leb (Row.published_at b) (Row.published_at a)
      then a :: b :: l'
      else b :: insert_desc a l'
  end.

Definition order_by_published_at_desc (l : list Row.t) : list Row.t :=
  fold_right insert_desc [] l.

(** [LIMIT ? OFFSET ?]: a negative offset counts as zero and a negative
    limit as no limit. *)
Definition limit_offset {A} (limit offset : Z) (l : list A) : list A :=
  let rest := skipn (Z.to_nat offset) l in
  if limit <? 0 then rest else firstn (Z.to_nat limit) rest.

Definition select_page (f : faults) (category : jsval) (size offset : Z)
  : M (jsstring + list Summary.t) :=
  prepare f SelectPage (fun w =>
    (inr (map Summary.of_row
            (limit_offset size offset
               (order_by_published_at_desc
                  (filter (where_published category) (DB w))))), w)).

Definition select_count (f : faults) (category : jsval) : M (jsstring + Z) :=
  prepare f SelectCount (fun w =>
    (inr (Z.of_nat (length (filter (where_published category) (DB w)))), w)).

(** [SELECT * FROM articles WHERE slug = ? AND status = 'published' LIMIT 1] *)
Definition select_by_slug (f : faults) (slug : jsval)
  : M (jsstring + list Row.t) :=
  prepare f SelectBySlug (fun w =>
    (inr (firstn 1
            (filter (fun a => sql_eq (Row.slug a) (sql_of slug)
                              && sql_eq (Row.status a) (Some (js "published")))
                    (DB w))), w)).

(** [SELECT status, published_at FROM articles WHERE slug = ?], [.first()]:
    the two columns of the first row, or nothing. *)
Definition select_existing (f : faults) (slug : jsval)
  : M (jsstring + option (jsval * jsval)) :=
  prepare f SelectExisting (fun w =>
    (inr (match find (fun a => sql_eq (Row.slug a) (sql_of slug)) (DB w) with
          | Some a => Some (js_of (Row.status a), js_of (Row.published_at a))
          | None => None
          end), w)).

(** [INSERT INTO articles (...) VALUES (...)]: the row gets the next
    AUTOINCREMENT id; [slug] and [title] are [NOT NULL], [slug] is [UNIQUE]. *)
Definition insert_article (f : faults) (row : Z -> Row.t)
  : M (jsstring + unit) :=
  prepare f InsertArticle (fun w =>
    let a := row (sequence w + 1) in
    match Row.slug a, Row.title a with
    | None, _ =>
        (inl (d1_error "NOT NULL constraint failed: articles.slug"
                        "SQLITE_CONSTRAINT_NOTNULL"), w)
    | Some _, None =>
        (inl (d1_error "NOT NULL constraint failed: articles.title"
                        "SQLITE_CONSTRAINT_NOTNULL"), w)
    | Some _, Some _ =>
        if existsb (fun b => sql_eq (Row.slug b) (Row.slug a)) (DB w)
        then (inl (d1_error "UNIQUE constraint failed: articles.slug"
                             "SQLITE_CONSTRAINT_UNIQUE"), w)
        else (inr tt, mkWorld (DB w ++ [a]) (sequence w + 1) (queries w))
    end).

(** What [run()] resolves to, [{ success, meta, results }]: the number of
    rows written is [meta.changes]. *)
Record run_result := mkRun { meta_changes : Z }.

(** [result.changes]: the result has no member of that name, the read is
    [undefined] ([None]). *)
Definition changes (result : run_result) : option Z := None.

(** [n === 0] for a number or [undefined]. *)
Definition is_zero (n : option Z) : bool :=
  match n with
  | Some z => z =? 0
  | None => false
  end.

(** [UPDATE articles SET c1 = ?, ..., updated_at = CURRENT_TIMESTAMP
    WHERE slug = ?]: [sets] pairs each set clause with its parameter, in the
    order the handler pushed them. *)
Definition apply_sets (sets : list (column * jsval)) (a : Row.t) : Row.t :=
  fold_left (fun r cv => set_column (fst cv) (sql_of (snd cv)) r) sets a.

Definition update_article (f : faults) (sets : list (column * jsval))
    (CURRENT_TIMESTAMP : jsstring) (slug : jsval)
  : M (jsstring + run_result) :=
  prepare f UpdateArticle (fun w =>
    let hit a := sql_eq (Row.slug a) (sql_of slug) in
    if existsb hit (DB w)
       && existsb (fun cv => column_eqb (fst cv) c_title
                             && match sql_of (snd cv) with
                                | None => true
                                | Some _ => false
                                end) sets
    then (inl (d1_error "NOT NULL constraint failed: articles.title"
                         "SQLITE_CONSTRAINT_NOTNULL"), w)
    else
      (inr (mkRun (Z.of_nat (length (filter hit (DB w))))),
       mkWorld
         (map (fun a =>
                 if hit a
                 then set_updated_at (Some CURRENT_TIMESTAMP) (apply_sets sets a)
                 else a) (DB w))
         (sequence w) (queries w))).

(** [DELETE FROM articles WHERE slug = ?]. *)
Definition delete_article (f : faults) (slug : jsval)
  : M (jsstring + run_result) :=
  prepare f DeleteArticle (fun w =>
    let hit a := sql_eq (Row.slug a) (sql_of slug) in
    (inr (mkRun (Z.of_nat (length (filter hit (DB w))))),
     mkWorld (filter (fun a => negb (hit a)) (DB w)) (sequence w) (queries w))).

(* ================================================================== *)
(** ** Requests and responses *)

Module Body.
(** The members a handler destructures from the JSON body; [extra] holds
    every other member of the object, which no handler reads. *)
Record t := mk {
  slug : jsval;
  title : jsval;
  content : jsval;
  featured_image : jsval;
  category : jsval;
  author : jsval;
  status : jsval;
  meta_title : jsval;
  meta_description : jsval;
  extra : list (jsstring * jsval)
}.
End Body.

Module Clock.
(** The clock readings of one request: [published_at] is the
    [new Date().toISOString()] of the published_at computation,
    [currentTimestamp] the one of the create handler's [currentTimestamp],
    [CURRENT_TIMESTAMP] the engine's. *)
Record t := mk {
  published_at : jsstring;
  currentTimestamp : jsstring;
  CURRENT_TIMESTAMP : jsstring
}.
End Clock.

Module Env.
(** The bindings of the worker besides [DB]; the secret is [undefined]
    when it is not configured. *)
Record t := mk { WEBAPP_APIKEY : jsval }.
End Env.

Module Pagination.
Record t := mk {
  page : Z;
  size : Z;
  total_items : Z;
  total_pages : Z;
  category : jsval
}.
End Pagination.

(** The JSON envelopes the handlers send. *)
Inductive envelope :=
| Message (success : bool) (message : jsstring)
| MessageSlug (success : bool) (message : jsstring) (slug : jsval)
| Listing (success : bool) (data : list Summary.t) (pagination : Pagination.t)
| Detail (success : bool) (data : Row.t)
| Text (text : jsstring).

Record response := mkResponse {
  http_status : Z;
  sent : envelope
}.

(** [c.json(obj, status)]. *)
Definition json (obj : envelope) (status : Z) : M response :=
  ret (mkResponse status obj).

(** An exception that escapes a handler: Hono answers it itself. *)
Definition uncaught : M response :=
  ret (mkResponse 500 (Text (js "Internal Server Error"))).

(* ================================================================== *)
(** ** Public endpoints *)

(** GET /api/articles *)
Definition get_articles (f : faults) (page_param size_param category : jsval)
  : M response :=
  let page := num_or (parseInt page_param) 1 in
  let size := num_or (parseInt size_param) 10 in
  let offset := (page - 1) * size in
  r <- select_page f category size offset ;;
  match r with
  | inl _ => json (Message false (js "Failed to fetch articles")) 500
  | inr results =>
      n <- select_count f category ;;
      match n with
      | inl _ => json (Message false (js "Failed to fetch articles")) 500
      | inr totalArticles =>
          let totalPages := ceil_div totalArticles size in
          json (Listing true results
                  (Pagination.mk page size totalArticles totalPages
                     (js_or category JNull))) 200
      end
  end.

(** GET /api/articles/:slug *)
Definition get_article (f : faults) (slug : jsval) : M response :=
  r <- select_by_slug f slug ;;
  match r with
  | inl _ => json (Message false (js "Failed to fetch article")) 500
  | inr results =>
      match results with
      | [] => json (Message false (js "Article not found or not published")) 404
      | first :: _ => json (Detail true first) 200
      end
  end.

(* ================================================================== *)
(** ** Admin endpoints *)

(** The publish test of the create handler:
    [status && status.toLowerCase() === 'published']; the method call is
    reached only on a truthy value, which is a string. *)
Definition lowered (v : jsval) : jsval :=
  match v with
  | JStr s => JStr (toLowerCase s)
  | other => other
  end.

(** POST /api/admin/articles *)
Definition post_articles (clock : Clock.t) (f : faults) (body : option Body.t)
  : M response :=
  match body with
  | None => json (Message false (js "Invalid JSON payload received.")) 400
  | Some body =>
      let slug := Body.slug body in
      let title := Body.title body in
      let content := Body.content body in
      let featured_image := Body.featured_image body in
      let category := Body.category body in
      let author := Body.author body in
      let status := Body.status body in
      let meta_title := Body.meta_title body in
      let meta_description := Body.meta_description body in
      if negb (truthy slug) || negb (truthy title) || negb (truthy content)
      then json (Message false
                   (js "Validation failed: slug, title, and content are required."))
                400
      else
        let published_at :=
          if truthy status && strict_eq (lowered status) (JStr (js "published"))
          then JStr (Clock.published_at clock) else JNull in
        let excerpt := createExcerpt content in
        let currentTimestamp := JStr (Clock.currentTimestamp clock) in
        r <- insert_article f (fun id =>
               Row.mk id
                 (sql_of slug)
                 (sql_of title)
                 (sql_of excerpt)
                 (sql_of content)
                 (sql_of (js_or featured_image JNull))
                 (sql_of (js_or category JNull))
                 (sql_of (js_or author (JStr (js "Admin"))))
                 (sql_of (js_or status (JStr (js "draft"))))
                 (sql_of currentTimestamp)
                 (sql_of currentTimestamp)
                 (sql_of published_at)
                 (sql_of (js_or meta_title JNull))
                 (sql_of (js_or meta_description JNull))) ;;
        match r with
        | inr _ =>
            json (MessageSlug true (js "Article added successfully") slug) 200
        | inl message =>
            if truthy (JStr message)
               && includes message (js "UNIQUE constraint failed: articles.slug")
            then json (Message false
                         (js "Failed to add article: SLUG '" ++ to_string slug
                          ++ js "' already exists.")) 409
            else json (Message false (js "Error adding article: " ++ message)) 500
        end
  end.

(** The published_at computation of the update handler. *)
Definition publishedAtValue (clock : Clock.t) (newStatus existing_published_at : jsval)
  : jsval :=
  if strict_eq newStatus (JStr (js "published"))
     && negb (truthy existing_published_at)
  then JStr (Clock.published_at clock)
  else if negb (strict_eq newStatus (JStr (js "published")))
          && truthy existing_published_at
  then JNull
  else existing_published_at.

(** The set clauses of the update handler with their parameters, before
    [updated_at] is appended. *)
Definition setClauses (clock : Clock.t) (body : Body.t)
    (existingArticle : jsval * jsval) : list (column * jsval) :=
  let title := Body.title body in
  let content := Body.content body in
  let featured_image := Body.featured_image body in
  let category := Body.category body in
  let author := Body.author body in
  let status := Body.status body in
  let meta_title := Body.meta_title body in
  let meta_description := Body.meta_description body in
  let newStatus := js_or (js_and status (lowered status)) (fst existingArticle) in
  let fields :=
    [ (c_title, title); (c_content, content);
      (c_featured_image, featured_image); (c_category, category);
      (c_author, author); (c_status, newStatus);
      (c_meta_title, meta_title); (c_meta_description, meta_description) ] in
  [ (c_published_at, publishedAtValue clock newStatus (snd existingArticle)) ]
  ++ (if negb (strict_eq content JUndefined)
      then [ (c_excerpt, createExcerpt content) ] else [])
  ++ filter (fun kv => negb (strict_eq (snd kv) JUndefined)
                       && negb (column_eqb (fst kv) c_content)) fields
  ++ (if negb (strict_eq content JUndefined)
      then [ (c_content, content) ] else []).

(** PUT /api/admin/articles *)
Definition put_articles (clock : Clock.t) (f : faults) (body : option Body.t)
  : M response :=
  match body with
  | None => json (Message false (js "Invalid JSON payload received.")) 400
  | Some body =>
      let targetSlug := Body.slug body in
      if negb (truthy targetSlug)
      then json (Message false
                   (js "Missing required field: slug in body for update")) 400
      else
        e <- select_existing f targetSlug ;;
        match e with
        | inl _ => uncaught
        | inr None => json (Message false (js "Article not found")) 404
        | inr (Some existingArticle) =>
            let sets := setClauses clock body existingArticle in
            if (length sets <=? 1)%nat
            then json (Message false
                         (js "No valid fields provided for update")) 400
            else
              r <- update_article f sets (Clock.CURRENT_TIMESTAMP clock)
                     targetSlug ;;
              match r with
              | inl message =>
                  json (Message false
                          (js "Failed to update article: " ++ message)) 500
              | inr result =>
                  if is_zero (changes result)
                  then json (Message false
                               (js "Article not found or no changes applied"))
                            404
                  else json (MessageSlug true
                               (js "Article updated successfully") targetSlug)
                            200
              end
        end
  end.

(** DELETE /api/admin/articles *)
Definition delete_articles (f : faults) (body : option Body.t) : M response :=
  match body with
  | None => json (Message false (js "Invalid JSON payload received.")) 400
  | Some body =>
      let slug := Body.slug body in
      if negb (truthy slug)
      then json (Message false
                   (js "Missing required field: slug in body for delete")) 400
      else
        r <- delete_article f slug ;;
        match r with
        | inl _ => json (Message false (js "Failed to delete article")) 500
        | inr result =>
            if is_zero (changes result)
            then json (Message false (js "Article not found")) 404
            else json (MessageSlug true
                         (js "Article deleted successfully") slug) 200
        end
  end.

(** The API-key middleware: [next] runs only behind the check. *)
Definition authMiddleware (env : Env.t) (apiKeyHeader : jsval)
    (next : M response) : M response :=
  if negb (truthy apiKeyHeader)
     || negb (strict_eq apiKeyHeader (Env.WEBAPP_APIKEY env))
  then json (Message false
               (js "Unauthorized: Invalid or missing X-API-Key in header")) 401
  else next.

Inductive admin_method := POST | PUT | DELETE.

(** The admin group: the middleware in front of the three handlers. *)
Definition adminArticles (env : Env.t) (clock : Clock.t) (f : faults)
    (method : admin_method) (X_API_Key : jsval) (body : option Body.t)
  : M response :=
  authMiddleware env X_API_Key
    (match method with
     | POST => post_articles clock f body
     | PUT => put_articles clock f body
     | DELETE => delete_articles f body
     end).

Module BodyKey.
(** The middleware of the earlier revision of the worker, which expects
    the key in the member [apiKey] of the JSON body; [apiKey] is
    [undefined] when the body is not JSON or has no such member. *)
Definition authMiddleware (env : Env.t) (apiKey : jsval)
    (next : M response) : M response :=
  if negb (truthy apiKey)
     || negb (strict_eq apiKey (Env.WEBAPP_APIKEY env))
  then json (Message false (js "Unauthorized: Invalid or missing API Key")) 401
  else next.
End BodyKey.

(* ================================================================== *)
(** ** Vocabulary of the statements *)

(** The characters the excerpt drops, as the documentation lists them,
    and the line feed. *)
Definition stripped_characters : jsstring := js "#*->[]" ++ [10%N].

Definition all_white (s : jsstring) : Prop :=
  Forall (fun c => is_white_space c = true) s.

(** Neither the first nor the last unit of [s] is white space. *)
Definition trimmed (s : jsstring) : Prop :=
  (forall c, hd_error s = Some c -> is_white_space c = false)
  /\ (forall c, hd_error (rev s) = Some c -> is_white_space c = false).

(** An absent or empty content. *)
Definition absent_or_empty (content : jsval) : Prop :=
  content = JUndefined \/ content = JNull \/ content = JStr [].

(** The value of a column of a row. *)
Definition get_column (c : column) (a : Row.t) : sqlval :=
  match c with
  | c_title => Row.title a
  | c_excerpt => Row.excerpt a
  | c_content => Row.content a
  | c_featured_image => Row.featured_image a
  | c_category => Row.category a
  | c_author => Row.author a
  | c_status => Row.status a
  | c_published_at => Row.published_at a
  | c_meta_title => Row.meta_title a
  | c_meta_description => Row.meta_description a
  end.

(** The schema's [UNIQUE] on [slug]. *)
Definition unique_slugs (rows : list Row.t) : Prop :=
  NoDup (map Row.slug rows).

(** The row a slug names. *)
Definition has_slug (s : jsstring) (a : Row.t) : bool :=
  sql_eq (Row.slug a) (Some s).

(** A request body that passes the validation of the create handler. *)
Definition creatable (body : Body.t) : Prop :=
  truthy (Body.slug body) = true
  /\ truthy (Body.title body) = true
  /\ truthy (Body.content body) = true.

(** [ORDER BY published_at DESC] on rows and on what the list sends. *)
Definition desc_rows (a b : Row.t) : Prop :=
  sql_leb (Row.published_at b) (Row.published_at a) = true.

Definition desc_summaries (a b : Summary.t) : Prop :=
  sql_leb (Summary.published_at b) (Summary.published_at a) = true.

(** The status the update handler works with: the lower-cased requested
    status when a non-empty one is supplied, else the stored one. *)
Definition effective_status (requested : jsval) (stored : sqlval) : sqlval :=
  if truthy requested then sql_of (lowered requested) else stored.

(** A timestamp is present when it is neither [NULL] nor empty. *)
Definition present (v : sqlval) : bool := truthy (js_of v).

(** The publish rule as the documentation words it: the effective status
    is the requested one if supplied, else the stored one; [is_published]
    is the reading of "equals published" (exact, or up to case). *)
Definition stated_published_at (is_published : sqlval -> bool)
    (now : jsstring) (requested : jsval) (stored_status stored : sqlval)
  : sqlval :=
  let effective :=
    match requested with
    | JUndefined => stored_status
    | supplied => sql_of supplied
    end in
  if is_published effective && negb (present stored) then Some now
  else if negb (is_published effective) && present stored then None
  else stored.

Definition exactly_published (v : sqlval) : bool :=
  sql_eq v (Some (js "published")).

Definition published_up_to_case (v : sqlval) : bool :=
  match v with
  | Some s => str_eqb (toLowerCase s) (js "published")
  | None => false
  end.

(** Sample data for the examples. *)
Definition sample_clock : Clock.t :=
  Clock.mk (js "2025-03-01T10:00:00.000Z") (js "2025-03-01T10:00:00.001Z")
           (js "2025-03-01 10:00:00").

Definition later_clock : Clock.t :=
  Clock.mk (js "2025-04-01T08:30:00.000Z") (js "2025-04-01T08:30:00.001Z")
           (js "2025-04-01 08:30:00").

Definition empty_world : world := mkWorld [] 0 [].

(** A body with the given slug, title, content and status and nothing else. *)
Definition body_of (slug title content status : jsval) : Body.t :=
  Body.mk slug title content JUndefined JUndefined JUndefined status
          JUndefined JUndefined [].

(** The world after creating the article [hello] with the given status. *)
Definition world_with (status : jsval) : world :=
  snd (post_articles sample_clock no_fault
         (Some (body_of (JStr (js "hello")) (JStr (js "Hello"))
                        (JStr (js "# Hello World")) status))
         empty_world).

(** The row the create handler binds, with the id the engine assigns. *)
Definition created_row (clock : Clock.t) (body : Body.t) (id : Z) : Row.t :=
  Row.mk id
    (sql_of (Body.slug body))
    (sql_of (Body.title body))
    (sql_of (createExcerpt (Body.content body)))
    (sql_of (Body.content body))
    (sql_of (js_or (Body.featured_image body) JNull))
    (sql_of (js_or (Body.category body) JNull))
    (sql_of (js_or (Body.author body) (JStr (js "Admin"))))
    (sql_of (js_or (Body.status body) (JStr (js "draft"))))
    (Some (Clock.currentTimestamp clock))
    (Some (Clock.currentTimestamp clock))
    (sql_of (if truthy (Body.status body)
                && strict_eq (lowered (Body.status body)) (JStr (js "published"))
             then JStr (Clock.published_at clock) else JNull))
    (sql_of (js_or (Body.meta_title body) JNull))
    (sql_of (js_or (Body.meta_description body) JNull)).

(** The text the create handler looks for in a storage error. *)
Definition unique_violation : jsstring :=
  js "UNIQUE constraint failed: articles.slug".

(** Twenty-five published rows and a draft, for the listing examples. *)
Definition sample_row (status : string) (i : nat) : Row.t :=
  Row.mk (Z.of_nat i) (Some (js "post-" ++ [N.of_nat (48 + i)]))
         (Some (js "Post")) None (Some (js "Text")) None None
         (Some (js "Admin")) (Some (js status))
         (Some (js "2025-01-01 00:00:00")) (Some (js "2025-01-01 00:00:00"))
         (Some (js "2025-01-" ++ [N.of_nat (48 + i)])) None None.

Definition sample_table : world :=
  mkWorld (map (sample_row "published") (seq 1 25) ++ [sample_row "draft" 26])
          26 [].

(** The parameter of the last set clause that names a column, if any. *)
Fixpoint assigned (c : column) (sets : list (column * jsval)) : option jsval :=
  match sets with
  | [] => None
  | cv :: rest =>
      match assigned c rest with
      | Some v => Some v
      | None => if column_eqb c (fst cv) then Some (snd cv) else None
      end
  end.

(** [v !== undefined]. *)
Definition defined (v : jsval) : bool := negb (strict_eq v JUndefined).

(** What a column holds after an update that may supply a member for it. *)
Definition supplied (member : jsval) (stored : sqlval) : sqlval :=
  if defined member then sql_of member else stored.

(** The first row of a table (a row of NULLs when it is empty). *)
Definition first_row (w : world) : Row.t :=
  hd (Row.mk 0 None None None None None None None None None None None None None)
     (DB w).

(** A row names a publish time exactly when its status is [published]. *)
Definition publish_consistent (a : Row.t) : Prop :=
  present (Row.published_at a)
  = sql_eq (Row.status a) (Some (js "published")).

(** The excerpt of a row is the one derived from its content. *)
Definition excerpt_derived (a : Row.t) : Prop :=
  Row.excerpt a = sql_of (createExcerpt (js_of (Row.content a))).

(** A body the admin handlers refuse before they touch the storage: one
    that is not JSON, one without a slug, and for a create one without a
    title or a content. *)
Definition refused (method : admin_method) (body : option Body.t) : Prop :=
  match body with
  | None => True
  | Some b =>
      truthy (Body.slug b) = false
      \/ (method = POST
          /\ (truthy (Body.title b) = false
              \/ truthy (Body.content b) = false))
  end.

(** [member || null] as a column value. *)
Definition or_null (member : jsval) : sqlval :=
  if truthy member then sql_of member else None.

(** The success flag of an envelope, when it has one. *)
Definition flag (e : envelope) : option bool :=
  match e with
  | Message ok _ | MessageSlug ok _ _ | Listing ok _ _ | Detail ok _ => Some ok
  | Text _ => None
  end.

(** An answer is well formed for a set of status codes: its status is one
    of them and its success flag is true exactly when the status is 200. *)
Definition answers (codes : list Z) (r : response) : Prop :=
  In (http_status r) codes
  /\ (flag (sent r) = Some true <-> http_status r = 200).

(** The articles a listing answer holds (none when it is a failure). *)
Definition listed (r : response) : list Summary.t :=
  match sent r with
  | Listing _ data _ => data
  | _ => []
  end.

(** The rows a listing is about, in the order of the query. *)
Definition matching_rows (category : jsval) (w : world) : list Row.t :=
  order_by_published_at_desc (filter (where_published category) (DB w)).

(** [Number.MAX_SAFE_INTEGER], two to the 53 minus one. *)
Definition MAX_SAFE_INTEGER : Z := 9007199254740991.

(** A safe integer: the doubles of the handler and the 64-bit integers of
    the engine represent it exactly, and the arithmetic of the handler on
    safe integers with a safe result is exact. *)
Definition safe (n : Z) : Prop :=
  - MAX_SAFE_INTEGER <= n <= MAX_SAFE_INTEGER.

(** The listings whose numbers stay safe: the page and the size read from
    the query, the offset computed from them, and the number of rows of
    the table, which bounds the count.  On these the doubles of the source
    and the integers of the engine are the integers used here. *)
Definition safe_listing (w : world) (page size : Z) : Prop :=
  safe page /\ safe size /\ safe ((page - 1) * size)
  /\ safe (Z.of_nat (length (DB w))).

(** The rows a listing is about have pairwise different publish times, so
    that [ORDER BY published_at DESC] leaves the engine no choice. *)
Definition no_ties (category : jsval) (w : world) : Prop :=
  NoDup (map Row.published_at (filter (where_published category) (DB w))).

(** Surrogate code units. *)
Definition is_high_surrogate (c : N) : bool :=
  ((55296 <=? c) && (c <=? 56319))%N.

Definition is_low_surrogate (c : N) : bool :=
  ((56320 <=? c) && (c <=? 57343))%N.

(** Well-formed UTF-16: every surrogate is half of a pair. *)
Fixpoint well_formed (s : jsstring) : bool :=
  match s with
  | [] => true
  | c :: rest =>
      if is_high_surrogate c
      then match rest with
           | d :: rest' => is_low_surrogate d && well_formed rest'
           | [] => false
           end
      else negb (is_low_surrogate c) && well_formed rest
  end.

(** A value the table gives back as it was bound.  The engine keeps a text
    as UTF-8, so a string with a lone surrogate does not read back as it
    was (U+FFFD stands for the surrogate); [sql_of] and [js_of] describe
    the binding and the reading of the other strings, and of [null]. *)
Definition storable (v : jsval) : Prop :=
  match v with
  | JStr s => well_formed s = true
  | _ => True
  end.

(** The members of a body that the handlers bind, and the excerpt derived
    from its content (whose cut at 150 units can split a pair), are
    storable. *)
Definition storable_body (body : Body.t) : Prop :=
  storable (Body.slug body) /\ storable (Body.title body)
  /\ storable (Body.content body)
  /\ storable (createExcerpt (Body.content body))
  /\ storable (Body.featured_image body) /\ storable (Body.category body)
  /\ storable (Body.author body) /\ storable (Body.status body)
  /\ storable (Body.meta_title body) /\ storable (Body.meta_description body).

(** Every code unit is of Basic Latin or the Latin-1 Supplement, where
    [lower_unit] is the case mapping of [String.prototype.toLowerCase]. *)
Definition latin1 (s : jsstring) : Prop :=
  Forall (fun c => (c <= 255)%N) s.

(** What [c.req.json()] makes of the body of a request: it throws, or it
    gives [null], or it gives a value whose members the handlers
    destructure (for a number, a string, a boolean or an array each of
    them is [undefined]). *)
Inductive parsed (A : Type) :=
| NotJson
| JsonNull
| JsonValue (members : A).

Arguments NotJson {A}.
Arguments JsonNull {A}.
Arguments JsonValue {A} members.

(** A request to [/api/admin/articles].  Behind the middleware each
    handler parses the body and destructures it outside any [try]:
    destructuring [null] throws a TypeError, which Hono answers. *)
Definition admin_request (env : Env.t) (clock : Clock.t) (f : faults)
    (method : admin_method) (X_API_Key : jsval) (body : parsed Body.t)
  : M response :=
  match body with
  | NotJson => adminArticles env clock f method X_API_Key None
  | JsonNull => authMiddleware env X_API_Key uncaught
  | JsonValue members =>
      adminArticles env clock f method X_API_Key (Some members)
  end.

(** A request the admin handlers refuse before they touch the storage. *)
Definition refused_request (method : admin_method) (body : parsed Body.t)
  : Prop :=
  match body with
  | NotJson => True
  | JsonNull => False
  | JsonValue members => refused method (Some members)
  end.

(* ================================================================== *)
(** ** The settings endpoint *)

Module Setting.
(** A row of [settings]: the key is the primary key, the value may be NULL. *)
Record t := mk {
  key : jsstring;
  value : sqlval
}.
End Setting.

(** A JavaScript object as the reduction builds it from the empty literal:
    its own properties in the order they were created, and whether its
    prototype has been set to null. *)
Record object := mkObject {
  null_prototype : bool;
  own : list (jsstring * jsval)
}.

Definition empty_object : object := mkObject false [].

(** Creating or overwriting an own property. *)
Fixpoint put_own (k : jsstring) (v : jsval) (props : list (jsstring * jsval))
  : list (jsstring * jsval) :=
  match props with
  | [] => [(k, v)]
  | kv :: rest =>
      if str_eqb k (fst kv) then (k, v) :: rest
      else kv :: put_own k v rest
  end.

(** [acc[k] = v].  While the object inherits from [Object.prototype], the
    key [__proto__] reaches the inherited setter, which sets the prototype
    when the value is null and ignores a string; every other assignment
    writes an own property. *)
Definition assign (acc : object) (k : jsstring) (v : jsval) : object :=
  if str_eqb k (js "__proto__") && negb (null_prototype acc)
  then match v with
       | JNull => mkObject true (own acc)
       | _ => acc
       end
  else mkObject (null_prototype acc) (put_own k v (own acc)).

(** The own property of a key, which is what the JSON text shows. *)
Definition get_own (k : jsstring) (o : object) : option jsval :=
  match find (fun kv => str_eqb (fst kv) k) (own o) with
  | Some kv => Some (snd kv)
  | None => None
  end.

Inductive settings_envelope :=
| SettingsData (success : bool) (data : object)
| SettingsMessage (success : bool) (message : jsstring).

(** GET /api/settings: [settings] are the rows of the table as the engine
    returns them, [fault] the error of the statement when it throws. *)
Definition get_settings (fault : option jsstring) (settings : list Setting.t)
  : Z * settings_envelope :=
  match fault with
  | Some _ => (500, SettingsMessage false (js "Failed to fetch settings"))
  | None =>
      let settingsObject :=
        fold_left (fun acc item =>
                     assign acc (Setting.key item) (js_of (Setting.value item)))
                  settings empty_object in
      (200, SettingsData true settingsObject)
  end.

(** The first rows of the seed of the settings table. *)
Definition seed_settings : list Setting.t :=
  [ Setting.mk (js "site.title") (Some (js "WebApp Pro"));
    Setting.mk (js "site.language") (Some (js "id"));
    Setting.mk (js "posts.per_page") (Some (js "10")) ].

(* ================================================================== *)
(** ** The update handler of the earlier revision *)

Module Earlier.

Module Body.
(** The members the earlier handlers read from the JSON body; the slug of
    an update is a parameter of the path. *)
Record t := mk {
  apiKey : jsval;
  title : jsval;
  excerpt : jsval;
  content : jsval;
  featured_image : jsval;
  category : jsval;
  author : jsval;
  status : jsval;
  meta_title : jsval;
  meta_description : jsval
}.
End Body.

(** The middleware of that revision on the body as [c.req.json()] finds
    it: a body that is not JSON counts as the empty object, and reading
    [apiKey] of [null] throws a TypeError, which Hono answers. *)
Definition authMiddleware (env : Env.t) (body : parsed Body.t)
    (next : M response) : M response :=
  match body with
  | NotJson => BodyKey.authMiddleware env JUndefined next
  | JsonNull => uncaught
  | JsonValue members => BodyKey.authMiddleware env (Body.apiKey members) next
  end.

(** The set clauses with their parameters, before [updated_at]: a clause
    for [published_at] only when the publish time changes, then one for
    each member of the body that is not [undefined]. *)
Definition setClauses (clock : Clock.t) (body : Body.t)
    (existingArticle : jsval * jsval) : list (column * jsval) :=
  let newStatus := js_or (Body.status body) (fst existingArticle) in
  (if strict_eq newStatus (JStr (js "published"))
      && negb (truthy (snd existingArticle))
   then [ (c_published_at, JStr (Clock.published_at clock)) ]
   else if negb (strict_eq newStatus (JStr (js "published")))
           && truthy (snd existingArticle)
   then [ (c_published_at, JNull) ]
   else [])
  ++ filter (fun kv => negb (strict_eq (snd kv) JUndefined))
       [ (c_title, Body.title body); (c_excerpt, Body.excerpt body);
         (c_content, Body.content body);
         (c_featured_image, Body.featured_image body);
         (c_category, Body.category body); (c_author, Body.author body);
         (c_status, Body.status body); (c_meta_title, Body.meta_title body);
         (c_meta_description, Body.meta_description body) ].

(** The members of a body that the update binds are storable. *)
Definition storable_body (body : Body.t) : Prop :=
  storable (Body.title body) /\ storable (Body.excerpt body)
  /\ storable (Body.content body) /\ storable (Body.featured_image body)
  /\ storable (Body.category body) /\ storable (Body.author body)
  /\ storable (Body.status body) /\ storable (Body.meta_title body)
  /\ storable (Body.meta_description body).

(** PUT /api/admin/articles/put/:slug, behind the middleware. *)
Definition put (clock : Clock.t) (f : faults) (targetSlug : jsstring)
    (body : Body.t) : M response :=
  if negb (truthy (Body.title body)) && negb (truthy (Body.content body))
  then json (Message false (js "No fields to update provided")) 400
  else
    e <- select_existing f (JStr targetSlug) ;;
    match e with
    | inl _ => uncaught
    | inr None => json (Message false (js "Article not found")) 404
    | inr (Some existingArticle) =>
        let sets := setClauses clock body existingArticle in
        if (length sets =? 0)%nat
        then json (Message false (js "No valid fields provided for update")) 400
        else
          r <- update_article f sets (Clock.CURRENT_TIMESTAMP clock)
                 (JStr targetSlug) ;;
          match r with
          | inl _ => json (Message false (js "Failed to update article")) 500
          | inr result =>
              if is_zero (changes result)
              then json (Message false
                           (js "Article not found or no changes applied")) 404
              else json (MessageSlug true (js "Article updated successfully")
                           (JStr targetSlug)) 200
          end
    end.

End Earlier.

(** The publish time the earlier update leaves: the requested status is
    taken as it is, when it is not empty, and compared exactly. *)
Definition earlier_published_at (clock : Clock.t) (requested : jsval)
    (stored_status stored : sqlval) : sqlval :=
  let published :=
    sql_eq (sql_of (js_or requested (js_of stored_status)))
           (Some (js "published")) in
  if published && negb (present stored) then Some (Clock.published_at clock)
  else if negb published && present stored then None
  else stored.

(* ================================================================== *)
(** ** Strings: basic facts *)

Lemma str_eqb_spec (a b : jsstring) : str_eqb a b = true <-> a = b.
Proof.
  revert b; induction a as [|x a IH]; intros [|y b]; simpl; split;
    try congruence; try reflexivity.
  - intros H. apply andb_true_iff in H as [Hx Ha].
    apply N.eqb_eq in Hx. apply IH in Ha. congruence.
  - intros H. injection H as -> ->.
    rewrite N.eqb_refl. simpl. now apply IH.
Qed.

Lemma str_eqb_refl (a : jsstring) : str_eqb a a = true.
Proof. now apply str_eqb_spec. Qed.

Lemma str_eqb_neq (a b : jsstring) : str_eqb a b = false <-> a <> b.
Proof.
  split.
  - intros H E. apply str_eqb_spec in E. congruence.
  - intros H. destruct (str_eqb a b) eqn:E; [|reflexivity].
    apply str_eqb_spec in E. contradiction.
Qed.

Lemma strict_eq_spec (a b : jsval) : strict_eq a b = true <-> a = b.
Proof.
  destruct a, b; simpl; split; try congruence; try reflexivity.
  - intros H. apply str_eqb_spec in H. congruence.
  - intros H. injection H as ->. apply str_eqb_refl.
Qed.

Lemma sql_eq_spec (a b : sqlval) :
  sql_eq a b = true <-> exists s, a = Some s /\ b = Some s.
Proof.
  destruct a as [s|], b as [t|]; simpl; split; try congruence.
  - intros H. apply str_eqb_spec in H. subst. now exists t.
  - intros (u & Ha & Hb). injection Ha as ->. injection Hb as ->.
    apply str_eqb_refl.
  - intros (u & Ha & Hb). congruence.
  - intros (u & Ha & Hb). congruence.
  - intros (u & Ha & Hb). congruence.
Qed.

Lemma truthy_spec (v : jsval) :
  truthy v = true <-> exists c s, v = JStr (c :: s).
Proof.
  destruct v as [| |[|c s]]; simpl; split; try congruence.
  - intros (c & s & H). congruence.
  - intros (c & s & H). congruence.
  - intros (c & s & H). congruence.
  - intros _. now exists c, s.
Qed.

Lemma markup_class_spec (c : N) :
  markup_class c = existsb (N.eqb c) stripped_characters.
Proof.
  unfold markup_class, stripped_characters. simpl.
  now rewrite orb_false_r, !orb_assoc.
Qed.

Lemma replace_markup_filter (s : jsstring) :
  replace_markup s
  = filter (fun c => negb (existsb (N.eqb c) stripped_characters)) s.
Proof.
  induction s as [|c s IH]; cbn [replace_markup filter]; [reflexivity|].
  rewrite <- markup_class_spec.
  destruct (markup_class c); cbn [negb]; now rewrite IH.
Qed.

Lemma trimStart_split (s : jsstring) :
  exists pre, s = pre ++ trimStart s /\ all_white pre
              /\ forall c, hd_error (trimStart s) = Some c ->
                           is_white_space c = false.
Proof.
  induction s as [|c s (pre & E & W & H)]; simpl.
  - exists []. repeat split; [constructor | discriminate].
  - destruct (is_white_space c) eqn:Ec.
    + exists (c :: pre). repeat split.
      * simpl. now rewrite <- E.
      * now constructor.
      * exact H.
    + exists []. repeat split; [constructor|].
      simpl. intros d Hd. now injection Hd as <-.
Qed.

Lemma trimEnd_split (s : jsstring) :
  exists post, s = trimEnd s ++ post /\ all_white post
               /\ forall c, hd_error (rev (trimEnd s)) = Some c ->
                            is_white_space c = false.
Proof.
  unfold trimEnd.
  destruct (trimStart_split (rev s)) as (pre & E & W & H).
  exists (rev pre). repeat split.
  - rewrite <- rev_app_distr, <- E. now rewrite rev_involutive.
  - unfold all_white in *. apply Forall_forall. intros c Hc.
    apply in_rev in Hc. rewrite Forall_forall in W. now apply W.
  - now rewrite rev_involutive.
Qed.

Lemma trim_split (s : jsstring) :
  exists leading trailing,
    s = leading ++ trim s ++ trailing
    /\ all_white leading /\ all_white trailing /\ trimmed (trim s).
Proof.
  unfold trim.
  destruct (trimStart_split s) as (pre & E & W & H).
  destruct (trimEnd_split (trimStart s)) as (post & E' & W' & H').
  exists pre, post. repeat split; try assumption.
  - now rewrite <- E'.
  - intros c Hc. apply H. rewrite E'.
    destruct (trimEnd (trimStart s)); [discriminate | exact Hc].
Qed.

Lemma substring_from_start (s : jsstring) (n : nat) :
  substring s 0 n = firstn n s.
Proof.
  unfold substring. simpl.
  destruct (Nat.le_ge_cases n (length s)) as [H|H].
  - now rewrite Nat.min_l, Nat.sub_0_r by assumption.
  - rewrite Nat.min_r, Nat.sub_0_r by assumption.
    now rewrite !firstn_all2 by lia.
Qed.

Lemma js_length (s : string) : length (js s) = String.length s.
Proof.
  unfold js. rewrite length_map.
  induction s; simpl; congruence.
Qed.

(* ================================================================== *)
(** ** The excerpt *)

Lemma createExcerpt_string (c : N) (text : jsstring) :
  createExcerpt (JStr (c :: text))
  = JStr (firstn 150 (trim (replace_markup (c :: text)))
          ++ (if (150 <? length (trim (replace_markup (c :: text))))%nat
              then js "..." else [])).
Proof.
  unfold createExcerpt. cbn [truthy negb].
  now rewrite substring_from_start.
Qed.

Lemma createExcerpt_null (content : jsval) :
  createExcerpt content = JNull <-> absent_or_empty content.
Proof.
  unfold absent_or_empty.
  destruct content as [| |[|c text]].
  - split; auto.
  - split; auto.
  - split; auto.
  - rewrite createExcerpt_string. split; [discriminate|].
    intros [H|[H|H]]; discriminate.
Qed.

Lemma createExcerpt_length (content : jsval) (e : jsstring) :
  createExcerpt content = JStr e -> (length e <= 153)%nat.
Proof.
  destruct content as [| |[|c text]]; try discriminate.
  rewrite createExcerpt_string.
  generalize (trim (replace_markup (c :: text))). intros cleaned H.
  assert (E0 : firstn 150 cleaned
               ++ (if (150 <? length cleaned)%nat then js "..." else []) = e)
    by congruence.
  rewrite <- E0, length_app, length_firstn.
  destruct (150 <? length cleaned)%nat eqn:E.
  - rewrite js_length. cbn [String.length]. lia.
  - apply Nat.ltb_ge in E. cbn [length]. lia.
Qed.

(** C2. [createExcerpt] returns null exactly on an absent or empty content.
    On any other text it drops every [#], [*], [-], [>], [[], []] and line
    feed, trims the white space at both ends, keeps the first 150 units of
    what is left and appends three dots exactly when more than 150 units
    were left; the result never has more than 153 units. *)
Theorem createExcerpt_contract (content : jsval) :
  (createExcerpt content = JNull <-> absent_or_empty content)
  /\ (forall text, content = JStr text -> text <> [] ->
      exists leading cleaned trailing,
        filter (fun c => negb (existsb (N.eqb c) stripped_characters)) text
        = leading ++ cleaned ++ trailing
        /\ all_white leading /\ all_white trailing /\ trimmed cleaned
        /\ createExcerpt content
           = JStr (firstn 150 cleaned
                   ++ (if (150 <? length cleaned)%nat then js "..." else [])))
  /\ (forall e, createExcerpt content = JStr e -> (length e <= 153)%nat).
Proof.
  split; [apply createExcerpt_null|].
  split; [|apply createExcerpt_length].
  intros text -> Hne.
  destruct text as [|c text]; [contradiction|].
  destruct (trim_split (replace_markup (c :: text)))
    as (leading & trailing & E & Wl & Wt & T).
  exists leading, (trim (replace_markup (c :: text))), trailing.
  rewrite <- replace_markup_filter.
  repeat split; try assumption; try apply T.
  apply createExcerpt_string.
Qed.

Lemma createExcerpt_contract_witness :
  createExcerpt (JStr []) = JNull
  /\ forall e, createExcerpt (JStr (js "# Hello")) = JStr e ->
               (length e <= 153)%nat.
Proof.
  split.
  - apply (proj2 (proj1 (createExcerpt_contract (JStr [])))).
    right. right. reflexivity.
  - apply (proj2 (proj2 (createExcerpt_contract (JStr (js "# Hello"))))).
Defined.

(** A text of markup and white space only gives the empty text, not null. *)
Example createExcerpt_markup_only :
  createExcerpt (JStr (js "## --  ")) = JStr [].
Proof. reflexivity. Qed.

(** The scenario of the documentation: a heading, a line feed and two
    hundred letters give the first 150 cleaned units and the dots. *)
Example createExcerpt_scenario :
  createExcerpt (JStr (js "# Hello World" ++ [10%N] ++ repeat 120%N 200))
  = JStr (js "Hello World" ++ repeat 120%N 139 ++ js "...").
Proof. reflexivity. Qed.

(* ================================================================== *)
(** ** Rows and set clauses *)

Lemma column_eqb_spec (a b : column) : column_eqb a b = true <-> a = b.
Proof. destruct a, b; simpl; split; congruence. Qed.

Lemma get_set_same (c : column) (v : sqlval) (a : Row.t) :
  get_column c (set_column c v a) = v.
Proof. destruct a, c; reflexivity. Qed.

Lemma get_set_other (c c' : column) (v : sqlval) (a : Row.t) :
  c <> c' -> get_column c (set_column c' v a) = get_column c a.
Proof. destruct a, c, c'; intros H; try reflexivity; contradiction. Qed.

Lemma set_column_keys (c : column) (v : sqlval) (a : Row.t) :
  Row.id (set_column c v a) = Row.id a
  /\ Row.slug (set_column c v a) = Row.slug a
  /\ Row.created_at (set_column c v a) = Row.created_at a.
Proof. destruct a, c; repeat split. Qed.

Lemma set_updated_at_keeps (v : sqlval) (a : Row.t) :
  Row.id (set_updated_at v a) = Row.id a
  /\ Row.slug (set_updated_at v a) = Row.slug a
  /\ Row.created_at (set_updated_at v a) = Row.created_at a
  /\ Row.updated_at (set_updated_at v a) = v
  /\ forall c, get_column c (set_updated_at v a) = get_column c a.
Proof. destruct a; repeat split; intros c; destruct c; reflexivity. Qed.

Lemma apply_sets_keys (sets : list (column * jsval)) (a : Row.t) :
  Row.id (apply_sets sets a) = Row.id a
  /\ Row.slug (apply_sets sets a) = Row.slug a
  /\ Row.created_at (apply_sets sets a) = Row.created_at a.
Proof.
  unfold apply_sets. revert a.
  induction sets as [|[c v] sets IH]; intros a; simpl; [repeat split|].
  destruct (IH (set_column c (sql_of v) a)) as (H1 & H2 & H3).
  destruct (set_column_keys c (sql_of v) a) as (K1 & K2 & K3).
  repeat split; congruence.
Qed.

Lemma apply_sets_app (l1 l2 : list (column * jsval)) (a : Row.t) :
  apply_sets (l1 ++ l2) a = apply_sets l2 (apply_sets l1 a).
Proof. unfold apply_sets. apply fold_left_app. Qed.

(** A column no clause names keeps its value. *)
Lemma apply_sets_untouched (c : column) (sets : list (column * jsval)) (a : Row.t) :
  Forall (fun kv => fst kv <> c) sets ->
  get_column c (apply_sets sets a) = get_column c a.
Proof.
  unfold apply_sets. revert a.
  induction sets as [|[c' v] sets IH]; intros a H; simpl; [reflexivity|].
  inversion H as [|? ? Hc Hs]; subst. simpl in Hc.
  rewrite IH by assumption.
  apply get_set_other. congruence.
Qed.

(** A column named by one clause, and by none after it, gets that clause's
    parameter. *)
Lemma apply_sets_assigned (c : column) (v : jsval)
    (before after : list (column * jsval)) (a : Row.t) :
  Forall (fun kv => fst kv <> c) after ->
  get_column c (apply_sets (before ++ (c, v) :: after) a) = sql_of v.
Proof.
  intros H. rewrite apply_sets_app.
  change ((c, v) :: after) with ([(c, v)] ++ after).
  rewrite apply_sets_app, apply_sets_untouched by assumption.
  unfold apply_sets. simpl. apply get_set_same.
Qed.

Lemma Forall_filter_weaken {A} (P : A -> Prop) (p : A -> bool) (l : list A) :
  Forall P l -> Forall P (filter p l).
Proof.
  intros H. apply Forall_forall. intros x Hx.
  apply filter_In in Hx as [Hx _].
  rewrite Forall_forall in H. now apply H.
Qed.

(** The status the handler stores is never [undefined]. *)
Lemma newStatus_defined (status stored : jsval) :
  stored <> JUndefined ->
  js_or (js_and status (lowered status)) stored <> JUndefined.
Proof.
  intros H. unfold js_or, js_and.
  destruct status as [| |[|c s]]; simpl; try assumption.
  discriminate.
Qed.

Lemma js_of_defined (v : sqlval) : js_of v <> JUndefined.
Proof. destruct v; discriminate. Qed.

Lemma newStatus_effective (status : jsval) (stored : sqlval) :
  sql_of (js_or (js_and status (lowered status)) (js_of stored))
  = effective_status status stored.
Proof.
  unfold effective_status, js_or, js_and.
  destruct status as [| |[|c s]]; simpl; destruct stored; reflexivity.
Qed.

Arguments js : simpl never.

Ltac names_differ :=
  repeat first
    [ apply Forall_nil
    | apply Forall_app; split
    | apply Forall_filter_weaken
    | apply Forall_cons; [cbn [fst]; discriminate|] ].

(** The shape of the set clauses: [published_at] first, [status] always
    among them, each named once. *)
Lemma setClauses_split (clock : Clock.t) (body : Body.t) (existing : jsval * jsval) :
  fst existing <> JUndefined ->
  let newStatus :=
    js_or (js_and (Body.status body) (lowered (Body.status body))) (fst existing) in
  exists before after,
    setClauses clock body existing
    = (c_published_at, publishedAtValue clock newStatus (snd existing))
        :: before ++ (c_status, newStatus) :: after
    /\ Forall (fun kv => fst kv <> c_published_at) (before ++ (c_status, newStatus) :: after)
    /\ Forall (fun kv => fst kv <> c_status) after.
Proof.
  intros Hdef newStatus.
  pose proof (newStatus_defined (Body.status body) (fst existing) Hdef) as Hns.
  fold newStatus in Hns.
  set (keep := fun kv : column * jsval =>
                 negb (strict_eq (snd kv) JUndefined)
                 && negb (column_eqb (fst kv) c_content)).
  set (head := [ (c_title, Body.title body); (c_content, Body.content body);
                 (c_featured_image, Body.featured_image body);
                 (c_category, Body.category body);
                 (c_author, Body.author body) ]).
  set (tail := [ (c_meta_title, Body.meta_title body);
                 (c_meta_description, Body.meta_description body) ]).
  set (exc := if negb (strict_eq (Body.content body) JUndefined)
              then [ (c_excerpt, createExcerpt (Body.content body)) ] else []).
  set (con := if negb (strict_eq (Body.content body) JUndefined)
              then [ (c_content, Body.content body) ] else []).
  assert (Hkeep : keep (c_status, newStatus) = true).
  { unfold keep. cbn [fst snd column_eqb negb andb].
    destruct (strict_eq newStatus JUndefined) eqn:E; [|reflexivity].
    apply strict_eq_spec in E. contradiction. }
  exists (exc ++ filter keep head), (filter keep tail ++ con).
  split; [|split].
  - unfold setClauses. fold newStatus. cbn [app]. f_equal.
    fold exc. fold con. rewrite <- app_assoc. f_equal.
    change [ (c_title, Body.title body); (c_content, Body.content body);
             (c_featured_image, Body.featured_image body);
             (c_category, Body.category body); (c_author, Body.author body);
             (c_status, newStatus); (c_meta_title, Body.meta_title body);
             (c_meta_description, Body.meta_description body) ]
      with (head ++ (c_status, newStatus) :: tail).
    fold keep. rewrite filter_app. cbn [filter]. rewrite Hkeep.
    now rewrite <- app_assoc.
  - unfold exc, con, head, tail.
    destruct (negb (strict_eq (Body.content body) JUndefined)); names_differ.
  - unfold con, tail.
    destruct (negb (strict_eq (Body.content body) JUndefined)); names_differ.
Qed.

(** The guard on the number of set clauses never fires: [published_at] and
    [status] are always among them. *)
Lemma setClauses_length (clock : Clock.t) (body : Body.t) (existing : jsval * jsval) :
  fst existing <> JUndefined ->
  (length (setClauses clock body existing) <=? 1)%nat = false.
Proof.
  intros H.
  destruct (setClauses_split clock body existing H) as (before & after & E & _).
  rewrite E. cbn [length]. rewrite length_app. cbn [length].
  apply Nat.leb_gt. lia.
Qed.

Lemma setClauses_published_at (clock : Clock.t) (body : Body.t)
    (stored_status stored_published_at : sqlval) (a : Row.t) :
  Row.published_at
    (apply_sets (setClauses clock body
                   (js_of stored_status, js_of stored_published_at)) a)
  = sql_of (publishedAtValue clock
              (js_or (js_and (Body.status body) (lowered (Body.status body)))
                     (js_of stored_status))
              (js_of stored_published_at)).
Proof.
  destruct (setClauses_split clock body
              (js_of stored_status, js_of stored_published_at)
              (js_of_defined _)) as (before & after & E & Hp & _).
  rewrite E. cbn [fst snd] in *.
  change (Row.published_at ?r) with (get_column c_published_at r).
  now apply (apply_sets_assigned c_published_at _ []).
Qed.

Lemma setClauses_status (clock : Clock.t) (body : Body.t)
    (stored_status stored_published_at : sqlval) (a : Row.t) :
  Row.status
    (apply_sets (setClauses clock body
                   (js_of stored_status, js_of stored_published_at)) a)
  = effective_status (Body.status body) stored_status.
Proof.
  destruct (setClauses_split clock body
              (js_of stored_status, js_of stored_published_at)
              (js_of_defined _)) as (before & after & E & _ & Hs).
  rewrite E. cbn [fst snd] in *.
  change (Row.status ?r) with (get_column c_status r).
  rewrite app_comm_cons, apply_sets_assigned by assumption.
  apply newStatus_effective.
Qed.

(* ================================================================== *)
(** ** The table *)

Lemma has_slug_spec (s : jsstring) (a : Row.t) :
  has_slug s a = true <-> Row.slug a = Some s.
Proof.
  unfold has_slug. rewrite sql_eq_spec. split.
  - intros (t & Ha & Ht). congruence.
  - intros H. now exists s.
Qed.

Lemma unique_slugs_inj (rows : list Row.t) (a b : Row.t) :
  unique_slugs rows -> In a rows -> In b rows ->
  Row.slug a = Row.slug b -> a = b.
Proof.
  unfold unique_slugs. induction rows as [|x rows IH]; simpl; [tauto|].
  intros N Ha Hb E. inversion N as [|? ? Hx Hr]; subst.
  destruct Ha as [<-|Ha], Hb as [<-|Hb]; try reflexivity.
  - exfalso. apply Hx. rewrite E. now apply in_map.
  - exfalso. apply Hx. rewrite <- E. now apply in_map.
  - now apply IH.
Qed.

Lemma unique_find (rows : list Row.t) (a : Row.t) (s : jsstring) :
  unique_slugs rows -> In a rows -> Row.slug a = Some s ->
  find (has_slug s) rows = Some a.
Proof.
  intros U Ha Hs.
  destruct (find (has_slug s) rows) as [b|] eqn:F.
  - apply find_some in F as [Hb Hsb]. apply has_slug_spec in Hsb.
    f_equal. apply (unique_slugs_inj rows); congruence.
  - apply (find_none _ _ F) in Ha.
    apply has_slug_spec in Hs. congruence.
Qed.

(* ================================================================== *)
(** ** The update handler *)

Ltac answered H :=
  unfold json, uncaught, ret in H; injection H as <- <-.

Ltac other_status :=
  match goal with
  | H : http_status (mkResponse _ _) = _ |- _ =>
      cbn [http_status] in H; discriminate H
  end.

(** A successful update: the body named a stored slug, and the rows of that
    slug got the set clauses computed from the first of them. *)
Lemma put_articles_200 (clock : Clock.t) (f : faults) (body : option Body.t)
    (w w' : world) (r : response) :
  put_articles clock f body w = (r, w') ->
  http_status r = 200 ->
  exists b s a,
    body = Some b /\ Body.slug b = JStr s /\ s <> []
    /\ find (has_slug s) (DB w) = Some a
    /\ DB w'
       = map (fun x =>
                if has_slug s x
                then set_updated_at (Some (Clock.CURRENT_TIMESTAMP clock))
                       (apply_sets
                          (setClauses clock b
                             (js_of (Row.status a), js_of (Row.published_at a)))
                          x)
                else x) (DB w).
Proof.
  intros H H200. unfold put_articles in H.
  destruct body as [b|]; [|answered H; other_status].
  destruct (Body.slug b) as [| |[|c s]] eqn:Eslug; cbn [truthy negb] in H;
    try (answered H; other_status).
  unfold bind, select_existing, prepare in H. cbn [DB sequence queries] in H.
  destruct (f SelectExisting); [answered H; other_status|].
  cbn [sql_of] in H.
  change (fun a => sql_eq (Row.slug a) (Some (c :: s))) with (has_slug (c :: s)) in H.
  destruct (find (has_slug (c :: s)) (DB w)) as [a|] eqn:F;
    [|answered H; other_status].
  rewrite setClauses_length in H by (cbn [fst]; apply js_of_defined).
  unfold update_article, prepare in H. cbn [DB sequence queries] in H.
  destruct (f UpdateArticle); [answered H; other_status|].
  cbn [sql_of] in H.
  change (fun a => sql_eq (Row.slug a) (Some (c :: s))) with (has_slug (c :: s)) in H.
  match type of H with
  | (let (_, _) := if ?g then _ else _ in _) = _ => destruct g
  end; [answered H; other_status|].
  cbn [changes is_zero] in H.
  answered H. cbn [DB].
  exists b, (c :: s), a. repeat split; try assumption. discriminate.
Qed.

Lemma sql_of_js_of (v : sqlval) : sql_of (js_of v) = v.
Proof. now destruct v. Qed.

Lemma strict_eq_sql (v : jsval) (t : jsstring) :
  v <> JUndefined -> strict_eq v (JStr t) = sql_eq (sql_of v) (Some t).
Proof. destruct v; simpl; congruence. Qed.

(** The published_at computation, read on column values. *)
Lemma publishedAtValue_policy (clock : Clock.t) (status : jsval)
    (stored_status stored_published_at : sqlval) :
  sql_of (publishedAtValue clock
            (js_or (js_and status (lowered status)) (js_of stored_status))
            (js_of stored_published_at))
  = if sql_eq (effective_status status stored_status) (Some (js "published"))
       && negb (present stored_published_at)
    then Some (Clock.published_at clock)
    else if negb (sql_eq (effective_status status stored_status)
                    (Some (js "published")))
            && present stored_published_at
    then None
    else stored_published_at.
Proof.
  unfold publishedAtValue, present.
  rewrite strict_eq_sql by (apply newStatus_defined, js_of_defined).
  rewrite newStatus_effective.
  destruct (sql_eq _ _), (truthy (js_of stored_published_at));
    cbn [andb negb sql_of]; try reflexivity; apply sql_of_js_of.
Qed.

Lemma update_keeps_slugs (s : jsstring) (g : Row.t -> Row.t) (rows : list Row.t) :
  (forall x, Row.slug (g x) = Row.slug x) ->
  map Row.slug (map (fun x => if has_slug s x then g x else x) rows)
  = map Row.slug rows.
Proof.
  intros Hg. rewrite map_map. apply map_ext.
  intros x. destruct (has_slug s x); [apply Hg | reflexivity].
Qed.

Lemma updated_row_slug (now : sqlval) (sets : list (column * jsval)) (x : Row.t) :
  Row.slug (set_updated_at now (apply_sets sets x)) = Row.slug x.
Proof.
  destruct (set_updated_at_keeps now (apply_sets sets x)) as (_ & -> & _).
  apply apply_sets_keys.
Qed.

(** A successful update of the stored article [a]: the table still has one
    row of that slug, with the same id, the status and the publish time the
    handler computed, and the engine's time as [updated_at]. *)
Lemma put_articles_row (clock : Clock.t) (f : faults) (body : Body.t)
    (w w' : world) (r : response) (a : Row.t) (s : jsstring) :
  unique_slugs (DB w) -> In a (DB w) -> Row.slug a = Some s ->
  Body.slug body = JStr s ->
  put_articles clock f (Some body) w = (r, w') ->
  http_status r = 200 ->
  unique_slugs (DB w')
  /\ exists a',
       In a' (DB w') /\ Row.slug a' = Some s /\ Row.id a' = Row.id a
       /\ Row.created_at a' = Row.created_at a
       /\ Row.updated_at a' = Some (Clock.CURRENT_TIMESTAMP clock)
       /\ Row.status a' = effective_status (Body.status body) (Row.status a)
       /\ Row.published_at a'
          = if sql_eq (effective_status (Body.status body) (Row.status a))
                 (Some (js "published"))
               && negb (present (Row.published_at a))
            then Some (Clock.published_at clock)
            else if negb (sql_eq (effective_status (Body.status body) (Row.status a))
                            (Some (js "published")))
                    && present (Row.published_at a)
            then None
            else Row.published_at a.
Proof.
  intros U Ha Hs Hb H H200.
  destruct (put_articles_200 _ _ _ _ _ _ H H200)
    as (b & s' & a0 & Eb & Es & Hne & F & E).
  injection Eb as <-. rewrite Hb in Es. injection Es as <-.
  rewrite (unique_find _ _ _ U Ha Hs) in F. injection F as <-.
  set (sets := setClauses clock body
                 (js_of (Row.status a), js_of (Row.published_at a))) in *.
  set (now := Some (Clock.CURRENT_TIMESTAMP clock)) in *.
  split.
  - unfold unique_slugs. rewrite E.
    rewrite (update_keeps_slugs s (fun x => set_updated_at now (apply_sets sets x)))
      by (intros x; apply updated_row_slug).
    exact U.
  - exists (set_updated_at now (apply_sets sets a)).
    destruct (set_updated_at_keeps now (apply_sets sets a))
      as (Kid & Kslug & Kcr & Kup & Kcol).
    destruct (apply_sets_keys sets a) as (Aid & Aslug & Acr).
    repeat split.
    + rewrite E. apply in_map_iff. exists a. split; [|assumption].
      apply has_slug_spec in Hs. now rewrite Hs.
    + congruence.
    + congruence.
    + congruence.
    + exact Kup.
    + pose proof (Kcol c_status) as K. cbn [get_column] in K. rewrite K.
      apply setClauses_status.
    + pose proof (Kcol c_published_at) as K. cbn [get_column] in K. rewrite K.
      unfold sets. rewrite setClauses_published_at.
      apply publishedAtValue_policy.
Qed.

(** C3, as stated, fails under both readings of "equals published".
    Up to case: a stored status [Published] with a publish time, updated
    with no status, loses the publish time although the rule keeps it.
    Exactly: a draft updated with the status [PUBLISHED] gets a publish time
    although the rule, which takes the requested text as it is, leaves it
    absent. *)
Lemma put_articles_published_at_case :
  (map Row.status (DB (world_with (JStr (js "Published"))))
   = [Some (js "Published")]
   /\ map Row.published_at (DB (world_with (JStr (js "Published"))))
      = [Some (Clock.published_at sample_clock)]
   /\ http_status
        (fst (put_articles later_clock no_fault
                (Some (body_of (JStr (js "hello")) (JStr (js "Hi")) JUndefined
                               JUndefined))
                (world_with (JStr (js "Published"))))) = 200
   /\ map Row.published_at
        (DB (snd (put_articles later_clock no_fault
                    (Some (body_of (JStr (js "hello")) (JStr (js "Hi")) JUndefined
                                   JUndefined))
                    (world_with (JStr (js "Published"))))))
      = [None]
   /\ stated_published_at published_up_to_case (Clock.published_at later_clock)
        JUndefined (Some (js "Published"))
        (Some (Clock.published_at sample_clock))
      = Some (Clock.published_at sample_clock))
  /\
  (map Row.status (DB (world_with JUndefined)) = [Some (js "draft")]
   /\ map Row.published_at (DB (world_with JUndefined)) = [None]
   /\ http_status
        (fst (put_articles later_clock no_fault
                (Some (body_of (JStr (js "hello")) JUndefined JUndefined
                               (JStr (js "PUBLISHED"))))
                (world_with JUndefined))) = 200
   /\ map Row.published_at
        (DB (snd (put_articles later_clock no_fault
                    (Some (body_of (JStr (js "hello")) JUndefined JUndefined
                                   (JStr (js "PUBLISHED"))))
                    (world_with JUndefined))))
      = [Some (Clock.published_at later_clock)]
   /\ stated_published_at exactly_published (Clock.published_at later_clock)
        (JStr (js "PUBLISHED")) (Some (js "draft")) None
      = None).
Proof. repeat split; vm_compute; reflexivity. Qed.

(** C3, amended.  A successful update of a stored article works with the
    lower-cased requested status when a non-empty one is supplied, else with
    the stored status as it is stored.  If that status is exactly
    [published] and no publish time is present, the publish time becomes the
    clock reading of the call; if it is not and a publish time is present,
    the publish time becomes NULL; otherwise it is unchanged.  After a
    clear, a later update that publishes stores the clock reading of that
    later call. *)
Theorem put_articles_publish_policy (clock : Clock.t) (f : faults)
    (body : Body.t) (w w' : world) (r : response) (a : Row.t) (s : jsstring) :
  unique_slugs (DB w) -> In a (DB w) -> Row.slug a = Some s ->
  Body.slug body = JStr s ->
  put_articles clock f (Some body) w = (r, w') ->
  http_status r = 200 ->
  exists a',
    In a' (DB w') /\ Row.slug a' = Some s /\ Row.id a' = Row.id a
    /\ (let published :=
          sql_eq (effective_status (Body.status body) (Row.status a))
                 (Some (js "published")) in
        (published = true -> present (Row.published_at a) = false ->
         Row.published_at a' = Some (Clock.published_at clock))
        /\ (published = false -> present (Row.published_at a) = true ->
            Row.published_at a' = None)
        /\ (published = present (Row.published_at a) ->
            Row.published_at a' = Row.published_at a))
    /\ (forall clock2 f2 body2 r2 w2,
          Row.published_at a' = None ->
          Body.slug body2 = JStr s ->
          sql_eq (effective_status (Body.status body2) (Row.status a'))
                 (Some (js "published")) = true ->
          put_articles clock2 f2 (Some body2) w' = (r2, w2) ->
          http_status r2 = 200 ->
          exists a2,
            In a2 (DB w2) /\ Row.slug a2 = Some s /\ Row.id a2 = Row.id a
            /\ Row.published_at a2 = Some (Clock.published_at clock2)).
Proof.
  intros U Ha Hs Hb H H200.
  destruct (put_articles_row _ _ _ _ _ _ _ _ U Ha Hs Hb H H200)
    as (U' & a' & Ha' & Hs' & Hid & _ & _ & Hst & Hpa).
  exists a'. repeat split; try assumption.
  - intros P Q. rewrite Hpa, P, Q. reflexivity.
  - intros P Q. rewrite Hpa, P, Q. reflexivity.
  - intros P. rewrite Hpa, P.
    destruct (present (Row.published_at a)); reflexivity.
  - intros clock2 f2 body2 r2 w2 Hnone Hb2 Hpub H2 H2200.
    destruct (put_articles_row _ _ _ _ _ _ _ _ U' Ha' Hs' Hb2 H2 H2200)
      as (_ & a2 & Ha2 & Hs2 & Hid2 & _ & _ & _ & Hpa2).
    exists a2. repeat split; try assumption; [congruence|].
    rewrite Hpa2, Hpub, Hnone. reflexivity.
Qed.

Lemma put_articles_publish_policy_witness :
  exists a',
    In a' (DB (snd (put_articles later_clock no_fault
                      (Some (body_of (JStr (js "hello")) JUndefined JUndefined
                                     (JStr (js "Published"))))
                      (world_with JUndefined))))
    /\ Row.published_at a' = Some (Clock.published_at later_clock).
Proof.
  destruct (put_articles_publish_policy later_clock no_fault
              (body_of (JStr (js "hello")) JUndefined JUndefined
                       (JStr (js "Published")))
              (world_with JUndefined)
              (snd (put_articles later_clock no_fault
                      (Some (body_of (JStr (js "hello")) JUndefined JUndefined
                                     (JStr (js "Published"))))
                      (world_with JUndefined)))
              (fst (put_articles later_clock no_fault
                      (Some (body_of (JStr (js "hello")) JUndefined JUndefined
                                     (JStr (js "Published"))))
                      (world_with JUndefined)))
              (hd (Row.mk 0 None None None None None None None None None None
                          None None None)
                  (DB (world_with JUndefined)))
              (js "hello"))
    as (a' & Hin & _ & _ & (Hset & _ & _) & _).
  - vm_compute. repeat constructor. intros [].
  - vm_compute. left. reflexivity.
  - vm_compute. reflexivity.
  - reflexivity.
  - apply surjective_pairing.
  - vm_compute. reflexivity.
  - exists a'. split; [exact Hin|].
    apply Hset; vm_compute; reflexivity.
Defined.

(** The engine rejects an update only when it sets the title to NULL. *)
Lemma setClauses_title_not_null (clock : Clock.t) (body : Body.t)
    (existing : jsval * jsval) :
  Body.title body <> JNull ->
  existsb (fun cv => column_eqb (fst cv) c_title
                     && match sql_of (snd cv) with
                        | None => true
                        | Some _ => false
                        end)
          (setClauses clock body existing) = false.
Proof.
  intros Ht.
  destruct (existsb _ _) eqn:E; [|reflexivity]. exfalso.
  apply existsb_exists in E as ([c v] & Hin & Hq). cbn [fst snd] in Hq.
  apply andb_true_iff in Hq as [Hc Hv]. apply column_eqb_spec in Hc. subst c.
  unfold setClauses in Hin.
  repeat (apply in_app_or in Hin as [Hin|Hin]).
  - destruct Hin as [Hin|[]]; discriminate.
  - destruct (negb (strict_eq (Body.content body) JUndefined));
      [destruct Hin as [Hin|[]]; discriminate | contradiction].
  - apply filter_In in Hin as [Hin Hk]. cbn [fst snd] in Hk.
    apply andb_true_iff in Hk as [Hk _].
    cbn [In] in Hin.
    repeat (destruct Hin as [Hin|Hin]; [try discriminate|]); [|contradiction].
    injection Hin as <-.
    destruct (Body.title body); [discriminate | contradiction | discriminate].
  - destruct (negb (strict_eq (Body.content body) JUndefined));
      [destruct Hin as [Hin|[]]; discriminate | contradiction].
Qed.

(** An update of a stored slug that does not set the title to NULL, on a
    working storage, succeeds. *)
Lemma put_articles_run (clock : Clock.t) (f : faults) (body : Body.t)
    (w : world) (a : Row.t) (s : jsstring) :
  Body.slug body = JStr s -> s <> [] ->
  find (has_slug s) (DB w) = Some a ->
  Body.title body <> JNull ->
  f SelectExisting = None -> f UpdateArticle = None ->
  put_articles clock f (Some body) w
  = (mkResponse 200
       (MessageSlug true (js "Article updated successfully") (JStr s)),
     mkWorld
       (map (fun x =>
               if has_slug s x
               then set_updated_at (Some (Clock.CURRENT_TIMESTAMP clock))
                      (apply_sets
                         (setClauses clock body
                            (js_of (Row.status a), js_of (Row.published_at a)))
                         x)
               else x) (DB w))
       (sequence w)
       (UpdateArticle :: SelectExisting :: queries w)).
Proof.
  intros Hb Hne F Ht F1 F2.
  destruct s as [|c s]; [contradiction|].
  unfold put_articles. rewrite Hb. cbn [truthy negb].
  unfold bind, select_existing, prepare. rewrite F1.
  cbn [DB sequence queries sql_of].
  change (fun a => sql_eq (Row.slug a) (Some (c :: s))) with (has_slug (c :: s)).
  rewrite F.
  rewrite setClauses_length by (cbn [fst]; apply js_of_defined).
  unfold update_article, prepare. rewrite F2.
  cbn [DB sequence queries sql_of].
  change (fun a => sql_eq (Row.slug a) (Some (c :: s))) with (has_slug (c :: s)).
  rewrite setClauses_title_not_null by assumption.
  rewrite andb_false_r.
  reflexivity.
Qed.

(** C1 (the code departs from it).  An update of a stored slug whose body
    has none of the recognised members is answered 200 with the success
    envelope: the guard on the number of set clauses does not fire, because
    the status clause is always among them. *)
Theorem put_articles_no_recognized_field (clock : Clock.t) (body : Body.t)
    (w : world) (a : Row.t) (s : jsstring) :
  Body.slug body = JStr s -> s <> [] ->
  In a (DB w) -> Row.slug a = Some s ->
  Body.title body = JUndefined -> Body.content body = JUndefined ->
  Body.featured_image body = JUndefined -> Body.category body = JUndefined ->
  Body.author body = JUndefined -> Body.status body = JUndefined ->
  Body.meta_title body = JUndefined ->
  Body.meta_description body = JUndefined ->
  exists w',
    put_articles clock no_fault (Some body) w
    = (mkResponse 200
         (MessageSlug true (js "Article updated successfully") (JStr s)), w').
Proof.
  intros Hb Hne Ha Hs Ht _ _ _ _ _ _ _.
  assert (exists a0, find (has_slug s) (DB w) = Some a0) as (a0 & F).
  { destruct (find (has_slug s) (DB w)) as [a0|] eqn:F; [now exists a0|].
    apply (find_none _ _ F) in Ha. apply has_slug_spec in Hs. congruence. }
  eexists. apply (put_articles_run clock no_fault body w a0 s); try assumption;
    try reflexivity.
  rewrite Ht. discriminate.
Qed.

Lemma put_articles_no_recognized_field_witness :
  exists w',
    put_articles later_clock no_fault
      (Some (Body.mk (JStr (js "hello")) JUndefined JUndefined JUndefined
                     JUndefined JUndefined JUndefined JUndefined JUndefined
                     [(js "foo", JStr (js "bar"))]))
      (world_with JUndefined)
    = (mkResponse 200
         (MessageSlug true (js "Article updated successfully")
            (JStr (js "hello"))), w').
Proof.
  apply (put_articles_no_recognized_field later_clock _ (world_with JUndefined)
           (hd (Row.mk 0 None None None None None None None None None None
                       None None None)
               (DB (world_with JUndefined))));
    try reflexivity.
  - discriminate.
  - vm_compute. left. reflexivity.
Defined.

(* ================================================================== *)
(** ** The create handler *)

Lemma creatable_strings (body : Body.t) :
  creatable body ->
  exists s t c, s <> [] /\ Body.slug body = JStr s
                /\ Body.title body = JStr t /\ Body.content body = JStr c.
Proof.
  intros (Hs & Ht & Hc).
  apply truthy_spec in Hs as (x & s & Hs).
  apply truthy_spec in Ht as (y & t & Ht).
  apply truthy_spec in Hc as (z & c & Hc).
  exists (x :: s), (y :: t), (z :: c). repeat split; try assumption.
  discriminate.
Qed.

Lemma existsb_has_slug (s : jsstring) (rows : list Row.t) :
  existsb (fun b => sql_eq (Row.slug b) (Some s)) rows = true
  <-> exists a, In a rows /\ Row.slug a = Some s.
Proof.
  rewrite existsb_exists. split; intros (a & Ha & H); exists a; split;
    try assumption; now apply (has_slug_spec s a).
Qed.

Lemma unique_violation_found :
  truthy (JStr (d1_error "UNIQUE constraint failed: articles.slug"
                          "SQLITE_CONSTRAINT_UNIQUE"))
  && includes (d1_error "UNIQUE constraint failed: articles.slug"
                        "SQLITE_CONSTRAINT_UNIQUE")
       (js "UNIQUE constraint failed: articles.slug") = true.
Proof. vm_compute. reflexivity. Qed.

(** What the create handler does with a body that passes validation, on a
    storage that runs the insert. *)
Lemma post_articles_run (clock : Clock.t) (f : faults) (body : Body.t) (w : world) :
  creatable body -> f InsertArticle = None ->
  post_articles clock f (Some body) w
  = if existsb (fun b => sql_eq (Row.slug b) (sql_of (Body.slug body))) (DB w)
    then (mkResponse 409
            (Message false
               (js "Failed to add article: SLUG '" ++ to_string (Body.slug body)
                ++ js "' already exists.")),
          mkWorld (DB w) (sequence w) (InsertArticle :: queries w))
    else (mkResponse 200
            (MessageSlug true (js "Article added successfully") (Body.slug body)),
          mkWorld (DB w ++ [created_row clock body (sequence w + 1)])
                  (sequence w + 1) (InsertArticle :: queries w)).
Proof.
  intros C F.
  destruct (creatable_strings body C) as (s & t & c & Hne & Hs & Ht & Hc).
  destruct C as (Ts & Tt & Tc).
  unfold post_articles. rewrite Ts, Tt, Tc. cbn [negb orb].
  unfold bind, insert_article, prepare. rewrite F.
  cbn [DB sequence queries Row.slug Row.title].
  rewrite Hs, Ht. cbn [sql_of].
  destruct (existsb _ (DB w)).
  - rewrite unique_violation_found. reflexivity.
  - unfold created_row. rewrite Hs, Ht. reflexivity.
Qed.

(** A create answered 200 passed validation and appended its row. *)
Lemma post_articles_200 (clock : Clock.t) (f : faults) (body : option Body.t)
    (w w' : world) (r : response) :
  post_articles clock f body w = (r, w') ->
  http_status r = 200 ->
  exists b,
    body = Some b /\ creatable b
    /\ existsb (fun x => sql_eq (Row.slug x) (sql_of (Body.slug b))) (DB w) = false
    /\ DB w' = DB w ++ [created_row clock b (sequence w + 1)].
Proof.
  intros H H200. unfold post_articles in H.
  destruct body as [b|]; [|answered H; other_status].
  destruct (truthy (Body.slug b)) eqn:Ts; [|answered H; other_status].
  destruct (truthy (Body.title b)) eqn:Tt; [|answered H; other_status].
  destruct (truthy (Body.content b)) eqn:Tc; [|answered H; other_status].
  cbn [negb orb] in H.
  assert (C : creatable b) by (repeat split; assumption).
  destruct (creatable_strings b C) as (s & t & c & Hne & Hs & Ht & Hc).
  unfold bind, insert_article, prepare in H.
  cbn [DB sequence queries Row.slug Row.title] in H.
  destruct (f InsertArticle) as [msg|].
  - destruct (truthy (JStr msg) && includes msg _); answered H; other_status.
  - rewrite Hs, Ht in H. cbn [sql_of] in H.
    destruct (existsb _ (DB w)) eqn:E.
    + rewrite unique_violation_found in H. answered H; other_status.
    + answered H. exists b. rewrite Hs. cbn [sql_of DB].
      repeat split; try assumption.
      unfold created_row. rewrite Hs, Ht. reflexivity.
Qed.

Lemma post_articles_fault (clock : Clock.t) (f : faults) (body : Body.t)
    (w : world) (message : jsstring) :
  creatable body -> f InsertArticle = Some message ->
  includes message unique_violation = false ->
  post_articles clock f (Some body) w
  = (mkResponse 500 (Message false (js "Error adding article: " ++ message)),
     mkWorld (DB w) (sequence w) (InsertArticle :: queries w)).
Proof.
  intros (Ts & Tt & Tc) F I.
  unfold post_articles. rewrite Ts, Tt, Tc. cbn [negb orb].
  unfold bind, insert_article, prepare. rewrite F.
  unfold unique_violation in I. rewrite I, andb_false_r. reflexivity.
Qed.

(** C5. A successful create whose body has no status stores the status
    [draft] and no publish time, the author [Admin] when the body gives no
    author (the given author otherwise), and one and the same clock reading
    as [created_at] and [updated_at]. *)
Theorem post_articles_defaults (clock : Clock.t) (f : faults) (body : Body.t)
    (w w' : world) (r : response) :
  Body.status body = JUndefined ->
  post_articles clock f (Some body) w = (r, w') ->
  http_status r = 200 ->
  exists a,
    DB w' = DB w ++ [a]
    /\ Row.slug a = sql_of (Body.slug body)
    /\ Row.status a = Some (js "draft")
    /\ Row.published_at a = None
    /\ Row.created_at a = Some (Clock.currentTimestamp clock)
    /\ Row.updated_at a = Row.created_at a
    /\ (truthy (Body.author body) = false -> Row.author a = Some (js "Admin"))
    /\ (truthy (Body.author body) = true ->
        Row.author a = sql_of (Body.author body)).
Proof.
  intros Hst H H200.
  destruct (post_articles_200 _ _ _ _ _ _ H H200) as (b & Eb & _ & _ & E).
  injection Eb as <-.
  exists (created_row clock body (sequence w + 1)).
  split; [exact E|].
  unfold created_row. cbn [Row.slug Row.status Row.published_at Row.created_at
                           Row.updated_at Row.author].
  rewrite Hst. cbn [truthy andb js_or sql_of].
  repeat split; intros Ha; unfold js_or; now rewrite Ha.
Qed.

Lemma post_articles_defaults_witness :
  exists a,
    DB (world_with JUndefined) = [a]
    /\ Row.status a = Some (js "draft")
    /\ Row.published_at a = None
    /\ Row.author a = Some (js "Admin")
    /\ Row.updated_at a = Row.created_at a.
Proof.
  destruct (post_articles_defaults sample_clock no_fault
              (body_of (JStr (js "hello")) (JStr (js "Hello"))
                       (JStr (js "# Hello World")) JUndefined)
              empty_world (world_with JUndefined)
              (fst (post_articles sample_clock no_fault
                      (Some (body_of (JStr (js "hello")) (JStr (js "Hello"))
                                     (JStr (js "# Hello World")) JUndefined))
                      empty_world)))
    as (a & E & _ & Hs & Hp & _ & Hu & Ha & _).
  - reflexivity.
  - apply surjective_pairing.
  - vm_compute. reflexivity.
  - exists a. repeat split; try assumption. apply Ha. reflexivity.
Defined.

(** C6. After a successful create, a valid create with the same slug is
    answered 409 on a storage that runs the insert, and leaves the table as
    it was, the first row in it; the answer to a storage failure whose
    message does not report the uniqueness violation is 500. *)
Theorem post_articles_same_slug (clock1 clock2 : Clock.t) (f1 f2 : faults)
    (body1 body2 : Body.t) (w w1 : world) (r1 : response) :
  post_articles clock1 f1 (Some body1) w = (r1, w1) ->
  http_status r1 = 200 ->
  creatable body2 ->
  Body.slug body2 = Body.slug body1 ->
  f2 InsertArticle = None ->
  exists r2 w2 a,
    post_articles clock2 f2 (Some body2) w1 = (r2, w2)
    /\ http_status r2 = 409
    /\ DB w2 = DB w1
    /\ In a (DB w2) /\ a = created_row clock1 body1 (sequence w + 1)
    /\ forall f3 message w3 r3,
         f3 InsertArticle = Some message ->
         includes message unique_violation = false ->
         post_articles clock2 f3 (Some body2) w1 = (r3, w3) ->
         http_status r3 = 500 /\ DB w3 = DB w1.
Proof.
  intros H H200 C2 Hslug F2.
  destruct (post_articles_200 _ _ _ _ _ _ H H200) as (b & Eb & C1 & _ & E).
  injection Eb as <-.
  destruct (creatable_strings body1 C1) as (s & _ & _ & _ & Hs & _ & _).
  assert (X : existsb (fun x => sql_eq (Row.slug x) (sql_of (Body.slug body2)))
                (DB w1) = true).
  { rewrite Hslug, Hs. cbn [sql_of]. apply existsb_has_slug.
    exists (created_row clock1 body1 (sequence w + 1)). split.
    - rewrite E. apply in_or_app. right. now left.
    - unfold created_row. cbn [Row.slug]. now rewrite Hs. }
  exists (mkResponse 409
            (Message false
               (js "Failed to add article: SLUG '" ++ to_string (Body.slug body2)
                ++ js "' already exists."))),
         (mkWorld (DB w1) (sequence w1) (InsertArticle :: queries w1)),
         (created_row clock1 body1 (sequence w + 1)).
  split; [rewrite (post_articles_run clock2 f2 body2 w1 C2 F2), X; reflexivity|].
  split; [reflexivity|]. split; [reflexivity|].
  split; [cbn [DB]; rewrite E; apply in_or_app; right; now left|].
  split; [reflexivity|].
  intros f3 message w3 r3 F3 I H3.
  rewrite (post_articles_fault clock2 f3 body2 w1 message C2) in H3
    by assumption.
  injection H3 as <- <-. split; reflexivity.
Qed.

Lemma post_articles_same_slug_witness :
  http_status
    (fst (post_articles later_clock no_fault
            (Some (body_of (JStr (js "hello")) (JStr (js "Again"))
                           (JStr (js "Other text")) JUndefined))
            (world_with JUndefined))) = 409
  /\ DB (snd (post_articles later_clock no_fault
                (Some (body_of (JStr (js "hello")) (JStr (js "Again"))
                               (JStr (js "Other text")) JUndefined))
                (world_with JUndefined)))
     = DB (world_with JUndefined).
Proof.
  destruct (post_articles_same_slug sample_clock later_clock no_fault no_fault
              (body_of (JStr (js "hello")) (JStr (js "Hello"))
                       (JStr (js "# Hello World")) JUndefined)
              (body_of (JStr (js "hello")) (JStr (js "Again"))
                       (JStr (js "Other text")) JUndefined)
              empty_world (world_with JUndefined)
              (fst (post_articles sample_clock no_fault
                      (Some (body_of (JStr (js "hello")) (JStr (js "Hello"))
                                     (JStr (js "# Hello World")) JUndefined))
                      empty_world)))
    as (r2 & w2 & a & E & H409 & Hdb & _).
  - apply surjective_pairing.
  - vm_compute. reflexivity.
  - repeat split.
  - reflexivity.
  - reflexivity.
  - rewrite E. split; assumption.
Defined.

(* ================================================================== *)
(** ** The stored status *)

(** C8, as stated, fails on update: the status [Archived] is accepted but
    the row stores [archived]. *)
Lemma put_articles_status_lowered :
  http_status
    (fst (put_articles later_clock no_fault
            (Some (body_of (JStr (js "hello")) JUndefined JUndefined
                           (JStr (js "Archived"))))
            (world_with JUndefined))) = 200
  /\ map Row.status
       (DB (snd (put_articles later_clock no_fault
                   (Some (body_of (JStr (js "hello")) JUndefined JUndefined
                                  (JStr (js "Archived"))))
                   (world_with JUndefined))))
     = [Some (js "archived")]
  /\ js "archived" <> js "Archived".
Proof.
  split; [vm_compute; reflexivity|].
  split; [vm_compute; reflexivity|].
  vm_compute. discriminate.
Qed.

(** C8, amended.  A non-empty status text (well-formed, so that the table
    gives it back as it is), recognised or not, does not make a create or
    an update fail.  A valid create of a new slug stores the text as the
    caller gave it.  An update of a stored article that does not null the
    title stores the text in lower case, so the caller's text is stored as
    given exactly when lower-casing leaves it as it is; this is stated for
    the texts of Basic Latin and Latin-1 characters, on which [toLowerCase]
    here is the case mapping of the engine. *)
Theorem status_stored (status : jsstring) :
  status <> [] -> well_formed status = true ->
  (forall clock body w,
      creatable body ->
      Body.status body = JStr status ->
      existsb (fun x => sql_eq (Row.slug x) (sql_of (Body.slug body))) (DB w)
      = false ->
      exists a w',
        post_articles clock no_fault (Some body) w
        = (mkResponse 200
             (MessageSlug true (js "Article added successfully") (Body.slug body)),
           w')
        /\ DB w' = DB w ++ [a]
        /\ Row.slug a = sql_of (Body.slug body)
        /\ Row.status a = Some status)
  /\ (forall clock body w a slug,
        unique_slugs (DB w) -> In a (DB w) -> Row.slug a = Some slug ->
        Body.slug body = JStr slug -> slug <> [] ->
        Body.title body <> JNull ->
        Body.status body = JStr status ->
        exists a' w',
          put_articles clock no_fault (Some body) w
          = (mkResponse 200
               (MessageSlug true (js "Article updated successfully")
                  (JStr slug)), w')
          /\ In a' (DB w') /\ Row.slug a' = Some slug /\ Row.id a' = Row.id a
          /\ (latin1 status ->
              Row.status a' = Some (toLowerCase status)
              /\ (Row.status a' = Some status <-> toLowerCase status = status))).
Proof.
  intros Hne _. split.
  - intros clock body w C Hst Hnew.
    exists (created_row clock body (sequence w + 1)).
    eexists. rewrite (post_articles_run clock no_fault body w C eq_refl), Hnew.
    split; [reflexivity|]. cbn [DB]. split; [reflexivity|].
    unfold created_row. cbn [Row.slug Row.status]. split; [reflexivity|].
    rewrite Hst. destruct status; [contradiction|]. reflexivity.
  - intros clock body w a slug U Ha Hs Hb Hslug Ht Hst.
    pose proof (put_articles_run clock no_fault body w a slug Hb Hslug
                  (unique_find _ _ _ U Ha Hs) Ht eq_refl eq_refl) as R.
    destruct (put_articles_row clock no_fault body w _ _ a slug U Ha Hs Hb R
                eq_refl)
      as (_ & a' & Ha' & Hs' & Hid & _ & _ & Hstatus & _).
    exists a'. eexists. split; [exact R|].
    assert (E : Row.status a' = Some (toLowerCase status)).
    { rewrite Hstatus, Hst. unfold effective_status.
      destruct status; [contradiction|]. reflexivity. }
    split; [assumption|]. split; [assumption|]. split; [assumption|].
    intros _. split; [assumption|].
    split; intros X; congruence.
Qed.

Lemma status_stored_witness :
  exists a' w',
    put_articles later_clock no_fault
      (Some (body_of (JStr (js "hello")) JUndefined JUndefined
                     (JStr (js "Archived"))))
      (world_with JUndefined)
    = (mkResponse 200
         (MessageSlug true (js "Article updated successfully")
            (JStr (js "hello"))), w')
    /\ In a' (DB w')
    /\ Row.status a' = Some (js "archived").
Proof.
  assert (N : js "Archived" <> []) by discriminate.
  destruct (proj2 (status_stored (js "Archived") N eq_refl) later_clock
              (body_of (JStr (js "hello")) JUndefined JUndefined
                       (JStr (js "Archived")))
              (world_with JUndefined)
              (hd (Row.mk 0 None None None None None None None None None None
                          None None None)
                  (DB (world_with JUndefined)))
              (js "hello"))
    as (a' & w' & E & Hin & _ & _ & Hst).
  - vm_compute. repeat constructor. intros [].
  - vm_compute. left. reflexivity.
  - vm_compute. reflexivity.
  - reflexivity.
  - discriminate.
  - discriminate.
  - reflexivity.
  - exists a', w'. split; [assumption|]. split; [assumption|].
    apply Hst. unfold latin1.
    repeat (apply Forall_cons; [vm_compute; discriminate|]).
    apply Forall_nil.
Defined.

(* ================================================================== *)
(** ** The read path *)

Lemma sql_leb_total (a b : sqlval) : sql_leb a b = false -> sql_leb b a = true.
Proof.
  destruct a as [s|], b as [t|]; simpl; try congruence.
  revert t. induction s as [|x s IH]; intros [|y t]; simpl; try congruence.
  intros H. apply orb_false_iff in H as [H1 H2].
  apply N.ltb_ge in H1.
  destruct (N.eqb_spec x y) as [->|Hxy].
  - simpl in H2. rewrite N.eqb_refl, (IH t H2). simpl. apply orb_true_r.
  - assert ((y <? x)%N = true) as -> by (apply N.ltb_lt; lia). reflexivity.
Qed.

Lemma insert_desc_perm (a : Row.t) (l : list Row.t) :
  Permutation (a :: l) (insert_desc a l).
Proof.
  induction l as [|b l IH]; simpl; [reflexivity|].
  destruct (sql_leb _ _); [reflexivity|].
  rewrite perm_swap. now constructor.
Qed.

Lemma order_by_perm (l : list Row.t) :
  Permutation l (order_by_published_at_desc l).
Proof.
  induction l as [|a l IH]; simpl; [constructor|].
  rewrite <- insert_desc_perm. now constructor.
Qed.

Lemma insert_desc_sorted (a : Row.t) (l : list Row.t) :
  Sorted desc_rows l -> Sorted desc_rows (insert_desc a l).
Proof.
  induction l as [|b l IH]; simpl; intros S.
  - repeat constructor.
  - destruct (sql_leb (Row.published_at b) (Row.published_at a)) eqn:E.
    + constructor; [assumption|]. constructor. exact E.
    + apply sql_leb_total in E.
      inversion S as [|? ? Sl Hb]; subst.
      constructor; [now apply IH|].
      destruct l as [|c l]; simpl.
      * constructor. exact E.
      * destruct (sql_leb (Row.published_at c) (Row.published_at a));
          constructor; [exact E|].
        now inversion Hb.
Qed.

Lemma order_by_sorted (l : list Row.t) :
  Sorted desc_rows (order_by_published_at_desc l).
Proof.
  induction l as [|a l IH]; simpl; [constructor|].
  now apply insert_desc_sorted.
Qed.

Lemma Sorted_skipn {A} (R : A -> A -> Prop) (n : nat) (l : list A) :
  Sorted R l -> Sorted R (skipn n l).
Proof.
  revert l. induction n as [|n IH]; intros l S; [assumption|].
  destruct l as [|a l]; [constructor|]. simpl. apply IH.
  now inversion S.
Qed.

Lemma Sorted_firstn {A} (R : A -> A -> Prop) (n : nat) (l : list A) :
  Sorted R l -> Sorted R (firstn n l).
Proof.
  revert l. induction n as [|n IH]; intros l S; [constructor|].
  destruct l as [|a l]; [constructor|]. simpl.
  inversion S as [|? ? Sl Ha]; subst.
  constructor; [now apply IH|].
  destruct l as [|b l]; [rewrite firstn_nil; constructor|].
  destruct n; simpl; constructor. now inversion Ha.
Qed.

Lemma Sorted_summaries (l : list Row.t) :
  Sorted desc_rows l -> Sorted desc_summaries (map Summary.of_row l).
Proof.
  induction 1 as [|a l S IH Ha]; simpl; constructor; [assumption|].
  destruct Ha; simpl; constructor. assumption.
Qed.

Lemma slice_incl {A} (n : nat) (l : list A) (x : A) :
  (In x (firstn n l) -> In x l) /\ (In x (skipn n l) -> In x l).
Proof.
  rewrite <- (firstn_skipn n l) at 2 4.
  split; intros H; apply in_or_app; auto.
Qed.

Lemma limit_offset_incl {A} (limit offset : Z) (l : list A) (x : A) :
  In x (limit_offset limit offset l) -> In x l.
Proof.
  unfold limit_offset. intros H.
  destruct (limit <? 0).
  - exact (proj2 (slice_incl (Z.to_nat offset) l x) H).
  - apply (proj2 (slice_incl (Z.to_nat offset) l x)).
    exact (proj1 (slice_incl (Z.to_nat limit) _ x) H).
Qed.

(** What a listing answer holds. *)
Lemma get_articles_sent (f : faults) (page_param size_param category : jsval)
    (w w' : world) (r : response) (ok : bool) (data : list Summary.t)
    (pg : Pagination.t) :
  get_articles f page_param size_param category w = (r, w') ->
  sent r = Listing ok data pg ->
  let page := num_or (parseInt page_param) 1 in
  let size := num_or (parseInt size_param) 10 in
  let total :=
    Z.of_nat (length (filter (where_published category) (DB w))) in
  data = map Summary.of_row
           (limit_offset size ((page - 1) * size)
              (order_by_published_at_desc
                 (filter (where_published category) (DB w))))
  /\ pg = Pagination.mk page size total (ceil_div total size)
            (js_or category JNull)
  /\ ok = true /\ http_status r = 200 /\ DB w' = DB w.
Proof.
  intros H Hs. unfold get_articles, bind, select_page, select_count, prepare in H.
  cbn [DB sequence queries] in H.
  destruct (f SelectPage); [answered H; discriminate Hs|].
  destruct (f SelectCount); [answered H; discriminate Hs|].
  answered H. cbn [sent] in Hs. injection Hs as <- <- <-.
  repeat split.
Qed.

(** Every listed summary is the projection of a published row. *)
Lemma listed_published (f : faults) (page_param size_param category : jsval)
    (w w' : world) (r : response) (ok : bool) (data : list Summary.t)
    (pg : Pagination.t) (x : Summary.t) :
  get_articles f page_param size_param category w = (r, w') ->
  sent r = Listing ok data pg ->
  In x data ->
  exists b, In b (DB w) /\ x = Summary.of_row b
            /\ Row.status b = Some (js "published").
Proof.
  intros H Hsent Hx.
  destruct (get_articles_sent _ _ _ _ _ _ _ _ _ _ H Hsent) as (-> & _).
  apply in_map_iff in Hx as (b & <- & Hb).
  apply limit_offset_incl in Hb.
  apply (Permutation_in _ (Permutation_sym (order_by_perm _))) in Hb.
  apply filter_In in Hb as [Hb Hp].
  unfold where_published in Hp. apply andb_true_iff in Hp as [Hp _].
  apply sql_eq_spec in Hp as (t & Ht & Et). injection Et as <-.
  now exists b.
Qed.

(** The lookup of a slug whose only row is not published finds nothing. *)
Lemma unpublished_not_found (f : faults) (w : world) (a : Row.t) (s : jsstring) :
  unique_slugs (DB w) -> In a (DB w) -> Row.slug a = Some s ->
  Row.status a <> Some (js "published") ->
  f SelectBySlug = None ->
  get_article f (JStr s) w
  = (mkResponse 404 (Message false (js "Article not found or not published")),
     mkWorld (DB w) (sequence w) (SelectBySlug :: queries w)).
Proof.
  intros U Ha Hs Hdraft F. unfold get_article, bind, select_by_slug, prepare.
  rewrite F. cbn [DB sequence queries sql_of].
  assert (E : filter (fun x => sql_eq (Row.slug x) (Some s)
                               && sql_eq (Row.status x) (Some (js "published")))
                (DB w) = []).
  { destruct (filter _ (DB w)) as [|b l] eqn:E; [reflexivity|]. exfalso.
    assert (In b (b :: l)) as Hb by now left.
    rewrite <- E in Hb. apply filter_In in Hb as [Hb Hp].
    apply andb_true_iff in Hp as [Hp1 Hp2].
    apply (has_slug_spec s b) in Hp1.
    apply sql_eq_spec in Hp2 as (t & Ht & Et). injection Et as <-.
    assert (b = a) as -> by (apply (unique_slugs_inj (DB w)); congruence).
    contradiction. }
  rewrite E. reflexivity.
Qed.

(** C7. An article whose stored status is not [published] is in no listing,
    whatever the page, the size and the category, and a lookup of its slug
    on a working storage is answered 404. *)
Theorem unpublished_invisible (w : world) (a : Row.t) (s : jsstring) :
  unique_slugs (DB w) -> In a (DB w) -> Row.slug a = Some s ->
  Row.status a <> Some (js "published") ->
  (forall f page_param size_param category r w' ok data pg,
      get_articles f page_param size_param category w = (r, w') ->
      sent r = Listing ok data pg ->
      forall x, In x data ->
                Summary.slug x <> Some s /\ x <> Summary.of_row a)
  /\ (forall f,
        f SelectBySlug = None ->
        fst (get_article f (JStr s) w)
        = mkResponse 404
            (Message false (js "Article not found or not published"))).
Proof.
  intros U Ha Hs Hdraft. split.
  - intros f page_param size_param category r w' ok data pg H Hsent x Hx.
    assert (Hslug : Summary.slug x <> Some s);
      [|split; [exact Hslug | intros ->; now apply Hslug]].
    intros Hxs.
    destruct (listed_published _ _ _ _ _ _ _ _ _ _ _ H Hsent Hx)
      as (b & Hb & -> & Hp).
    cbn [Summary.of_row Summary.slug] in Hxs.
    assert (b = a) as -> by (apply (unique_slugs_inj (DB w)); congruence).
    contradiction.
  - intros f F.
    now rewrite (unpublished_not_found f w a s U Ha Hs Hdraft F).
Qed.

Lemma unpublished_invisible_witness :
  fst (get_article no_fault (JStr (js "hello")) (world_with JUndefined))
  = mkResponse 404 (Message false (js "Article not found or not published")).
Proof.
  apply (proj2 (unpublished_invisible (world_with JUndefined)
                  (hd (Row.mk 0 None None None None None None None None None
                              None None None None)
                      (DB (world_with JUndefined)))
                  (js "hello")
                  ltac:(vm_compute; repeat constructor; intros [])
                  ltac:(vm_compute; left; reflexivity)
                  ltac:(vm_compute; reflexivity)
                  ltac:(vm_compute; discriminate))).
  reflexivity.
Defined.

Lemma ceil_div_bounds (n s : Z) :
  1 <= s -> (ceil_div n s - 1) * s < n <= ceil_div n s * s.
Proof.
  intros H. unfold ceil_div.
  pose proof (Z.div_mod (- n) s ltac:(lia)) as E.
  pose proof (Z.mod_pos_bound (- n) s ltac:(lia)) as B.
  nia.
Qed.

(** C4. A listing with page [p >= 1] and size [s >= 1] (read from the query,
    or the defaults 1 and 10) on a working storage takes the published rows
    that match the category, in descending order of [published_at], skips
    [(p - 1) * s] of them and sends at most [s]; the pagination echoes [p]
    and [s], gives the number [n] of matching rows and the least number of
    pages of [s] that hold [n] rows, and echoes the category, null when
    none was given.  The page, the size and the offset are safe integers
    (at most [MAX_SAFE_INTEGER]), the numbers on which the doubles of the
    handler and the 64-bit integers of the engine are exact. *)
Theorem get_articles_page (page_param size_param category : jsval)
    (w : world) (p s : Z) :
  num_or (parseInt page_param) 1 = p -> num_or (parseInt size_param) 10 = s ->
  1 <= p -> 1 <= s -> safe_listing w p s ->
  exists ordered data total_pages echoed,
    fst (get_articles no_fault page_param size_param category w)
    = mkResponse 200
        (Listing true data
           (Pagination.mk p s
              (Z.of_nat (length (filter (where_published category) (DB w))))
              total_pages echoed))
    /\ Permutation (filter (where_published category) (DB w)) ordered
    /\ Sorted desc_rows ordered
    /\ data = map Summary.of_row
                (firstn (Z.to_nat s) (skipn (Z.to_nat ((p - 1) * s)) ordered))
    /\ Z.of_nat (length data) <= s
    /\ Sorted desc_summaries data
    /\ (total_pages - 1) * s
       < Z.of_nat (length (filter (where_published category) (DB w)))
       <= total_pages * s
    /\ (truthy category = false -> echoed = JNull)
    /\ (truthy category = true -> echoed = category).
Proof.
  intros Hp Hs Lp Ls _.
  set (matching := filter (where_published category) (DB w)).
  exists (order_by_published_at_desc matching).
  exists (map Summary.of_row
            (firstn (Z.to_nat s)
               (skipn (Z.to_nat ((p - 1) * s))
                  (order_by_published_at_desc matching)))).
  exists (ceil_div (Z.of_nat (length matching)) s), (js_or category JNull).
  split; [|split; [|split; [|split; [|split; [|split; [|split; [|split]]]]]]].
  - unfold get_articles, bind, select_page, select_count, prepare, no_fault.
    cbn [DB sequence queries fst].
    rewrite Hp, Hs.
    unfold limit_offset, json, ret. cbn [fst].
    destruct (Z.ltb_spec s 0); [lia | reflexivity].
  - apply order_by_perm.
  - apply order_by_sorted.
  - reflexivity.
  - rewrite length_map, length_firstn. lia.
  - apply Sorted_summaries, Sorted_firstn, Sorted_skipn, order_by_sorted.
  - now apply ceil_div_bounds.
  - intros T. unfold js_or. now rewrite T.
  - intros T. unfold js_or. now rewrite T.
Qed.

Lemma get_articles_page_witness :
  exists data total_pages,
    fst (get_articles no_fault (JStr (js "2")) (JStr (js "10")) JNull sample_table)
    = mkResponse 200
        (Listing true data (Pagination.mk 2 10 25 total_pages JNull))
    /\ Z.of_nat (length data) <= 10
    /\ (total_pages - 1) * 10 < 25 <= total_pages * 10.
Proof.
  destruct (get_articles_page (JStr (js "2")) (JStr (js "10")) JNull
              sample_table 2 10)
    as (ordered & data & total_pages & echoed & E & _ & _ & _ & L & _ & T & N & _).
  - reflexivity.
  - reflexivity.
  - lia.
  - lia.
  - unfold safe_listing, safe. vm_compute. repeat split; discriminate.
  - exists data, total_pages. rewrite E, (N eq_refl).
    repeat split; try assumption; apply T.
Defined.

(** The listing of the documentation: page 2 of size 10 over 25 published
    articles (and a draft) sends 10 of them and counts 25 items in 3
    pages. *)
Example get_articles_second_page :
  match sent (fst (get_articles no_fault (JStr (js "2")) (JStr (js "10")) JNull
                     sample_table)) with
  | Listing ok data pg =>
      ok = true /\ length data = 10%nat
      /\ map Summary.id data = [15; 14; 13; 12; 11; 10; 9; 8; 7; 6]
      /\ pg = Pagination.mk 2 10 25 3 JNull
  | _ => False
  end.
Proof. vm_compute. repeat split. Qed.

(** C10. Some create input gets a publish time and yet is never served:
    with the status [Published] the create stores that text and the clock
    reading of the call, and no listing and no lookup returns the article,
    both comparing the stored status with [published] exactly. *)
Theorem published_at_without_visibility :
  exists clock body w' a,
    Body.status body = JStr (js "Published")
    /\ post_articles clock no_fault (Some body) empty_world
       = (mkResponse 200
            (MessageSlug true (js "Article added successfully")
               (Body.slug body)), w')
    /\ DB w' = [a]
    /\ Row.slug a = sql_of (Body.slug body)
    /\ Row.status a = Some (js "Published")
    /\ Row.published_at a = Some (Clock.published_at clock)
    /\ (forall f page_param size_param category r w2 ok data pg,
          get_articles f page_param size_param category w' = (r, w2) ->
          sent r = Listing ok data pg -> data = [])
    /\ (forall f,
          f SelectBySlug = None ->
          fst (get_article f (Body.slug body) w')
          = mkResponse 404
              (Message false (js "Article not found or not published"))).
Proof.
  exists sample_clock,
         (body_of (JStr (js "hello")) (JStr (js "Hello"))
                  (JStr (js "# Hello World")) (JStr (js "Published"))),
         (world_with (JStr (js "Published"))),
         (created_row sample_clock
            (body_of (JStr (js "hello")) (JStr (js "Hello"))
                     (JStr (js "# Hello World")) (JStr (js "Published"))) 1).
  split; [reflexivity|]. split; [reflexivity|]. split; [reflexivity|].
  split; [reflexivity|]. split; [reflexivity|]. split; [reflexivity|].
  assert (U : unique_slugs (DB (world_with (JStr (js "Published")))))
    by (vm_compute; repeat constructor; intros []).
  split.
  - intros f page_param size_param category r w2 ok data pg H Hsent.
    destruct data as [|x data]; [reflexivity|]. exfalso.
    destruct (listed_published _ _ _ _ _ _ _ _ _ _ x H Hsent (or_introl eq_refl))
      as (b & Hb & _ & Hp).
    destruct Hb as [<-|[]]. vm_compute in Hp. discriminate Hp.
  - intros f F. cbn [body_of Body.slug].
    rewrite (unpublished_not_found f _
               (created_row sample_clock
                  (body_of (JStr (js "hello")) (JStr (js "Hello"))
                           (JStr (js "# Hello World")) (JStr (js "Published"))) 1)
               (js "hello") U).
    + reflexivity.
    + left. reflexivity.
    + reflexivity.
    + vm_compute. discriminate.
    + exact F.
Qed.

(* ================================================================== *)
(** ** The admin gate *)

(** With the right key the handler runs. *)
Lemma authMiddleware_pass (env : Env.t) (key : jsval) (next : M response) :
  truthy key = true -> key = Env.WEBAPP_APIKEY env ->
  authMiddleware env key next = next.
Proof.
  intros T E. unfold authMiddleware. rewrite T, <- E.
  assert (strict_eq key key = true) as -> by now apply strict_eq_spec.
  reflexivity.
Qed.

(** The earlier revision gates the same way on the key of the body. *)
Lemma BodyKey_unauthorized (env : Env.t) (apiKey : jsval) (next : M response)
    (w : world) :
  apiKey = JUndefined \/ apiKey <> Env.WEBAPP_APIKEY env ->
  BodyKey.authMiddleware env apiKey next w
  = (mkResponse 401
       (Message false (js "Unauthorized: Invalid or missing API Key")), w).
Proof.
  intros H. unfold BodyKey.authMiddleware.
  destruct (truthy apiKey) eqn:T; [|reflexivity].
  destruct H as [->|H]; [discriminate T|].
  destruct (strict_eq apiKey (Env.WEBAPP_APIKEY env)) eqn:E; [|reflexivity].
  apply strict_eq_spec in E. contradiction.
Qed.

(** C9. A request to the create, update or delete route of the admin group
    whose [X-API-Key] header is absent or differs from the configured secret
    is answered 401 with the same envelope whatever its body; no statement
    is run and the database is what it was. *)
Theorem admin_unauthorized (env : Env.t) (clock : Clock.t) (f : faults)
    (method : admin_method) (key : jsval) (body : option Body.t) (w : world) :
  key = JUndefined \/ key <> Env.WEBAPP_APIKEY env ->
  adminArticles env clock f method key body w
  = (mkResponse 401
       (Message false
          (js "Unauthorized: Invalid or missing X-API-Key in header")), w).
Proof.
  intros H. unfold adminArticles, authMiddleware.
  destruct (truthy key) eqn:T; [|reflexivity].
  destruct H as [->|H]; [discriminate T|].
  destruct (strict_eq key (Env.WEBAPP_APIKEY env)) eqn:E; [|reflexivity].
  apply strict_eq_spec in E. contradiction.
Qed.

Lemma admin_unauthorized_witness :
  adminArticles (Env.mk (JStr (js "s3cret"))) sample_clock no_fault DELETE
    (JStr (js "guess"))
    (Some (body_of (JStr (js "hello")) JUndefined JUndefined JUndefined))
    (world_with JUndefined)
  = (mkResponse 401
       (Message false
          (js "Unauthorized: Invalid or missing X-API-Key in header")),
     world_with JUndefined).
Proof.
  apply admin_unauthorized. right. vm_compute. discriminate.
Defined.

(* ================================================================== *)
(** ** The uniqueness of slugs is kept *)

Lemma NoDup_map_filter {A B} (g : A -> B) (p : A -> bool) (l : list A) :
  NoDup (map g l) -> NoDup (map g (filter p l)).
Proof.
  induction l as [|a l IH]; simpl; intros N; [constructor|].
  inversion N as [|? ? Ha Hl]; subst.
  destruct (p a); simpl; [|now apply IH].
  constructor; [|now apply IH].
  intros H. apply Ha. apply in_map_iff in H as (b & E & Hb).
  apply filter_In in Hb as [Hb _]. rewrite <- E. now apply in_map.
Qed.

Lemma unique_slugs_append (rows : list Row.t) (a : Row.t) (s : jsstring) :
  unique_slugs rows -> Row.slug a = Some s ->
  existsb (fun b => sql_eq (Row.slug b) (Some s)) rows = false ->
  unique_slugs (rows ++ [a]).
Proof.
  unfold unique_slugs. intros U Hs E.
  rewrite map_app. cbn [map].
  induction rows as [|b rows IH]; simpl in *.
  - repeat constructor. intros [].
  - inversion U as [|? ? Hb Hr]; subst.
    apply orb_false_iff in E as [E1 E2].
    constructor; [|now apply IH].
    intros H. apply in_app_or in H as [H|[H|[]]]; [contradiction|].
    rewrite Hs in H. rewrite <- H in E1. cbn [sql_eq] in E1.
    now rewrite str_eqb_refl in E1.
Qed.

Lemma post_articles_keeps_unique (clock : Clock.t) (f : faults)
    (body : option Body.t) (w : world) :
  unique_slugs (DB w) ->
  unique_slugs (DB (snd (post_articles clock f body w))).
Proof.
  intros U. unfold post_articles.
  destruct body as [b|]; [|exact U].
  destruct (negb (truthy (Body.slug b)) || negb (truthy (Body.title b))
            || negb (truthy (Body.content b))); [exact U|].
  unfold bind, insert_article, prepare.
  cbn [DB sequence queries Row.slug Row.title].
  destruct (f InsertArticle) as [msg|].
  - destruct (truthy (JStr msg) && includes msg _); exact U.
  - destruct (sql_of (Body.slug b)) as [s|] eqn:Es;
      [|destruct (truthy _ && includes _ _); exact U].
    destruct (sql_of (Body.title b)) as [t|];
      [|destruct (truthy _ && includes _ _); exact U].
    destruct (existsb _ (DB w)) eqn:E.
    + destruct (truthy _ && includes _ _); exact U.
    + cbn [snd json ret DB]. now apply (unique_slugs_append _ _ s).
Qed.

Lemma put_articles_keeps_unique (clock : Clock.t) (f : faults)
    (body : option Body.t) (w : world) :
  unique_slugs (DB w) ->
  unique_slugs (DB (snd (put_articles clock f body w))).
Proof.
  intros U. unfold put_articles.
  destruct body as [b|]; [|exact U].
  destruct (negb (truthy (Body.slug b))); [exact U|].
  unfold bind, select_existing, prepare. cbn [DB sequence queries].
  destruct (f SelectExisting); [exact U|].
  destruct (find _ (DB w)) as [a|]; [|exact U].
  destruct (length _ <=? 1)%nat; [exact U|].
  unfold update_article, prepare. cbn [DB sequence queries].
  destruct (f UpdateArticle); [exact U|].
  destruct (existsb _ (DB w) && existsb _ _); [exact U|].
  cbn [changes is_zero]; cbn [snd json ret DB]; unfold unique_slugs;
    rewrite map_map;
    (erewrite map_ext; [exact U|]);
    intros x; cbn beta; destruct (sql_eq _ _); try reflexivity;
    apply updated_row_slug.
Qed.

Lemma delete_articles_keeps_unique (f : faults) (body : option Body.t)
    (w : world) :
  unique_slugs (DB w) ->
  unique_slugs (DB (snd (delete_articles f body w))).
Proof.
  intros U. unfold delete_articles.
  destruct body as [b|]; [|exact U].
  destruct (negb (truthy (Body.slug b))); [exact U|].
  unfold bind, delete_article, prepare. cbn [DB sequence queries].
  destruct (f DeleteArticle); [exact U|].
  cbn [changes is_zero]; cbn [snd json ret DB]; now apply NoDup_map_filter.
Qed.

(** X13. Whatever the admin group is asked and however it answers, the
    slugs of the table stay unique. *)
Lemma adminArticles_keeps_unique (env : Env.t) (clock : Clock.t) (f : faults)
    (method : admin_method) (key : jsval) (body : option Body.t) (w : world) :
  unique_slugs (DB w) ->
  unique_slugs (DB (snd (adminArticles env clock f method key body w))).
Proof.
  intros U. unfold adminArticles, authMiddleware.
  destruct (negb (truthy key) || negb (strict_eq key (Env.WEBAPP_APIKEY env)));
    [exact U|].
  destruct method.
  - now apply post_articles_keeps_unique.
  - now apply put_articles_keeps_unique.
  - now apply delete_articles_keeps_unique.
Qed.

(* ================================================================== *)
(** ** The row an update leaves *)

Lemma apply_sets_value (c : column) (sets : list (column * jsval)) (a : Row.t) :
  get_column c (apply_sets sets a)
  = match assigned c sets with
    | Some v => sql_of v
    | None => get_column c a
    end.
Proof.
  unfold apply_sets. revert a.
  induction sets as [|[c' v] sets IH]; intros a; [reflexivity|].
  cbn [fold_left assigned fst snd]. rewrite IH.
  destruct (assigned c sets); [reflexivity|].
  destruct (column_eqb c c') eqn:E.
  - apply column_eqb_spec in E. subst c'. apply get_set_same.
  - apply get_set_other. intros ->.
    assert (column_eqb c' c' = true) by now apply column_eqb_spec.
    congruence.
Qed.

(** Which parameter the set clauses of an update give each column. *)
Lemma setClauses_assigned (clock : Clock.t) (body : Body.t)
    (existing : jsval * jsval) (c : column) :
  fst existing <> JUndefined ->
  assigned c (setClauses clock body existing)
  = let newStatus :=
      js_or (js_and (Body.status body) (lowered (Body.status body)))
            (fst existing) in
    match c with
    | c_published_at =>
        Some (publishedAtValue clock newStatus (snd existing))
    | c_status => Some newStatus
    | c_excerpt =>
        if defined (Body.content body)
        then Some (createExcerpt (Body.content body)) else None
    | c_content =>
        if defined (Body.content body) then Some (Body.content body) else None
    | c_title =>
        if defined (Body.title body) then Some (Body.title body) else None
    | c_featured_image =>
        if defined (Body.featured_image body)
        then Some (Body.featured_image body) else None
    | c_category =>
        if defined (Body.category body) then Some (Body.category body) else None
    | c_author =>
        if defined (Body.author body) then Some (Body.author body) else None
    | c_meta_title =>
        if defined (Body.meta_title body)
        then Some (Body.meta_title body) else None
    | c_meta_description =>
        if defined (Body.meta_description body)
        then Some (Body.meta_description body) else None
    end.
Proof.
  intros Hdef. cbv zeta.
  pose proof (newStatus_defined (Body.status body) (fst existing) Hdef) as Hns.
  unfold setClauses, defined.
  generalize dependent (js_or (js_and (Body.status body) (lowered (Body.status body)))
                              (fst existing)).
  intros newStatus Hns.
  assert (E : strict_eq newStatus JUndefined = false).
  { destruct (strict_eq newStatus JUndefined) eqn:E; [|reflexivity].
    apply strict_eq_spec in E. contradiction. }
  cbn [filter app fst snd column_eqb negb andb]. rewrite E.
  destruct (strict_eq (Body.title body) JUndefined),
           (strict_eq (Body.content body) JUndefined),
           (strict_eq (Body.featured_image body) JUndefined),
           (strict_eq (Body.category body) JUndefined),
           (strict_eq (Body.author body) JUndefined),
           (strict_eq (Body.meta_title body) JUndefined),
           (strict_eq (Body.meta_description body) JUndefined);
    destruct c; reflexivity.
Qed.

Lemma row_ext (a b : Row.t) :
  Row.id a = Row.id b -> Row.slug a = Row.slug b ->
  Row.created_at a = Row.created_at b -> Row.updated_at a = Row.updated_at b ->
  (forall c, get_column c a = get_column c b) ->
  a = b.
Proof.
  destruct a, b. cbn [Row.id Row.slug Row.created_at Row.updated_at].
  intros -> -> -> -> H.
  pose proof (H c_title). pose proof (H c_excerpt). pose proof (H c_content).
  pose proof (H c_featured_image). pose proof (H c_category).
  pose proof (H c_author). pose proof (H c_status).
  pose proof (H c_published_at). pose proof (H c_meta_title).
  pose proof (H c_meta_description).
  cbn [get_column Row.title Row.excerpt Row.content Row.featured_image
       Row.category Row.author Row.status Row.published_at Row.meta_title
       Row.meta_description] in *.
  congruence.
Qed.

(** The columns of a row after the set clauses and the new [updated_at]. *)
Lemma updated_row_column (clock : Clock.t) (body : Body.t)
    (stored_status stored_published_at : sqlval) (x : Row.t) (c : column) :
  get_column c
    (set_updated_at (Some (Clock.CURRENT_TIMESTAMP clock))
       (apply_sets (setClauses clock body
                      (js_of stored_status, js_of stored_published_at)) x))
  = match assigned c (setClauses clock body
                        (js_of stored_status, js_of stored_published_at)) with
    | Some v => sql_of v
    | None => get_column c x
    end.
Proof.
  destruct (set_updated_at_keeps (Some (Clock.CURRENT_TIMESTAMP clock))
              (apply_sets (setClauses clock body
                             (js_of stored_status, js_of stored_published_at)) x))
    as (_ & _ & _ & _ & K).
  rewrite K. apply apply_sets_value.
Qed.

(** The effect of a successful update on the table: the row of the slug is
    replaced by its updated version, the other rows stay where they are. *)
Lemma put_articles_effect (clock : Clock.t) (f : faults) (body : Body.t)
    (w w' : world) (r : response) (a : Row.t) (s : jsstring) :
  unique_slugs (DB w) -> In a (DB w) -> Row.slug a = Some s ->
  Body.slug body = JStr s ->
  put_articles clock f (Some body) w = (r, w') ->
  http_status r = 200 ->
  DB w'
  = map (fun x =>
           if has_slug s x
           then set_updated_at (Some (Clock.CURRENT_TIMESTAMP clock))
                  (apply_sets
                     (setClauses clock body
                        (js_of (Row.status a), js_of (Row.published_at a))) a)
           else x) (DB w).
Proof.
  intros U Ha Hs Hb H H200.
  destruct (put_articles_200 _ _ _ _ _ _ H H200)
    as (b & s' & a0 & Eb & Es & Hne & F & E).
  injection Eb as <-. rewrite Hb in Es. injection Es as <-.
  rewrite (unique_find _ _ _ U Ha Hs) in F. injection F as <-.
  rewrite E. apply map_ext_in. intros x Hx.
  destruct (has_slug s x) eqn:Hx'; [|reflexivity].
  apply has_slug_spec in Hx'.
  assert (x = a) as -> by (apply (unique_slugs_inj (DB w)); congruence).
  reflexivity.
Qed.

Lemma other_rows_kept (s : jsstring) (a' : Row.t) (rows : list Row.t) (b : Row.t) :
  Row.slug a' = Some s -> Row.slug b <> Some s ->
  In b (map (fun x => if has_slug s x then a' else x) rows) <-> In b rows.
Proof.
  intros Ha Hb. rewrite in_map_iff. split.
  - intros (x & E & Hx). destruct (has_slug s x); congruence.
  - intros H. exists b. split; [|assumption].
    destruct (has_slug s b) eqn:E; [|reflexivity].
    apply has_slug_spec in E. contradiction.
Qed.

(** X4. A successful update is a partial update: each of title,
    featured_image, category, author, meta_title and meta_description takes
    the member of the body when the body has it and keeps its value
    otherwise; a content member replaces the content and re-derives the
    excerpt, and without one both are kept; id, slug and created_at are
    kept, updated_at is the engine's time; the rows of the other slugs are
    the same as before.  The strings bound are storable: well-formed, the
    derived excerpt included, whose cut does not split a surrogate pair. *)
Theorem put_articles_partial (clock : Clock.t) (f : faults) (body : Body.t)
    (w w' : world) (r : response) (a : Row.t) (s : jsstring) :
  storable_body body ->
  unique_slugs (DB w) -> In a (DB w) -> Row.slug a = Some s ->
  Body.slug body = JStr s ->
  put_articles clock f (Some body) w = (r, w') ->
  http_status r = 200 ->
  exists a',
    In a' (DB w') /\ Row.slug a' = Some s /\ Row.id a' = Row.id a
    /\ Row.created_at a' = Row.created_at a
    /\ Row.updated_at a' = Some (Clock.CURRENT_TIMESTAMP clock)
    /\ Row.title a' = supplied (Body.title body) (Row.title a)
    /\ Row.featured_image a'
       = supplied (Body.featured_image body) (Row.featured_image a)
    /\ Row.category a' = supplied (Body.category body) (Row.category a)
    /\ Row.author a' = supplied (Body.author body) (Row.author a)
    /\ Row.meta_title a' = supplied (Body.meta_title body) (Row.meta_title a)
    /\ Row.meta_description a'
       = supplied (Body.meta_description body) (Row.meta_description a)
    /\ Row.content a' = supplied (Body.content body) (Row.content a)
    /\ Row.excerpt a'
       = (if defined (Body.content body)
          then sql_of (createExcerpt (Body.content body))
          else Row.excerpt a)
    /\ length (DB w') = length (DB w)
    /\ forall b, Row.slug b <> Some s -> (In b (DB w') <-> In b (DB w)).
Proof.
  intros _ U Ha Hs Hb H H200.
  pose proof (put_articles_effect _ _ _ _ _ _ _ _ U Ha Hs Hb H H200) as E.
  set (a' := set_updated_at (Some (Clock.CURRENT_TIMESTAMP clock))
               (apply_sets
                  (setClauses clock body
                     (js_of (Row.status a), js_of (Row.published_at a))) a))
    in *.
  assert (Hs' : Row.slug a' = Some s)
    by (unfold a'; now rewrite updated_row_slug).
  assert (C : forall c,
             get_column c a'
             = match assigned c (setClauses clock body
                                   (js_of (Row.status a),
                                    js_of (Row.published_at a))) with
               | Some v => sql_of v
               | None => get_column c a
               end) by (intros c; apply updated_row_column).
  assert (A : forall c,
             assigned c (setClauses clock body
                           (js_of (Row.status a), js_of (Row.published_at a)))
             = _)
    by (intros c; apply setClauses_assigned, js_of_defined).
  destruct (set_updated_at_keeps (Some (Clock.CURRENT_TIMESTAMP clock))
              (apply_sets
                 (setClauses clock body
                    (js_of (Row.status a), js_of (Row.published_at a))) a))
    as (Kid & _ & Kcr & Kup & _).
  destruct (apply_sets_keys
              (setClauses clock body
                 (js_of (Row.status a), js_of (Row.published_at a))) a)
    as (Aid & _ & Acr).
  exists a'.
  split; [rewrite E; apply in_map_iff; exists a; split; [|assumption];
          apply has_slug_spec in Hs; now rewrite Hs|].
  split; [exact Hs'|].
  split; [unfold a'; congruence|].
  split; [unfold a'; congruence|].
  split; [exact Kup|].
  pose proof (C c_title) as Ct. rewrite (A c_title) in Ct.
  pose proof (C c_featured_image) as Cf. rewrite (A c_featured_image) in Cf.
  pose proof (C c_category) as Cc. rewrite (A c_category) in Cc.
  pose proof (C c_author) as Cu. rewrite (A c_author) in Cu.
  pose proof (C c_meta_title) as Cm. rewrite (A c_meta_title) in Cm.
  pose proof (C c_meta_description) as Cd. rewrite (A c_meta_description) in Cd.
  pose proof (C c_content) as Co. rewrite (A c_content) in Co.
  pose proof (C c_excerpt) as Ce. rewrite (A c_excerpt) in Ce.
  cbn [get_column] in *. unfold supplied.
  split; [rewrite Ct; now destruct (defined (Body.title body))|].
  split; [rewrite Cf; now destruct (defined (Body.featured_image body))|].
  split; [rewrite Cc; now destruct (defined (Body.category body))|].
  split; [rewrite Cu; now destruct (defined (Body.author body))|].
  split; [rewrite Cm; now destruct (defined (Body.meta_title body))|].
  split; [rewrite Cd; now destruct (defined (Body.meta_description body))|].
  split; [rewrite Co; now destruct (defined (Body.content body))|].
  split; [rewrite Ce; now destruct (defined (Body.content body))|].
  split; [rewrite E; apply length_map|].
  intros b Hbs. rewrite E. now apply other_rows_kept.
Qed.

Lemma put_articles_partial_witness :
  exists a',
    In a' (DB (snd (put_articles later_clock no_fault
                      (Some (body_of (JStr (js "hello")) (JStr (js "Hi"))
                                     JUndefined JUndefined))
                      (world_with JUndefined))))
    /\ Row.title a' = Some (js "Hi")
    /\ Row.content a' = Some (js "# Hello World")
    /\ Row.excerpt a' = Some (js "Hello World").
Proof.
  destruct (put_articles_partial later_clock no_fault
              (body_of (JStr (js "hello")) (JStr (js "Hi")) JUndefined JUndefined)
              (world_with JUndefined)
              (snd (put_articles later_clock no_fault
                      (Some (body_of (JStr (js "hello")) (JStr (js "Hi"))
                                     JUndefined JUndefined))
                      (world_with JUndefined)))
              (fst (put_articles later_clock no_fault
                      (Some (body_of (JStr (js "hello")) (JStr (js "Hi"))
                                     JUndefined JUndefined))
                      (world_with JUndefined)))
              (first_row (world_with JUndefined)) (js "hello"))
    as (a' & Hin & _ & _ & _ & _ & Ht & _ & _ & _ & _ & _ & Hc & He & _).
  - vm_compute. repeat split.
  - vm_compute. repeat constructor. intros [].
  - vm_compute. left. reflexivity.
  - vm_compute. reflexivity.
  - reflexivity.
  - apply surjective_pairing.
  - vm_compute. reflexivity.
  - exists a'. repeat split; assumption.
Defined.

(** X5. A successful update leaves the row publish-consistent when the
    clock reading is not empty: the row has a publish time exactly when its
    stored status is [published]. *)
Theorem put_articles_publish_consistent (clock : Clock.t) (f : faults)
    (body : Body.t) (w w' : world) (r : response) (a : Row.t) (s : jsstring) :
  Clock.published_at clock <> [] ->
  unique_slugs (DB w) -> In a (DB w) -> Row.slug a = Some s ->
  Body.slug body = JStr s ->
  put_articles clock f (Some body) w = (r, w') ->
  http_status r = 200 ->
  forall a', In a' (DB w') -> Row.slug a' = Some s -> publish_consistent a'.
Proof.
  intros Hclock U Ha Hs Hb H H200 a' Ha' Hs'.
  destruct (put_articles_row _ _ _ _ _ _ _ _ U Ha Hs Hb H H200)
    as (U' & a2 & Ha2 & Hs2 & _ & _ & _ & Hst & Hpa).
  assert (a' = a2) as -> by (apply (unique_slugs_inj (DB w')); congruence).
  unfold publish_consistent. rewrite Hpa, Hst.
  destruct (sql_eq _ _), (present (Row.published_at a)) eqn:P;
    cbn [andb negb]; try assumption; try reflexivity.
  unfold present. cbn [js_of truthy].
  destruct (Clock.published_at clock); [contradiction | reflexivity].
Qed.

Lemma put_articles_publish_consistent_witness :
  publish_consistent
    (first_row (snd (put_articles later_clock no_fault
                       (Some (body_of (JStr (js "hello")) (JStr (js "Hi"))
                                      JUndefined JUndefined))
                       (world_with (JStr (js "Published")))))).
Proof.
  apply (put_articles_publish_consistent later_clock no_fault
           (body_of (JStr (js "hello")) (JStr (js "Hi")) JUndefined JUndefined)
           (world_with (JStr (js "Published")))
           (snd (put_articles later_clock no_fault
                   (Some (body_of (JStr (js "hello")) (JStr (js "Hi"))
                                  JUndefined JUndefined))
                   (world_with (JStr (js "Published")))))
           (fst (put_articles later_clock no_fault
                   (Some (body_of (JStr (js "hello")) (JStr (js "Hi"))
                                  JUndefined JUndefined))
                   (world_with (JStr (js "Published")))))
           (first_row (world_with (JStr (js "Published")))) (js "hello")).
  - discriminate.
  - vm_compute. repeat constructor. intros [].
  - vm_compute. left. reflexivity.
  - vm_compute. reflexivity.
  - reflexivity.
  - apply surjective_pairing.
  - vm_compute. reflexivity.
  - vm_compute. left. reflexivity.
  - vm_compute. reflexivity.
Defined.

Lemma effective_status_twice (requested : jsval) (stored : sqlval) :
  effective_status requested (effective_status requested stored)
  = effective_status requested stored.
Proof. unfold effective_status. now destruct (truthy requested). Qed.

(** X6. Repeating a successful update with the same body changes nothing
    but [updated_at]: after the second call the row of the slug is the row
    the first call left, with the engine's time of the second call (the
    clock reading of the first call not being empty). *)
Theorem put_articles_repeat (clock1 clock2 : Clock.t) (f1 f2 : faults)
    (body : Body.t) (w w1 w2 : world) (r1 r2 : response) (a : Row.t)
    (s : jsstring) :
  Clock.published_at clock1 <> [] ->
  unique_slugs (DB w) -> In a (DB w) -> Row.slug a = Some s ->
  Body.slug body = JStr s ->
  put_articles clock1 f1 (Some body) w = (r1, w1) -> http_status r1 = 200 ->
  put_articles clock2 f2 (Some body) w1 = (r2, w2) -> http_status r2 = 200 ->
  DB w2
  = map (fun x =>
           if has_slug s x
           then set_updated_at (Some (Clock.CURRENT_TIMESTAMP clock2)) x
           else x) (DB w1).
Proof.
  intros Hclock U Ha Hs Hb H1 H1200 H2 H2200.
  pose proof (put_articles_effect _ _ _ _ _ _ _ _ U Ha Hs Hb H1 H1200) as E1.
  destruct (put_articles_row _ _ _ _ _ _ _ _ U Ha Hs Hb H1 H1200) as (U1 & _).
  set (sets1 := setClauses clock1 body
                  (js_of (Row.status a), js_of (Row.published_at a))) in *.
  set (a1 := set_updated_at (Some (Clock.CURRENT_TIMESTAMP clock1))
               (apply_sets sets1 a)) in *.
  assert (Hs1 : Row.slug a1 = Some s)
    by (unfold a1; now rewrite updated_row_slug).
  assert (Ha1 : In a1 (DB w1)).
  { rewrite E1. apply in_map_iff. exists a. split; [|assumption].
    apply has_slug_spec in Hs. now rewrite Hs. }
  assert (Hst1 : Row.status a1
                 = effective_status (Body.status body) (Row.status a)).
  { destruct (set_updated_at_keeps (Some (Clock.CURRENT_TIMESTAMP clock1))
                (apply_sets sets1 a)) as (_ & _ & _ & _ & K).
    pose proof (K c_status) as Ks. cbn [get_column] in Ks.
    unfold a1. rewrite Ks. apply setClauses_status. }
  assert (Hpa1 : Row.published_at a1
                 = sql_of (publishedAtValue clock1
                             (js_or (js_and (Body.status body)
                                            (lowered (Body.status body)))
                                    (js_of (Row.status a)))
                             (js_of (Row.published_at a)))).
  { destruct (set_updated_at_keeps (Some (Clock.CURRENT_TIMESTAMP clock1))
                (apply_sets sets1 a)) as (_ & _ & _ & _ & K).
    pose proof (K c_published_at) as Ks. cbn [get_column] in Ks.
    unfold a1. rewrite Ks. apply setClauses_published_at. }
  assert (P : present (Row.published_at a1)
              = sql_eq (Row.status a1) (Some (js "published"))).
  { rewrite Hpa1, Hst1, publishedAtValue_policy.
    destruct (sql_eq _ _), (present (Row.published_at a)) eqn:P;
      cbn [andb negb]; try assumption; try reflexivity.
    unfold present. cbn [js_of truthy].
    destruct (Clock.published_at clock1); [contradiction | reflexivity]. }
  pose proof (put_articles_effect _ _ _ _ _ _ _ _ U1 Ha1 Hs1 Hb H2 H2200) as E2.
  rewrite E2. apply map_ext_in. intros x Hx.
  destruct (has_slug s x) eqn:Hx'; [|reflexivity].
  apply has_slug_spec in Hx'.
  assert (x = a1) as -> by (apply (unique_slugs_inj (DB w1)); congruence).
  set (sets2 := setClauses clock2 body
                  (js_of (Row.status a1), js_of (Row.published_at a1))).
  destruct (set_updated_at_keeps (Some (Clock.CURRENT_TIMESTAMP clock2))
              (apply_sets sets2 a1)) as (Kid & Kslug & Kcr & Kup & _).
  destruct (apply_sets_keys sets2 a1) as (Aid & Aslug & Acr).
  destruct (set_updated_at_keeps (Some (Clock.CURRENT_TIMESTAMP clock2)) a1)
    as (Lid & Lslug & Lcr & Lup & Lcol).
  apply row_ext; try congruence.
  intros c. rewrite Lcol. unfold sets2. rewrite updated_row_column.
  destruct c.
  1-6, 9-10:
    rewrite setClauses_assigned by apply js_of_defined; cbv zeta;
    unfold a1, sets1; rewrite updated_row_column;
    rewrite setClauses_assigned by apply js_of_defined; cbv zeta;
    match goal with
    | |- context [defined ?m] => destruct (defined m)
    end; reflexivity.
  - rewrite setClauses_assigned by apply js_of_defined. cbv zeta. cbn [fst].
    rewrite newStatus_effective. cbn [get_column].
    now rewrite Hst1, effective_status_twice.
  - rewrite setClauses_assigned by apply js_of_defined. cbv zeta. cbn [fst snd].
    rewrite publishedAtValue_policy. cbn [get_column].
    assert (X : effective_status (Body.status body) (Row.status a1)
                = Row.status a1)
      by (rewrite Hst1; apply effective_status_twice).
    rewrite X, P.
    now destruct (sql_eq (Row.status a1) (Some (js "published"))).
Qed.

Lemma put_articles_repeat_witness :
  DB (snd (put_articles later_clock no_fault
             (Some (body_of (JStr (js "hello")) (JStr (js "Hi")) JUndefined
                            (JStr (js "published"))))
             (snd (put_articles sample_clock no_fault
                     (Some (body_of (JStr (js "hello")) (JStr (js "Hi"))
                                    JUndefined (JStr (js "published"))))
                     (world_with JUndefined)))))
  = map (fun x =>
           if has_slug (js "hello") x
           then set_updated_at (Some (Clock.CURRENT_TIMESTAMP later_clock)) x
           else x)
        (DB (snd (put_articles sample_clock no_fault
                    (Some (body_of (JStr (js "hello")) (JStr (js "Hi"))
                                   JUndefined (JStr (js "published"))))
                    (world_with JUndefined)))).
Proof.
  apply (put_articles_repeat sample_clock later_clock no_fault no_fault
           (body_of (JStr (js "hello")) (JStr (js "Hi")) JUndefined
                    (JStr (js "published")))
           (world_with JUndefined) _ _
           (fst (put_articles sample_clock no_fault
                   (Some (body_of (JStr (js "hello")) (JStr (js "Hi"))
                                  JUndefined (JStr (js "published"))))
                   (world_with JUndefined)))
           (fst (put_articles later_clock no_fault
                   (Some (body_of (JStr (js "hello")) (JStr (js "Hi"))
                                  JUndefined (JStr (js "published"))))
                   (snd (put_articles sample_clock no_fault
                           (Some (body_of (JStr (js "hello")) (JStr (js "Hi"))
                                          JUndefined (JStr (js "published"))))
                           (world_with JUndefined)))))
           (first_row (world_with JUndefined)) (js "hello")).
  - discriminate.
  - vm_compute. repeat constructor. intros [].
  - vm_compute. left. reflexivity.
  - vm_compute. reflexivity.
  - reflexivity.
  - apply surjective_pairing.
  - vm_compute. reflexivity.
  - apply surjective_pairing.
  - vm_compute. reflexivity.
Defined.

(** X7. An update that names a slug no row has is answered 404 after the
    one lookup; no UPDATE is run and the table is what it was. *)
Theorem put_articles_not_found (clock : Clock.t) (f : faults) (body : Body.t)
    (w : world) (s : jsstring) :
  Body.slug body = JStr s -> s <> [] ->
  (forall a, In a (DB w) -> Row.slug a <> Some s) ->
  f SelectExisting = None ->
  put_articles clock f (Some body) w
  = (mkResponse 404 (Message false (js "Article not found")),
     mkWorld (DB w) (sequence w) (SelectExisting :: queries w)).
Proof.
  intros Hb Hne Hno F.
  destruct s as [|c s]; [contradiction|].
  unfold put_articles. rewrite Hb. cbn [truthy negb].
  unfold bind, select_existing, prepare. rewrite F.
  cbn [DB sequence queries sql_of].
  destruct (find _ (DB w)) as [a|] eqn:E; [|reflexivity].
  apply find_some in E as [Ha Hs]. apply (has_slug_spec (c :: s) a) in Hs.
  now apply Hno in Ha.
Qed.

Lemma put_articles_not_found_witness :
  put_articles later_clock no_fault
    (Some (body_of (JStr (js "other")) (JStr (js "Hi")) JUndefined JUndefined))
    (world_with JUndefined)
  = (mkResponse 404 (Message false (js "Article not found")),
     mkWorld (DB (world_with JUndefined)) (sequence (world_with JUndefined))
             (SelectExisting :: queries (world_with JUndefined))).
Proof.
  apply (put_articles_not_found later_clock no_fault _ (world_with JUndefined)
           (js "other")).
  - reflexivity.
  - discriminate.
  - intros a [<-|[]]. vm_compute. discriminate.
  - reflexivity.
Defined.

(** X8. An update that sends [null] as the title of a stored article is
    refused by the engine ([title] is NOT NULL): the answer is 500 with the
    engine's message and the table is what it was. *)
Theorem put_articles_null_title (clock : Clock.t) (f : faults) (body : Body.t)
    (w : world) (a : Row.t) (s : jsstring) :
  Body.slug body = JStr s -> s <> [] ->
  In a (DB w) -> Row.slug a = Some s ->
  Body.title body = JNull ->
  f SelectExisting = None -> f UpdateArticle = None ->
  exists message,
    put_articles clock f (Some body) w
    = (mkResponse 500
         (Message false (js "Failed to update article: " ++ message)),
       mkWorld (DB w) (sequence w)
               (UpdateArticle :: SelectExisting :: queries w)).
Proof.
  intros Hb Hne Ha Hs Ht F1 F2.
  exists (d1_error "NOT NULL constraint failed: articles.title"
                   "SQLITE_CONSTRAINT_NOTNULL").
  destruct s as [|c s]; [contradiction|].
  unfold put_articles. rewrite Hb. cbn [truthy negb].
  unfold bind, select_existing, prepare. rewrite F1.
  cbn [DB sequence queries sql_of].
  change (fun a => sql_eq (Row.slug a) (Some (c :: s))) with (has_slug (c :: s)).
  destruct (find (has_slug (c :: s)) (DB w)) as [a0|] eqn:E.
  2:{ apply (find_none _ _ E) in Ha. apply has_slug_spec in Hs. congruence. }
  rewrite setClauses_length by (cbn [fst]; apply js_of_defined).
  unfold update_article, prepare. rewrite F2.
  cbn [DB sequence queries sql_of].
  change (fun a => sql_eq (Row.slug a) (Some (c :: s))) with (has_slug (c :: s)).
  assert (X : existsb (has_slug (c :: s)) (DB w) = true).
  { apply existsb_exists. exists a. split; [assumption|].
    now apply has_slug_spec. }
  rewrite X. cbn [andb].
  match goal with
  | |- context [existsb ?q (setClauses ?k ?b ?e)] =>
      assert (Y : existsb q (setClauses k b e) = true)
  end.
  { apply existsb_exists. exists (c_title, JNull). split; [|reflexivity].
    unfold setClauses. rewrite Ht.
    apply in_or_app. right. apply in_or_app. right. apply in_or_app. left.
    apply filter_In. split; [now left | reflexivity]. }
  rewrite Y. reflexivity.
Qed.

Lemma put_articles_null_title_witness :
  http_status
    (fst (put_articles later_clock no_fault
            (Some (body_of (JStr (js "hello")) JNull JUndefined JUndefined))
            (world_with JUndefined))) = 500
  /\ DB (snd (put_articles later_clock no_fault
                (Some (body_of (JStr (js "hello")) JNull JUndefined JUndefined))
                (world_with JUndefined)))
     = DB (world_with JUndefined).
Proof.
  destruct (put_articles_null_title later_clock no_fault
              (body_of (JStr (js "hello")) JNull JUndefined JUndefined)
              (world_with JUndefined) (first_row (world_with JUndefined))
              (js "hello")) as (message & E).
  8: rewrite E; split; reflexivity.
  - reflexivity.
  - discriminate.
  - vm_compute. left. reflexivity.
  - vm_compute. reflexivity.
  - reflexivity.
  - reflexivity.
  - reflexivity.
Defined.

(* ================================================================== *)
(** ** More of the read path *)

(** The lookup of a slug whose row is published finds that row. *)
Lemma published_found (f : faults) (w : world) (a : Row.t) (s : jsstring) :
  unique_slugs (DB w) -> In a (DB w) -> Row.slug a = Some s ->
  Row.status a = Some (js "published") ->
  f SelectBySlug = None ->
  get_article f (JStr s) w
  = (mkResponse 200 (Detail true a),
     mkWorld (DB w) (sequence w) (SelectBySlug :: queries w)).
Proof.
  intros U Ha Hs Hp F. unfold get_article, bind, select_by_slug, prepare.
  rewrite F. cbn [DB sequence queries sql_of].
  destruct (filter _ (DB w)) as [|b l] eqn:E.
  - exfalso.
    assert (In a (filter (fun x => sql_eq (Row.slug x) (Some s)
                                   && sql_eq (Row.status x)
                                        (Some (js "published"))) (DB w))) as X.
    { apply filter_In. split; [assumption|].
      rewrite Hs, Hp. cbn [sql_eq]. now rewrite !str_eqb_refl. }
    rewrite E in X. contradiction.
  - assert (In b (b :: l)) as Hb by now left.
    rewrite <- E in Hb. apply filter_In in Hb as [Hb Hq].
    apply andb_true_iff in Hq as [Hq _]. apply (has_slug_spec s b) in Hq.
    assert (b = a) as -> by (apply (unique_slugs_inj (DB w)); congruence).
    reflexivity.
Qed.

(** X20. On a working storage the lookup of a slug answers 200 with the
    whole row, content included, when the row of that slug is published,
    and 404 when the table has no row of that slug. *)
Theorem get_article_found (f : faults) (w : world) (s : jsstring) :
  unique_slugs (DB w) -> f SelectBySlug = None ->
  (forall a, In a (DB w) -> Row.slug a = Some s ->
             Row.status a = Some (js "published") ->
             fst (get_article f (JStr s) w) = mkResponse 200 (Detail true a))
  /\ ((forall a, In a (DB w) -> Row.slug a <> Some s) ->
      fst (get_article f (JStr s) w)
      = mkResponse 404
          (Message false (js "Article not found or not published"))).
Proof.
  intros U F. split.
  - intros a Ha Hs Hp. now rewrite (published_found f w a s U Ha Hs Hp F).
  - intros Hno. unfold get_article, bind, select_by_slug, prepare.
    rewrite F. cbn [DB sequence queries sql_of].
    destruct (filter _ (DB w)) as [|b l] eqn:E; [reflexivity|]. exfalso.
    assert (In b (b :: l)) as Hb by now left.
    rewrite <- E in Hb. apply filter_In in Hb as [Hb Hq].
    apply andb_true_iff in Hq as [Hq _]. apply (has_slug_spec s b) in Hq.
    now apply (Hno b).
Qed.

Lemma get_article_found_witness :
  fst (get_article no_fault (JStr (js "hello"))
         (world_with (JStr (js "published"))))
  = mkResponse 200
      (Detail true (first_row (world_with (JStr (js "published"))))).
Proof.
  apply (proj1 (get_article_found no_fault (world_with (JStr (js "published")))
                  (js "hello")
                  ltac:(vm_compute; repeat constructor; intros [])
                  eq_refl)).
  - vm_compute. left. reflexivity.
  - vm_compute. reflexivity.
  - vm_compute. reflexivity.
Defined.

(** X9. An update whose status is [published] in any letter case makes the
    article public: the row stores the lower-case text and a publish time,
    which is the stored one when the row had one and the reading of the
    clock (not empty) when it had none, and the lookup of the slug on a
    working storage answers 200 with that row. *)
Theorem put_articles_publishes (clock : Clock.t) (f f2 : faults)
    (body : Body.t) (w w' : world) (r : response) (a : Row.t)
    (s requested : jsstring) :
  Clock.published_at clock <> [] ->
  unique_slugs (DB w) -> In a (DB w) -> Row.slug a = Some s ->
  Body.slug body = JStr s ->
  Body.status body = JStr requested ->
  toLowerCase requested = js "published" ->
  put_articles clock f (Some body) w = (r, w') ->
  http_status r = 200 ->
  f2 SelectBySlug = None ->
  exists a',
    fst (get_article f2 (JStr s) w') = mkResponse 200 (Detail true a')
    /\ In a' (DB w')
    /\ Row.id a' = Row.id a
    /\ Row.status a' = Some (js "published")
    /\ present (Row.published_at a') = true
    /\ (present (Row.published_at a) = true ->
        Row.published_at a' = Row.published_at a)
    /\ (present (Row.published_at a) = false ->
        Row.published_at a' = Some (Clock.published_at clock)).
Proof.
  intros Hclock U Ha Hs Hb Hst Hlow H H200 F2.
  destruct (put_articles_row _ _ _ _ _ _ _ _ U Ha Hs Hb H H200)
    as (U' & a' & Ha' & Hs' & Hid & _ & _ & Hstatus & Hpa).
  assert (E : effective_status (Body.status body) (Row.status a)
              = Some (js "published")).
  { rewrite Hst. unfold effective_status. cbn [lowered sql_of].
    destruct requested as [|c q]; [discriminate Hlow|].
    cbn [truthy]. now rewrite Hlow. }
  rewrite E in Hstatus, Hpa. cbn [sql_eq] in Hpa.
  rewrite str_eqb_refl in Hpa. cbn [andb negb] in Hpa.
  exists a'.
  split; [now rewrite (published_found f2 w' a' s U' Ha' Hs' Hstatus F2)|].
  split; [assumption|]. split; [assumption|]. split; [assumption|].
  destruct (present (Row.published_at a)) eqn:P; cbn [negb] in Hpa.
  - split; [congruence|]. split; [intros _; exact Hpa | discriminate].
  - split; [|split; [discriminate | intros _; exact Hpa]].
    rewrite Hpa. unfold present. cbn [js_of truthy].
    destruct (Clock.published_at clock); [contradiction | reflexivity].
Qed.

Lemma put_articles_publishes_witness :
  exists a',
    fst (get_article no_fault (JStr (js "hello"))
           (snd (put_articles later_clock no_fault
                   (Some (body_of (JStr (js "hello")) JUndefined JUndefined
                                  (JStr (js "PUBLISHED"))))
                   (world_with JUndefined))))
    = mkResponse 200 (Detail true a')
    /\ Row.status a' = Some (js "published")
    /\ Row.published_at a' = Some (Clock.published_at later_clock).
Proof.
  destruct (put_articles_publishes later_clock no_fault no_fault
              (body_of (JStr (js "hello")) JUndefined JUndefined
                       (JStr (js "PUBLISHED")))
              (world_with JUndefined)
              (snd (put_articles later_clock no_fault
                      (Some (body_of (JStr (js "hello")) JUndefined JUndefined
                                     (JStr (js "PUBLISHED"))))
                      (world_with JUndefined)))
              (fst (put_articles later_clock no_fault
                      (Some (body_of (JStr (js "hello")) JUndefined JUndefined
                                     (JStr (js "PUBLISHED"))))
                      (world_with JUndefined)))
              (first_row (world_with JUndefined))
              (js "hello") (js "PUBLISHED"))
    as (a' & E & _ & _ & Hst & _ & _ & Hnew).
  - discriminate.
  - vm_compute. repeat constructor. intros [].
  - vm_compute. left. reflexivity.
  - vm_compute. reflexivity.
  - reflexivity.
  - reflexivity.
  - vm_compute. reflexivity.
  - apply surjective_pairing.
  - vm_compute. reflexivity.
  - reflexivity.
  - exists a'. split; [assumption|]. split; [assumption|].
    apply Hnew. vm_compute. reflexivity.
Defined.

(* ================================================================== *)
(** ** More of the create handler *)

(** A body the handlers refuse gets past the middleware with the right key
    and is answered 400 before any statement. *)
Lemma adminArticles_refused (env : Env.t) (clock : Clock.t) (f : faults)
    (method : admin_method) (key : jsval) (body : option Body.t) (w : world) :
  truthy key = true -> key = Env.WEBAPP_APIKEY env ->
  refused method body ->
  exists message,
    adminArticles env clock f method key body w
    = (mkResponse 400 (Message false message), w).
Proof.
  intros T K R. unfold adminArticles.
  rewrite (authMiddleware_pass env key _ T K).
  destruct body as [b|].
  - destruct R as [Hs|(-> & Htc)].
    + destruct method; unfold post_articles, put_articles, delete_articles;
        rewrite Hs; cbn [negb orb]; eexists; reflexivity.
    + unfold post_articles.
      destruct (truthy (Body.slug b)), Htc as [H|H]; rewrite H;
        cbn [negb orb]; rewrite ?orb_true_r; eexists; reflexivity.
  - destruct method; eexists; reflexivity.
Qed.

(** X1. An authorised request whose body is not JSON, or is a JSON value
    without a (non-empty) slug, or for a create without a title or a
    content, is answered 400 with a failure envelope.  A body that is the
    JSON text [null] is not: destructuring it throws outside the [try] of
    the handler, and the answer is the 500 of the framework.  In each case
    no statement is run and the database is what it was. *)
Theorem admin_refused (env : Env.t) (clock : Clock.t) (f : faults)
    (method : admin_method) (key : jsval) (body : parsed Body.t) (w : world) :
  truthy key = true -> key = Env.WEBAPP_APIKEY env ->
  (refused_request method body ->
   exists message,
     admin_request env clock f method key body w
     = (mkResponse 400 (Message false message), w))
  /\ (body = JsonNull ->
      admin_request env clock f method key body w
      = (mkResponse 500 (Text (js "Internal Server Error")), w)).
Proof.
  intros T K. split.
  - intros R. destruct body as [| |b]; cbn [refused_request] in R.
    + now apply adminArticles_refused.
    + contradiction.
    + now apply adminArticles_refused.
  - intros ->. unfold admin_request.
    now rewrite (authMiddleware_pass env key _ T K).
Qed.

Lemma admin_refused_witness :
  (exists message,
     admin_request (Env.mk (JStr (js "s3cret"))) sample_clock no_fault POST
       (JStr (js "s3cret"))
       (JsonValue (body_of (JStr (js "hello")) (JStr (js "Hello")) (JStr [])
                           JUndefined))
       empty_world
     = (mkResponse 400 (Message false message), empty_world))
  /\ admin_request (Env.mk (JStr (js "s3cret"))) sample_clock no_fault DELETE
       (JStr (js "s3cret")) JsonNull empty_world
     = (mkResponse 500 (Text (js "Internal Server Error")), empty_world).
Proof.
  split.
  - apply (proj1 (admin_refused (Env.mk (JStr (js "s3cret"))) sample_clock
                    no_fault POST (JStr (js "s3cret")) _ empty_world
                    eq_refl eq_refl)).
    right. split; [reflexivity|]. right. reflexivity.
  - apply (proj2 (admin_refused (Env.mk (JStr (js "s3cret"))) sample_clock
                    no_fault DELETE (JStr (js "s3cret")) _ empty_world
                    eq_refl eq_refl)).
    reflexivity.
Defined.

Lemma published_up_to_case_status (status : jsval) :
  published_up_to_case (sql_of (js_or status (JStr (js "draft"))))
  = truthy status && strict_eq (lowered status) (JStr (js "published")).
Proof.
  destruct status as [| |[|c s]]; try reflexivity.
Qed.

(** X2. A successful create appends one row with the next id.  The row
    holds the slug, the title and the content of the body, the excerpt
    derived from that content, NULL for each optional member that is
    missing or empty, and a publish time, the clock reading of the call,
    exactly when the stored status is [published] up to letter case.  The
    strings bound are storable: well-formed, the excerpt included, whose
    cut does not split a surrogate pair. *)
Theorem post_articles_row (clock : Clock.t) (f : faults) (body : Body.t)
    (w w' : world) (r : response) :
  storable_body body ->
  post_articles clock f (Some body) w = (r, w') ->
  http_status r = 200 ->
  exists a,
    DB w' = DB w ++ [a]
    /\ Row.id a = sequence w + 1
    /\ Row.slug a = sql_of (Body.slug body)
    /\ Row.title a = sql_of (Body.title body)
    /\ Row.content a = sql_of (Body.content body)
    /\ Row.excerpt a = sql_of (createExcerpt (Body.content body))
    /\ excerpt_derived a
    /\ Row.featured_image a = or_null (Body.featured_image body)
    /\ Row.category a = or_null (Body.category body)
    /\ Row.meta_title a = or_null (Body.meta_title body)
    /\ Row.meta_description a = or_null (Body.meta_description body)
    /\ Row.status a
       = (if truthy (Body.status body) then sql_of (Body.status body)
          else Some (js "draft"))
    /\ Row.published_at a
       = (if published_up_to_case (Row.status a)
          then Some (Clock.published_at clock) else None).
Proof.
  intros _ H H200.
  destruct (post_articles_200 _ _ _ _ _ _ H H200) as (b & Eb & C & _ & E).
  injection Eb as <-.
  destruct (creatable_strings body C) as (s & t & c & _ & Hs & Ht & Hc).
  exists (created_row clock body (sequence w + 1)).
  split; [exact E|].
  unfold created_row, excerpt_derived, or_null, js_or.
  cbn [Row.id Row.slug Row.title Row.content Row.excerpt Row.featured_image
       Row.category Row.meta_title Row.meta_description Row.published_at
       Row.status].
  repeat (split; [reflexivity|]).
  split; [now rewrite Hc|].
  split; [now destruct (truthy (Body.featured_image body))|].
  split; [now destruct (truthy (Body.category body))|].
  split; [now destruct (truthy (Body.meta_title body))|].
  split; [now destruct (truthy (Body.meta_description body))|].
  split; [now destruct (truthy (Body.status body))|].
  pose proof (published_up_to_case_status (Body.status body)) as P.
  unfold js_or in P. rewrite P.
  now destruct (truthy (Body.status body) && strict_eq _ _).
Qed.

Lemma post_articles_row_witness :
  exists a,
    DB (world_with (JStr (js "PUBLISHED"))) = [a]
    /\ Row.excerpt a = Some (js "Hello World")
    /\ Row.published_at a = Some (Clock.published_at sample_clock).
Proof.
  destruct (post_articles_row sample_clock no_fault
              (body_of (JStr (js "hello")) (JStr (js "Hello"))
                       (JStr (js "# Hello World")) (JStr (js "PUBLISHED")))
              empty_world (world_with (JStr (js "PUBLISHED")))
              (fst (post_articles sample_clock no_fault
                      (Some (body_of (JStr (js "hello")) (JStr (js "Hello"))
                                     (JStr (js "# Hello World"))
                                     (JStr (js "PUBLISHED"))))
                      empty_world)))
    as (a & E & _ & _ & _ & _ & He & _ & _ & _ & _ & _ & _ & Hp).
  - vm_compute. repeat split.
  - apply surjective_pairing.
  - vm_compute. reflexivity.
  - exists a. split; [exact E|]. split; [exact He|].
    rewrite Hp.
    assert (X : a = first_row (world_with (JStr (js "PUBLISHED"))))
      by (unfold first_row; now rewrite E).
    rewrite X. reflexivity.
Defined.

(** X3. Create and lookup: after a successful create with the status
    [published] on a table of unique slugs, the lookup of the slug on a
    working storage answers 200 with the created row, which holds the title
    and the content of the body and the excerpt derived from the content.
    The strings bound by the create are storable, the excerpt included. *)
Theorem post_articles_then_get (clock : Clock.t) (f f2 : faults) (body : Body.t)
    (w w' : world) (r : response) :
  storable_body body ->
  unique_slugs (DB w) ->
  Body.status body = JStr (js "published") ->
  post_articles clock f (Some body) w = (r, w') ->
  http_status r = 200 ->
  f2 SelectBySlug = None ->
  exists a,
    fst (get_article f2 (Body.slug body) w') = mkResponse 200 (Detail true a)
    /\ Row.title a = sql_of (Body.title body)
    /\ Row.content a = sql_of (Body.content body)
    /\ Row.excerpt a = sql_of (createExcerpt (Body.content body))
    /\ Row.published_at a = Some (Clock.published_at clock).
Proof.
  intros _ U Hst H H200 F2.
  pose proof (post_articles_keeps_unique clock f (Some body) w U) as U'.
  rewrite H in U'. cbn [snd] in U'.
  destruct (post_articles_200 _ _ _ _ _ _ H H200) as (b & Eb & C & _ & E).
  injection Eb as <-.
  destruct (creatable_strings body C) as (s & t & c & _ & Hs & Ht & Hc).
  exists (created_row clock body (sequence w + 1)).
  split.
  - rewrite Hs.
    rewrite (published_found f2 w' (created_row clock body (sequence w + 1)) s);
      try assumption; try reflexivity.
    + rewrite E. apply in_or_app. right. now left.
    + unfold created_row. cbn [Row.slug]. now rewrite Hs.
    + unfold created_row. cbn [Row.status]. now rewrite Hst.
  - unfold created_row.
    cbn [Row.title Row.content Row.excerpt Row.published_at].
    rewrite Hst. repeat split.
Qed.

Lemma post_articles_then_get_witness :
  exists a,
    fst (get_article no_fault (JStr (js "hello"))
           (world_with (JStr (js "published"))))
    = mkResponse 200 (Detail true a)
    /\ Row.content a = Some (js "# Hello World").
Proof.
  destruct (post_articles_then_get sample_clock no_fault no_fault
              (body_of (JStr (js "hello")) (JStr (js "Hello"))
                       (JStr (js "# Hello World")) (JStr (js "published")))
              empty_world (world_with (JStr (js "published")))
              (fst (post_articles sample_clock no_fault
                      (Some (body_of (JStr (js "hello")) (JStr (js "Hello"))
                                     (JStr (js "# Hello World"))
                                     (JStr (js "published"))))
                      empty_world)))
    as (a & E & _ & Hc & _).
  - vm_compute. repeat split.
  - constructor.
  - reflexivity.
  - apply surjective_pairing.
  - vm_compute. reflexivity.
  - reflexivity.
  - exists a. split; assumption.
Defined.

(* ================================================================== *)
(** ** The delete handler *)

Lemma filter_none {A} (p : A -> bool) (l : list A) :
  (forall x, In x l -> p x = false) ->
  filter p l = [] /\ filter (fun x => negb (p x)) l = l.
Proof.
  induction l as [|a l IH]; intros H; [split; reflexivity|].
  cbn [filter]. rewrite (H a (or_introl eq_refl)). cbn [negb].
  destruct IH as [I1 I2]; [intros x Hx; apply H; now right|].
  split; [assumption | now rewrite I2].
Qed.

Lemma unique_hit_once (rows : list Row.t) (a : Row.t) (s : jsstring) :
  unique_slugs rows -> In a rows -> Row.slug a = Some s ->
  length (filter (has_slug s) rows) = 1%nat
  /\ (length (filter (fun x => negb (has_slug s x)) rows) + 1
      = length rows)%nat.
Proof.
  unfold unique_slugs. induction rows as [|b rows IH]; [intros _ []|].
  cbn [map]. intros N Ha Hs. inversion N as [|? ? Hb Hr]; subst.
  cbn [filter].
  destruct (has_slug s b) eqn:E.
  - apply has_slug_spec in E.
    destruct (filter_none (has_slug s) rows) as [F1 F2].
    { intros x Hx. destruct (has_slug s x) eqn:Ex; [|reflexivity].
      apply has_slug_spec in Ex. exfalso. apply Hb.
      rewrite E, <- Ex. now apply in_map. }
    cbn [negb length]. rewrite F1, F2. cbn [length]. split; lia.
  - destruct Ha as [->|Ha].
    + apply has_slug_spec in Hs. congruence.
    + destruct (IH Hr Ha Hs) as [I1 I2]. cbn [negb length]. split; lia.
Qed.

(** What a delete does with a body that names a slug, on a storage that
    runs the statement. *)
Lemma delete_articles_run (f : faults) (body : Body.t) (w : world)
    (s : jsstring) :
  Body.slug body = JStr s -> s <> [] -> f DeleteArticle = None ->
  delete_articles f (Some body) w
  = (mkResponse 200
       (MessageSlug true (js "Article deleted successfully") (JStr s)),
     mkWorld (filter (fun x => negb (has_slug s x)) (DB w))
             (sequence w) (DeleteArticle :: queries w)).
Proof.
  intros Hb Hne F. destruct s as [|c s]; [contradiction|].
  unfold delete_articles. rewrite Hb. cbn [truthy negb].
  unfold bind, delete_article, prepare. rewrite F.
  cbn [DB sequence queries sql_of]. cbv zeta.
  change (fun a => sql_eq (Row.slug a) (Some (c :: s))) with (has_slug (c :: s)).
  reflexivity.
Qed.

(** X10. Deleting a stored slug on a working storage is answered 200 and
    removes exactly the row of that slug: the rows left are the rows of the
    other slugs, one fewer than before, and the lookup of the slug is then
    answered 404.  A second delete of the slug is answered 200 with the same
    message again and leaves the table as it is. *)
Theorem delete_articles_removes (f : faults) (body : Body.t) (w : world)
    (a : Row.t) (s : jsstring) :
  unique_slugs (DB w) -> In a (DB w) -> Row.slug a = Some s ->
  Body.slug body = JStr s -> s <> [] ->
  f DeleteArticle = None -> f SelectBySlug = None ->
  exists w',
    delete_articles f (Some body) w
    = (mkResponse 200
         (MessageSlug true (js "Article deleted successfully") (JStr s)), w')
    /\ (forall b, In b (DB w') <-> In b (DB w) /\ Row.slug b <> Some s)
    /\ (length (DB w') + 1 = length (DB w))%nat
    /\ fst (get_article f (JStr s) w')
       = mkResponse 404
           (Message false (js "Article not found or not published"))
    /\ delete_articles f (Some body) w'
       = (mkResponse 200
            (MessageSlug true (js "Article deleted successfully") (JStr s)),
          mkWorld (DB w') (sequence w') (DeleteArticle :: queries w')).
Proof.
  intros U Ha Hs Hb Hne F F2.
  destruct (unique_hit_once _ _ _ U Ha Hs) as [_ L2].
  eexists. split.
  { rewrite (delete_articles_run f body w s Hb Hne F). reflexivity. }
  cbn [DB sequence queries].
  assert (Hleft : forall b, In b (filter (fun x => negb (has_slug s x)) (DB w))
                            <-> In b (DB w) /\ Row.slug b <> Some s).
  { intros b. rewrite filter_In. split; intros [Hin Hn]; split; try assumption.
    - intros E. apply has_slug_spec in E. rewrite E in Hn. discriminate.
    - destruct (has_slug s b) eqn:E; [|reflexivity].
      apply has_slug_spec in E. contradiction. }
  split; [exact Hleft|]. split; [exact L2|]. split.
  - unfold get_article, bind, select_by_slug, prepare. rewrite F2.
    cbn [DB sequence queries sql_of].
    destruct (filter _ (filter _ (DB w))) as [|b l] eqn:E; [reflexivity|].
    exfalso. assert (In b (b :: l)) as Hin by now left.
    rewrite <- E in Hin. apply filter_In in Hin as [Hin Hq].
    apply andb_true_iff in Hq as [Hq _]. apply (has_slug_spec s b) in Hq.
    apply Hleft in Hin. tauto.
  - rewrite (delete_articles_run f body _ s Hb Hne F). cbn [DB sequence queries].
    destruct (filter_none (has_slug s)
                (filter (fun x => negb (has_slug s x)) (DB w))) as [_ N2].
    { intros x Hx. apply Hleft in Hx as [_ Hx].
      destruct (has_slug s x) eqn:E; [|reflexivity].
      apply has_slug_spec in E. contradiction. }
    rewrite N2. reflexivity.
Qed.

Lemma delete_articles_removes_witness :
  exists w',
    delete_articles no_fault
      (Some (body_of (JStr (js "hello")) JUndefined JUndefined JUndefined))
      (world_with JUndefined)
    = (mkResponse 200
         (MessageSlug true (js "Article deleted successfully")
            (JStr (js "hello"))), w')
    /\ (length (DB w') + 1 = length (DB (world_with JUndefined)))%nat
    /\ http_status
         (fst (delete_articles no_fault
                 (Some (body_of (JStr (js "hello")) JUndefined JUndefined
                                JUndefined)) w')) = 200.
Proof.
  destruct (delete_articles_removes no_fault
              (body_of (JStr (js "hello")) JUndefined JUndefined JUndefined)
              (world_with JUndefined) (first_row (world_with JUndefined))
              (js "hello"))
    as (w' & E & _ & L & _ & D).
  - vm_compute. repeat constructor. intros [].
  - vm_compute. left. reflexivity.
  - vm_compute. reflexivity.
  - reflexivity.
  - discriminate.
  - reflexivity.
  - reflexivity.
  - exists w'. split; [assumption|]. split; [assumption|].
    rewrite D. reflexivity.
Defined.

(** X11. A delete never answers 404.  The handler tests [result.changes],
    which the result of [run()] does not have (the count is
    [meta.changes]), so deleting a slug no row has is answered 200 with
    the message of a successful delete; every row stays in place. *)
Theorem delete_articles_absent (f : faults) (body : Body.t) (w : world)
    (s : jsstring) :
  Body.slug body = JStr s -> s <> [] ->
  (forall a, In a (DB w) -> Row.slug a <> Some s) ->
  f DeleteArticle = None ->
  delete_articles f (Some body) w
  = (mkResponse 200
       (MessageSlug true (js "Article deleted successfully") (JStr s)),
     mkWorld (DB w) (sequence w) (DeleteArticle :: queries w))
  /\ forall (f' : faults) (body' : option Body.t) (w' : world),
       http_status (fst (delete_articles f' body' w')) <> 404.
Proof.
  intros Hb Hne Hno F. split.
  - rewrite (delete_articles_run f body w s Hb Hne F).
    destruct (filter_none (has_slug s) (DB w)) as [_ N2].
    { intros x Hx. destruct (has_slug s x) eqn:E; [|reflexivity].
      apply has_slug_spec in E. now apply Hno in Hx. }
    rewrite N2. reflexivity.
  - intros f' body' w'. unfold delete_articles.
    destruct body' as [b|]; [|discriminate].
    destruct (negb (truthy (Body.slug b))); [discriminate|].
    unfold bind, delete_article, prepare.
    destruct (f' DeleteArticle); discriminate.
Qed.

Lemma delete_articles_absent_witness :
  delete_articles no_fault
    (Some (body_of (JStr (js "other")) JUndefined JUndefined JUndefined))
    (world_with JUndefined)
  = (mkResponse 200
       (MessageSlug true (js "Article deleted successfully")
          (JStr (js "other"))),
     mkWorld (DB (world_with JUndefined)) (sequence (world_with JUndefined))
             (DeleteArticle :: queries (world_with JUndefined))).
Proof.
  apply (delete_articles_absent no_fault _ (world_with JUndefined)
           (js "other")).
  - reflexivity.
  - discriminate.
  - intros a [<-|[]]. vm_compute. discriminate.
  - reflexivity.
Defined.

(** X12. Create, then delete: after a successful create of a slug, deleting
    that slug on a working storage is answered 200 and gives back the rows
    the table had before the create; the id counter stays advanced, so the
    id is not given out again. *)
Theorem post_articles_then_delete (clock : Clock.t) (f f2 : faults)
    (body : Body.t) (w w1 : world) (r : response) :
  post_articles clock f (Some body) w = (r, w1) ->
  http_status r = 200 ->
  f2 DeleteArticle = None ->
  exists w2,
    delete_articles f2 (Some body) w1
    = (mkResponse 200
         (MessageSlug true (js "Article deleted successfully") (Body.slug body)),
       w2)
    /\ DB w2 = DB w
    /\ sequence w2 = sequence w + 1.
Proof.
  intros H H200 F2.
  destruct (post_articles_200 _ _ _ _ _ _ H H200) as (b & Eb & C & N & E).
  injection Eb as <-.
  destruct (creatable_strings body C) as (s & t & c & Hne & Hs & Ht & Hc).
  rewrite Hs in N. cbn [sql_of] in N.
  assert (Hseq : sequence w1 = sequence w + 1).
  { rewrite (post_articles_run clock f body w C) in H.
    - rewrite Hs in H. cbn [sql_of] in H. rewrite N in H.
      injection H as _ <-. reflexivity.
    - unfold post_articles in H.
      destruct C as (Ts & Tt & Tc). rewrite Ts, Tt, Tc in H.
      cbn [negb orb] in H. unfold bind, insert_article, prepare in H.
      destruct (f InsertArticle) as [msg|]; [|reflexivity]. exfalso.
      destruct (truthy (JStr msg) && includes msg _); answered H;
        other_status. }
  destruct (filter_none (has_slug s) (DB w)) as [N1 N2].
  { intros x Hx. destruct (has_slug s x) eqn:Ex; [|reflexivity].
    exfalso. apply not_true_iff_false in N. apply N.
    apply existsb_exists. now exists x. }
  assert (Hhit : has_slug s (created_row clock body (sequence w + 1)) = true).
  { apply has_slug_spec. unfold created_row. cbn [Row.slug]. now rewrite Hs. }
  eexists. split; [|split].
  - rewrite (delete_articles_run f2 body w1 s Hs Hne F2). rewrite Hs.
    reflexivity.
  - cbn [DB]. rewrite E, filter_app. cbn [filter]. rewrite Hhit.
    cbn [negb]. now rewrite N2, app_nil_r.
  - exact Hseq.
Qed.

Lemma post_articles_then_delete_witness :
  exists w2,
    delete_articles no_fault
      (Some (body_of (JStr (js "hello")) (JStr (js "Hello"))
                     (JStr (js "# Hello World")) JUndefined))
      (world_with JUndefined)
    = (mkResponse 200
         (MessageSlug true (js "Article deleted successfully")
            (JStr (js "hello"))), w2)
    /\ DB w2 = [].
Proof.
  destruct (post_articles_then_delete sample_clock no_fault no_fault
              (body_of (JStr (js "hello")) (JStr (js "Hello"))
                       (JStr (js "# Hello World")) JUndefined)
              empty_world (world_with JUndefined)
              (fst (post_articles sample_clock no_fault
                      (Some (body_of (JStr (js "hello")) (JStr (js "Hello"))
                                     (JStr (js "# Hello World")) JUndefined))
                      empty_world)))
    as (w2 & E & D & _).
  - apply surjective_pairing.
  - vm_compute. reflexivity.
  - reflexivity.
  - exists w2. split; assumption.
Defined.

(* ================================================================== *)
(** ** Status codes, envelopes and failures *)

Ltac answer_leaf :=
  unfold answers, json, uncaught, ret;
  cbn [fst snd http_status sent flag DB sequence];
  first
    [ split; [cbn [In]; tauto | split; [reflexivity | reflexivity]]
    | split; [cbn [In]; tauto | split; intros X; discriminate X] ].

Lemma post_articles_answers (clock : Clock.t) (f : faults)
    (body : option Body.t) (w : world) :
  answers [200; 400; 409; 500] (fst (post_articles clock f body w)).
Proof.
  unfold post_articles.
  destruct body as [b|]; [|answer_leaf].
  destruct (negb (truthy (Body.slug b)) || negb (truthy (Body.title b))
            || negb (truthy (Body.content b))); [answer_leaf|].
  unfold bind, insert_article, prepare.
  cbn [DB sequence queries Row.slug Row.title].
  destruct (f InsertArticle) as [msg|].
  - destruct (truthy (JStr msg) && includes msg _); answer_leaf.
  - destruct (sql_of (Body.slug b));
      [|destruct (truthy _ && includes _ _); answer_leaf].
    destruct (sql_of (Body.title b));
      [|destruct (truthy _ && includes _ _); answer_leaf].
    destruct (existsb _ (DB w)).
    + destruct (truthy _ && includes _ _); answer_leaf.
    + answer_leaf.
Qed.

Lemma put_articles_answers (clock : Clock.t) (f : faults)
    (body : option Body.t) (w : world) :
  answers [200; 400; 404; 500] (fst (put_articles clock f body w)).
Proof.
  unfold put_articles.
  destruct body as [b|]; [|answer_leaf].
  destruct (negb (truthy (Body.slug b))); [answer_leaf|].
  unfold bind, select_existing, prepare. cbn [DB sequence queries].
  destruct (f SelectExisting); [answer_leaf|].
  destruct (find _ (DB w)) as [a|]; [|answer_leaf].
  destruct (length _ <=? 1)%nat; [answer_leaf|].
  unfold update_article, prepare. cbn [DB sequence queries].
  destruct (f UpdateArticle); [answer_leaf|].
  destruct (existsb _ (DB w) && existsb _ _); [answer_leaf|].
  cbn [changes is_zero]; answer_leaf.
Qed.

Lemma delete_articles_answers (f : faults) (body : option Body.t) (w : world) :
  answers [200; 400; 404; 500] (fst (delete_articles f body w)).
Proof.
  unfold delete_articles.
  destruct body as [b|]; [|answer_leaf].
  destruct (negb (truthy (Body.slug b))); [answer_leaf|].
  unfold bind, delete_article, prepare. cbn [DB sequence queries].
  destruct (f DeleteArticle); [answer_leaf|].
  cbn [changes is_zero]; answer_leaf.
Qed.

Lemma answers_more (codes more : list Z) (r : response) :
  incl codes more -> answers codes r -> answers more r.
Proof. intros I [H1 H2]. split; [now apply I | exact H2]. Qed.

(** X17. Every answer of the admin group has one of the statuses 200, 400,
    401, 404, 409 and 500 (409 only for a create, 404 only for an update or
    a delete), and its success flag is true exactly when the status is
    200. *)
Theorem adminArticles_answers (env : Env.t) (clock : Clock.t) (f : faults)
    (method : admin_method) (key : jsval) (body : option Body.t) (w : world) :
  answers (match method with
           | POST => [200; 400; 401; 409; 500]
           | PUT | DELETE => [200; 400; 401; 404; 500]
           end)
          (fst (adminArticles env clock f method key body w)).
Proof.
  unfold adminArticles, authMiddleware.
  destruct (negb (truthy key) || negb (strict_eq key (Env.WEBAPP_APIKEY env))).
  - destruct method; answer_leaf.
  - destruct method.
    + apply (answers_more [200; 400; 409; 500]);
        [|apply post_articles_answers].
      intros x Hx. cbn [In] in *. tauto.
    + apply (answers_more [200; 400; 404; 500]);
        [|apply put_articles_answers].
      intros x Hx. cbn [In] in *. tauto.
    + apply (answers_more [200; 400; 404; 500]);
        [|apply delete_articles_answers].
      intros x Hx. cbn [In] in *. tauto.
Qed.

(** X18. When the secret is not configured, or is empty, the admin group
    is closed: every request is answered 401, whatever key it sends, and
    nothing is run. *)
Theorem adminArticles_closed (env : Env.t) (clock : Clock.t) (f : faults)
    (method : admin_method) (key : jsval) (body : option Body.t) (w : world) :
  truthy (Env.WEBAPP_APIKEY env) = false ->
  adminArticles env clock f method key body w
  = (mkResponse 401
       (Message false
          (js "Unauthorized: Invalid or missing X-API-Key in header")), w).
Proof.
  intros H. unfold adminArticles, authMiddleware.
  destruct (truthy key) eqn:T; [|reflexivity].
  destruct (strict_eq key (Env.WEBAPP_APIKEY env)) eqn:E; [|reflexivity].
  apply strict_eq_spec in E. congruence.
Qed.

Lemma adminArticles_closed_witness :
  adminArticles (Env.mk JUndefined) sample_clock no_fault POST (JStr (js "any"))
    (Some (body_of (JStr (js "hello")) (JStr (js "Hello"))
                   (JStr (js "# Hello World")) JUndefined))
    empty_world
  = (mkResponse 401
       (Message false
          (js "Unauthorized: Invalid or missing X-API-Key in header")),
     empty_world).
Proof. apply adminArticles_closed. reflexivity. Defined.

(** X19. The admin group answers 401 exactly when the key is missing, empty
    or different from the secret: no handler answers 401 itself. *)
Theorem adminArticles_401 (env : Env.t) (clock : Clock.t) (f : faults)
    (method : admin_method) (key : jsval) (body : option Body.t) (w : world) :
  http_status (fst (adminArticles env clock f method key body w)) = 401
  <-> truthy key = false \/ key <> Env.WEBAPP_APIKEY env.
Proof.
  unfold adminArticles, authMiddleware.
  destruct (truthy key) eqn:T; cbn [negb orb].
  - destruct (strict_eq key (Env.WEBAPP_APIKEY env)) eqn:E; cbn [negb].
    + apply strict_eq_spec in E. split.
      * intros H. exfalso.
        destruct method;
          [ destruct (post_articles_answers clock f body w) as [I _]
          | destruct (put_articles_answers clock f body w) as [I _]
          | destruct (delete_articles_answers f body w) as [I _] ];
          rewrite H in I; cbn [In] in I;
          repeat (destruct I as [I|I]; [discriminate I|]); exact I.
      * intros [H|H]; [discriminate H | contradiction].
    + split; [|reflexivity]. intros _. right. intros K.
      apply strict_eq_spec in K. congruence.
  - split; [|reflexivity]. intros _. now left.
Qed.

Lemma get_articles_answers (f : faults) (page_param size_param category : jsval)
    (w : world) :
  answers [200; 500] (fst (get_articles f page_param size_param category w)).
Proof.
  unfold get_articles, bind, select_page, select_count, prepare.
  cbn [DB sequence queries].
  destruct (f SelectPage); [answer_leaf|].
  destruct (f SelectCount); answer_leaf.
Qed.

Lemma get_article_answers (f : faults) (slug : jsval) (w : world) :
  answers [200; 404; 500] (fst (get_article f slug w)).
Proof.
  unfold get_article, bind, select_by_slug, prepare. cbn [DB sequence queries].
  destruct (f SelectBySlug); [answer_leaf|].
  destruct (firstn 1 _); answer_leaf.
Qed.

(** X16. The public endpoints only read: whatever the query, the slug and
    the storage failures, the rows and the id counter are what they were.
    The listing answers 200 or 500, the lookup 200, 404 or 500, and the
    success flag is true exactly when the status is 200. *)
Theorem public_read_only (f : faults) (page_param size_param category slug : jsval)
    (w : world) :
  (DB (snd (get_articles f page_param size_param category w)) = DB w
   /\ sequence (snd (get_articles f page_param size_param category w))
      = sequence w
   /\ answers [200; 500]
        (fst (get_articles f page_param size_param category w)))
  /\ (DB (snd (get_article f slug w)) = DB w
      /\ sequence (snd (get_article f slug w)) = sequence w
      /\ answers [200; 404; 500] (fst (get_article f slug w))).
Proof.
  split; (split; [|split]);
    try apply get_articles_answers; try apply get_article_answers.
  - unfold get_articles, bind, select_page, select_count, prepare.
    cbn [DB sequence queries].
    destruct (f SelectPage); [reflexivity|].
    destruct (f SelectCount); reflexivity.
  - unfold get_articles, bind, select_page, select_count, prepare.
    cbn [DB sequence queries].
    destruct (f SelectPage); [reflexivity|].
    destruct (f SelectCount); reflexivity.
  - unfold get_article, bind, select_by_slug, prepare.
    cbn [DB sequence queries].
    destruct (f SelectBySlug); [reflexivity|].
    destruct (firstn 1 _); reflexivity.
  - unfold get_article, bind, select_by_slug, prepare.
    cbn [DB sequence queries].
    destruct (f SelectBySlug); [reflexivity|].
    destruct (firstn 1 _); reflexivity.
Qed.

Lemma post_articles_failure (clock : Clock.t) (f : faults)
    (body : option Body.t) (w : world) :
  http_status (fst (post_articles clock f body w)) <> 200 ->
  DB (snd (post_articles clock f body w)) = DB w
  /\ sequence (snd (post_articles clock f body w)) = sequence w.
Proof.
  unfold post_articles.
  destruct body as [b|]; [|split; reflexivity].
  destruct (negb (truthy (Body.slug b)) || negb (truthy (Body.title b))
            || negb (truthy (Body.content b))); [split; reflexivity|].
  unfold bind, insert_article, prepare.
  cbn [DB sequence queries Row.slug Row.title].
  destruct (f InsertArticle) as [msg|].
  - destruct (truthy (JStr msg) && includes msg _); split; reflexivity.
  - destruct (sql_of (Body.slug b));
      [|destruct (truthy _ && includes _ _); split; reflexivity].
    destruct (sql_of (Body.title b));
      [|destruct (truthy _ && includes _ _); split; reflexivity].
    destruct (existsb _ (DB w)).
    + destruct (truthy _ && includes _ _); split; reflexivity.
    + intros H. exfalso. apply H. reflexivity.
Qed.

Lemma put_articles_failure (clock : Clock.t) (f : faults)
    (body : option Body.t) (w : world) :
  http_status (fst (put_articles clock f body w)) <> 200 ->
  DB (snd (put_articles clock f body w)) = DB w
  /\ sequence (snd (put_articles clock f body w)) = sequence w.
Proof.
  unfold put_articles.
  destruct body as [b|]; [|split; reflexivity].
  destruct (negb (truthy (Body.slug b))); [split; reflexivity|].
  unfold bind, select_existing, prepare. cbn [DB sequence queries].
  destruct (f SelectExisting); [split; reflexivity|].
  destruct (find _ (DB w)) as [a|] eqn:F; [|split; reflexivity].
  destruct (length _ <=? 1)%nat; [split; reflexivity|].
  unfold update_article, prepare. cbn [DB sequence queries].
  destruct (f UpdateArticle); [split; reflexivity|].
  destruct (existsb _ (DB w) && existsb _ _); [split; reflexivity|].
  intros H. exfalso. apply H. reflexivity.
Qed.

Lemma delete_articles_failure (f : faults) (body : option Body.t) (w : world) :
  http_status (fst (delete_articles f body w)) <> 200 ->
  DB (snd (delete_articles f body w)) = DB w
  /\ sequence (snd (delete_articles f body w)) = sequence w.
Proof.
  unfold delete_articles.
  destruct body as [b|]; [|split; reflexivity].
  destruct (negb (truthy (Body.slug b))); [split; reflexivity|].
  unfold bind, delete_article, prepare. cbn [DB sequence queries].
  destruct (f DeleteArticle); [split; reflexivity|].
  intros H. exfalso. apply H. reflexivity.
Qed.

(** X15. A request to the admin group that is not answered 200 has no
    effect on the table: the rows and the id counter are what they were. *)
Theorem adminArticles_failure (env : Env.t) (clock : Clock.t) (f : faults)
    (method : admin_method) (key : jsval) (body : option Body.t) (w : world) :
  http_status (fst (adminArticles env clock f method key body w)) <> 200 ->
  DB (snd (adminArticles env clock f method key body w)) = DB w
  /\ sequence (snd (adminArticles env clock f method key body w)) = sequence w.
Proof.
  unfold adminArticles, authMiddleware.
  destruct (negb (truthy key) || negb (strict_eq key (Env.WEBAPP_APIKEY env)));
    [split; reflexivity|].
  destruct method.
  - apply post_articles_failure.
  - apply put_articles_failure.
  - apply delete_articles_failure.
Qed.

Lemma adminArticles_failure_witness :
  DB (snd (adminArticles (Env.mk (JStr (js "s3cret"))) later_clock no_fault POST
             (JStr (js "s3cret"))
             (Some (body_of (JStr (js "hello")) (JStr (js "Again"))
                            (JStr (js "Other text")) JUndefined))
             (world_with JUndefined)))
  = DB (world_with JUndefined).
Proof.
  apply (adminArticles_failure (Env.mk (JStr (js "s3cret"))) later_clock
           no_fault POST (JStr (js "s3cret"))).
  vm_compute. discriminate.
Defined.

Lemma adminArticles_keeps_unique_witness :
  unique_slugs
    (DB (snd (adminArticles (Env.mk (JStr (js "s3cret"))) later_clock no_fault
                POST (JStr (js "s3cret"))
                (Some (body_of (JStr (js "second")) (JStr (js "Second"))
                               (JStr (js "More text")) JUndefined))
                (world_with JUndefined)))).
Proof.
  apply adminArticles_keeps_unique.
  vm_compute. repeat constructor. intros [].
Defined.

(* ================================================================== *)
(** ** The excerpt follows the content *)

Lemma createExcerpt_stored (v : jsval) :
  defined v = true ->
  createExcerpt (js_of (sql_of v)) = createExcerpt v.
Proof. destruct v; [discriminate | reflexivity | reflexivity]. Qed.

Lemma updated_row_excerpt (clock : Clock.t) (body : Body.t)
    (stored_status stored_published_at : sqlval) (x : Row.t) :
  excerpt_derived x ->
  excerpt_derived
    (set_updated_at (Some (Clock.CURRENT_TIMESTAMP clock))
       (apply_sets (setClauses clock body
                      (js_of stored_status, js_of stored_published_at)) x)).
Proof.
  unfold excerpt_derived. intros H.
  pose proof (updated_row_column clock body stored_status stored_published_at
                x c_excerpt) as Ce.
  pose proof (updated_row_column clock body stored_status stored_published_at
                x c_content) as Cc.
  rewrite setClauses_assigned in Ce, Cc by apply js_of_defined.
  cbv zeta in Ce, Cc. cbn [get_column] in Ce, Cc.
  rewrite Ce, Cc.
  destruct (defined (Body.content body)) eqn:D; [|exact H].
  now rewrite createExcerpt_stored.
Qed.

Lemma post_articles_keeps_excerpts (clock : Clock.t) (f : faults)
    (body : option Body.t) (w : world) :
  Forall excerpt_derived (DB w) ->
  Forall excerpt_derived (DB (snd (post_articles clock f body w))).
Proof.
  intros I.
  destruct (Z.eq_dec (http_status (fst (post_articles clock f body w))) 200)
    as [H200|Hn].
  - destruct (post_articles clock f body w) as [r w'] eqn:H. cbn [fst snd] in *.
    destruct (post_articles_200 _ _ _ _ _ _ H H200) as (b & _ & C & _ & E).
    destruct (creatable_strings b C) as (s & t & c & _ & _ & _ & Hc).
    rewrite E. apply Forall_app. split; [exact I|].
    constructor; [|constructor].
    unfold excerpt_derived, created_row. cbn [Row.excerpt Row.content].
    now rewrite Hc.
  - now rewrite (proj1 (post_articles_failure clock f body w Hn)).
Qed.

Lemma put_articles_keeps_excerpts (clock : Clock.t) (f : faults)
    (body : option Body.t) (w : world) :
  Forall excerpt_derived (DB w) ->
  Forall excerpt_derived (DB (snd (put_articles clock f body w))).
Proof.
  intros I.
  destruct (Z.eq_dec (http_status (fst (put_articles clock f body w))) 200)
    as [H200|Hn].
  - destruct (put_articles clock f body w) as [r w'] eqn:H. cbn [fst snd] in *.
    destruct (put_articles_200 _ _ _ _ _ _ H H200)
      as (b & s & a & _ & _ & _ & _ & E).
    rewrite E. apply Forall_forall. intros x Hx.
    apply in_map_iff in Hx as (y & <- & Hy).
    rewrite Forall_forall in I.
    destruct (has_slug s y); [|now apply I].
    apply updated_row_excerpt. now apply I.
  - now rewrite (proj1 (put_articles_failure clock f body w Hn)).
Qed.

Lemma delete_articles_keeps_excerpts (f : faults) (body : option Body.t)
    (w : world) :
  Forall excerpt_derived (DB w) ->
  Forall excerpt_derived (DB (snd (delete_articles f body w))).
Proof.
  intros I. unfold delete_articles.
  destruct body as [b|]; [|exact I].
  destruct (negb (truthy (Body.slug b))); [exact I|].
  unfold bind, delete_article, prepare. cbn [DB sequence queries].
  destruct (f DeleteArticle); [exact I|].
  cbn [changes is_zero]; cbn [snd json ret DB]; now apply Forall_filter_weaken.
Qed.

(** X14. The admin group keeps the excerpts in step with the contents: if
    the excerpt of every row is the one derived from its content, this is
    still so after any request whose members are strings, null or missing
    and whose strings are storable (well-formed, the derived excerpt
    included, whose cut does not split a surrogate pair), whatever the
    method and the key and however the request is answered. *)
Theorem adminArticles_keeps_excerpts (env : Env.t) (clock : Clock.t)
    (f : faults) (method : admin_method) (key : jsval)
    (body : option Body.t) (w : world) :
  (forall b, body = Some b -> storable_body b) ->
  Forall excerpt_derived (DB w) ->
  Forall excerpt_derived
    (DB (snd (adminArticles env clock f method key body w))).
Proof.
  intros _ I. unfold adminArticles, authMiddleware.
  destruct (negb (truthy key) || negb (strict_eq key (Env.WEBAPP_APIKEY env)));
    [exact I|].
  destruct method.
  - now apply post_articles_keeps_excerpts.
  - now apply put_articles_keeps_excerpts.
  - now apply delete_articles_keeps_excerpts.
Qed.

Lemma adminArticles_keeps_excerpts_witness :
  Forall excerpt_derived
    (DB (snd (adminArticles (Env.mk (JStr (js "s3cret"))) later_clock no_fault
                PUT (JStr (js "s3cret"))
                (Some (body_of (JStr (js "hello")) JUndefined
                               (JStr (js "> New *text*")) JUndefined))
                (world_with JUndefined)))).
Proof.
  apply adminArticles_keeps_excerpts.
  - intros b E. injection E as <-. vm_compute. repeat split.
  - constructor; [|constructor]. vm_compute. reflexivity.
Defined.

(* ================================================================== *)
(** ** Paging *)

(** The listing on a working storage, for the page and size it reads. *)
Lemma get_articles_run (page_param size_param category : jsval) (w : world) :
  get_articles no_fault page_param size_param category w
  = let page := num_or (parseInt page_param) 1 in
    let size := num_or (parseInt size_param) 10 in
    let total := Z.of_nat (length (matching_rows category w)) in
    (mkResponse 200
       (Listing true
          (map Summary.of_row
             (limit_offset size ((page - 1) * size) (matching_rows category w)))
          (Pagination.mk page size total (ceil_div total size)
             (js_or category JNull))),
     mkWorld (DB w) (sequence w) (SelectCount :: SelectPage :: queries w)).
Proof.
  unfold get_articles, bind, select_page, select_count, prepare, no_fault,
    matching_rows, json, ret.
  cbn [DB sequence queries]. cbv zeta.
  now rewrite <- (Permutation_length (order_by_perm _)).
Qed.

Lemma chunks_concat {A} (k : nat) (l : list A) (m : nat) :
  (length l <= m * k)%nat ->
  concat (map (fun i => firstn k (skipn (i * k) l)) (seq 0 m)) = l.
Proof.
  revert l. induction m as [|m IH]; intros l H.
  - destruct l; [reflexivity | cbn in H; lia].
  - cbn [seq map concat]. rewrite <- seq_shift, map_map.
    cbn [Nat.mul skipn].
    rewrite (map_ext _ (fun i => firstn k (skipn (i * k) (skipn k l)))).
    + rewrite IH; [apply firstn_skipn|].
      rewrite length_skipn. cbn [Nat.mul] in H. lia.
    + intros i. rewrite skipn_skipn. f_equal. f_equal. cbn [Nat.mul]. lia.
Qed.

(** The order of [ORDER BY] is a total order on the keys, so with pairwise
    different keys there is one descending order of the rows. *)
Lemma str_leb_trans (a b c : jsstring) :
  str_leb a b = true -> str_leb b c = true -> str_leb a c = true.
Proof.
  revert b c. induction a as [|x a IH]; intros [|y b] [|z c]; simpl;
    try congruence.
  intros H1 H2.
  apply orb_true_iff in H1 as [H1|H1]; apply orb_true_iff in H2 as [H2|H2].
  - apply N.ltb_lt in H1, H2.
    assert ((x <? z)%N = true) as -> by (apply N.ltb_lt; lia). reflexivity.
  - apply andb_true_iff in H2 as [E _]. apply N.eqb_eq in E. subst.
    now rewrite H1.
  - apply andb_true_iff in H1 as [E _]. apply N.eqb_eq in E. subst.
    now rewrite H2.
  - apply andb_true_iff in H1 as [E1 H1]. apply andb_true_iff in H2 as [E2 H2].
    apply N.eqb_eq in E1, E2. subst.
    rewrite N.eqb_refl, (IH _ _ H1 H2). apply orb_true_r.
Qed.

Lemma str_leb_antisym (a b : jsstring) :
  str_leb a b = true -> str_leb b a = true -> a = b.
Proof.
  revert b. induction a as [|x a IH]; intros [|y b]; simpl; try congruence.
  intros H1 H2.
  apply orb_true_iff in H1 as [H1|H1]; apply orb_true_iff in H2 as [H2|H2].
  - apply N.ltb_lt in H1, H2. lia.
  - apply N.ltb_lt in H1. apply andb_true_iff in H2 as [E _].
    apply N.eqb_eq in E. lia.
  - apply N.ltb_lt in H2. apply andb_true_iff in H1 as [E _].
    apply N.eqb_eq in E. lia.
  - apply andb_true_iff in H1 as [E1 H1]. apply andb_true_iff in H2 as [_ H2].
    apply N.eqb_eq in E1. subst. f_equal. now apply IH.
Qed.

Lemma sql_leb_trans (a b c : sqlval) :
  sql_leb a b = true -> sql_leb b c = true -> sql_leb a c = true.
Proof.
  destruct a, b, c; simpl; try congruence. apply str_leb_trans.
Qed.

Lemma sql_leb_antisym (a b : sqlval) :
  sql_leb a b = true -> sql_leb b a = true -> a = b.
Proof.
  destruct a, b; simpl; try congruence.
  intros H1 H2. f_equal. now apply str_leb_antisym.
Qed.

Lemma desc_rows_strongly (l : list Row.t) :
  Sorted desc_rows l -> StronglySorted desc_rows l.
Proof.
  apply Sorted_StronglySorted. intros a b c Hab Hbc. unfold desc_rows in *.
  exact (sql_leb_trans _ _ _ Hbc Hab).
Qed.

Lemma descending_unique (l1 l2 : list Row.t) :
  NoDup (map Row.published_at l1) -> Permutation l1 l2 ->
  Sorted desc_rows l1 -> Sorted desc_rows l2 -> l1 = l2.
Proof.
  revert l2. induction l1 as [|a l1 IH]; intros l2 N P S1 S2.
  - now apply Permutation_nil in P.
  - destruct l2 as [|b l2];
      [apply Permutation_sym, Permutation_nil in P; discriminate|].
    assert (a = b) as <-.
    { assert (Ha : In a (b :: l2)) by (apply (Permutation_in _ P); now left).
      assert (Hb : In b (a :: l1))
        by (apply (Permutation_in _ (Permutation_sym P)); now left).
      destruct Hb as [Hb|Hb]; [assumption|].
      destruct Ha as [Ha|Ha]; [now symmetry|]. exfalso.
      apply desc_rows_strongly in S1, S2.
      inversion S1 as [|? ? _ F1]. inversion S2 as [|? ? _ F2]. subst.
      rewrite Forall_forall in F1, F2.
      pose proof (sql_leb_antisym _ _ (F1 b Hb) (F2 a Ha)) as E.
      cbn [map] in N. inversion N as [|? ? Hn _]. subst. apply Hn.
      rewrite <- E. now apply in_map. }
    f_equal. apply IH.
    + cbn [map] in N. now inversion N.
    + now apply Permutation_cons_inv in P.
    + now inversion S1.
    + now inversion S2.
Qed.

(** The rows of a listing, in any descending order, when no two of them
    share a publish time. *)
Lemma matching_rows_unique (category : jsval) (w : world)
    (ordered : list Row.t) :
  no_ties category w ->
  Permutation (filter (where_published category) (DB w)) ordered ->
  Sorted desc_rows ordered ->
  matching_rows category w = ordered.
Proof.
  intros T P S. unfold matching_rows. apply descending_unique.
  - apply (Permutation_NoDup
             (Permutation_map Row.published_at (order_by_perm _))).
    exact T.
  - now rewrite <- (order_by_perm _).
  - apply order_by_sorted.
  - exact S.
Qed.

Lemma filter_length_le {A} (p : A -> bool) (l : list A) :
  (length (filter p l) <= length l)%nat.
Proof.
  induction l as [|a l IH]; cbn [filter length]; [lia|].
  destruct (p a); cbn [length]; lia.
Qed.

(** When the listing of the first page is safe, so is the listing of every
    page up to the last: the pages are no more than the rows, and their
    offsets are below the number of rows. *)
Lemma safe_listing_walk (category : jsval) (w : world) (p s : Z) :
  1 <= s -> safe_listing w 1 s ->
  1 <= p <= ceil_div (Z.of_nat (length (filter (where_published category)
                                          (DB w)))) s ->
  safe_listing w p s.
Proof.
  intros Ls (_ & Ss & _ & Sn) Hp. unfold safe_listing, safe in *.
  pose proof (filter_length_le (where_published category) (DB w)) as L.
  pose proof (ceil_div_bounds
                (Z.of_nat (length (filter (where_published category) (DB w))))
                s Ls) as B.
  unfold MAX_SAFE_INTEGER in *.
  repeat split; try lia; nia.
Qed.

(** X22. Walking the pages: for a size [s >= 1], the listings of the pages
    1, 2, ... up to the number of pages, one after the other, are the
    matching published rows in descending order of [published_at], each
    exactly once.  The size and the number of rows are safe integers, which
    makes every listing of the walk safe, and no two of the matching rows
    share a publish time, so that there is one descending order. *)
Theorem get_articles_all_pages (size_param category : jsval) (w : world)
    (s : Z) (params : list jsval) (ordered : list Row.t) :
  num_or (parseInt size_param) 10 = s -> 1 <= s ->
  safe_listing w 1 s ->
  no_ties category w ->
  Permutation (filter (where_published category) (DB w)) ordered ->
  Sorted desc_rows ordered ->
  map (fun v => num_or (parseInt v) 1) params
  = map Z.of_nat
      (seq 1 (Z.to_nat
                (ceil_div
                   (Z.of_nat (length (filter (where_published category)
                                        (DB w)))) s))) ->
  concat (map (fun v => listed (fst (get_articles no_fault v size_param
                                       category w))) params)
  = map Summary.of_row ordered.
Proof.
  intros Hs Ls _ T P S Hp.
  rewrite <- (matching_rows_unique category w ordered T P S).
  assert (L : length (filter (where_published category) (DB w))
              = length (matching_rows category w))
    by apply (Permutation_length (order_by_perm _)).
  rewrite L in Hp.
  set (rows := matching_rows category w) in *.
  set (k := Z.to_nat s).
  set (h := fun p => map Summary.of_row
                        (firstn k (skipn (Z.to_nat ((p - 1) * s)) rows))).
  assert (E : map (fun v => listed (fst (get_articles no_fault v size_param
                                           category w))) params
              = map h (map (fun v => num_or (parseInt v) 1) params)).
  { rewrite map_map. apply map_ext. intros v.
    rewrite get_articles_run. cbv zeta. cbn [fst].
    unfold listed. cbn [sent]. rewrite Hs. unfold limit_offset.
    destruct (Z.ltb_spec s 0); [lia | reflexivity]. }
  rewrite E, Hp, <- seq_shift, !map_map.
  rewrite (map_ext _ (fun i => map Summary.of_row
                                 (firstn k (skipn (i * k) rows)))).
  - rewrite <- (map_map (fun i => firstn k (skipn (i * k) rows))
                        (map Summary.of_row)).
    rewrite <- concat_map. f_equal. apply chunks_concat.
    pose proof (ceil_div_bounds (Z.of_nat (length rows)) s Ls) as [_ B].
    unfold k. nia.
  - intros i. unfold h. f_equal. f_equal. f_equal. unfold k. nia.
Qed.

Lemma get_articles_all_pages_witness :
  concat (map (fun v => listed (fst (get_articles no_fault v (JStr (js "10"))
                                       JNull sample_table)))
              [JStr (js "1"); JStr (js "2"); JStr (js "3")])
  = map Summary.of_row (matching_rows JNull sample_table).
Proof.
  apply (get_articles_all_pages (JStr (js "10")) JNull sample_table 10).
  - reflexivity.
  - lia.
  - unfold safe_listing, safe. vm_compute. repeat split; discriminate.
  - unfold no_ties. vm_compute.
    repeat (constructor; [cbn [In]; intuition discriminate|]). constructor.
  - apply order_by_perm.
  - apply order_by_sorted.
  - vm_compute. reflexivity.
Defined.

(** X23. A page past the last one is not an error: for a size [s >= 1] and
    a page above the number of pages (both safe integers, and the offset
    with them) the answer is 200 with no article and the same totals. *)
Theorem get_articles_past_the_end (page_param size_param category : jsval)
    (w : world) (p s : Z) :
  num_or (parseInt page_param) 1 = p -> num_or (parseInt size_param) 10 = s ->
  1 <= s ->
  safe_listing w p s ->
  ceil_div (Z.of_nat (length (filter (where_published category) (DB w)))) s
  < p ->
  fst (get_articles no_fault page_param size_param category w)
  = mkResponse 200
      (Listing true []
         (Pagination.mk p s
            (Z.of_nat (length (filter (where_published category) (DB w))))
            (ceil_div
               (Z.of_nat (length (filter (where_published category) (DB w))))
               s)
            (js_or category JNull))).
Proof.
  intros Hp Hs Ls _ Lp.
  assert (L : length (filter (where_published category) (DB w))
              = length (matching_rows category w))
    by apply (Permutation_length (order_by_perm _)).
  rewrite L in *.
  rewrite get_articles_run. cbv zeta. cbn [fst].
  rewrite Hp, Hs. unfold limit_offset.
  destruct (Z.ltb_spec s 0); [lia|].
  rewrite skipn_all2; [now rewrite firstn_nil|].
  pose proof (ceil_div_bounds (Z.of_nat (length (matching_rows category w))) s Ls)
    as [_ B].
  nia.
Qed.

Lemma get_articles_past_the_end_witness :
  fst (get_articles no_fault (JStr (js "4")) (JStr (js "10")) JNull sample_table)
  = mkResponse 200 (Listing true [] (Pagination.mk 4 10 25 3 JNull)).
Proof.
  rewrite (get_articles_past_the_end (JStr (js "4")) (JStr (js "10")) JNull
             sample_table 4 10).
  - reflexivity.
  - reflexivity.
  - reflexivity.
  - lia.
  - unfold safe_listing, safe. vm_compute. repeat split; discriminate.
  - vm_compute. reflexivity.
Defined.

(** X24. A negative size is not refused and takes the limit away: for a
    page [p >= 1] and a size below zero (safe integers, and the offset with
    them) the answer is 200 and the listing holds every matching published
    row, each once, in descending order of [published_at]. *)
Theorem get_articles_negative_size (page_param size_param category : jsval)
    (w : world) (p s : Z) :
  num_or (parseInt page_param) 1 = p -> num_or (parseInt size_param) 10 = s ->
  1 <= p -> s < 0 ->
  safe_listing w p s ->
  http_status (fst (get_articles no_fault page_param size_param category w))
  = 200
  /\ Permutation
       (map Summary.of_row (filter (where_published category) (DB w)))
       (listed (fst (get_articles no_fault page_param size_param category w)))
  /\ Sorted desc_summaries
       (listed (fst (get_articles no_fault page_param size_param category w))).
Proof.
  intros Hp Hs Lp Ls _. rewrite get_articles_run. cbv zeta. cbn [fst].
  unfold listed. cbn [sent http_status]. rewrite Hp, Hs. unfold limit_offset.
  destruct (Z.ltb_spec s 0); [|lia].
  assert (Z.to_nat ((p - 1) * s) = 0%nat) as -> by nia.
  cbn [skipn]. split; [reflexivity|]. split.
  - apply Permutation_map. unfold matching_rows. apply order_by_perm.
  - apply Sorted_summaries. unfold matching_rows. apply order_by_sorted.
Qed.

Lemma get_articles_negative_size_witness :
  length (listed (fst (get_articles no_fault (JStr (js "2")) (JStr (js "-1"))
                         JNull sample_table))) = 25%nat.
Proof.
  destruct (get_articles_negative_size (JStr (js "2")) (JStr (js "-1")) JNull
              sample_table 2 (-1)) as (_ & P & _).
  - reflexivity.
  - reflexivity.
  - lia.
  - lia.
  - unfold safe_listing, safe. vm_compute. repeat split; discriminate.
  - rewrite <- (Permutation_length P). vm_compute. reflexivity.
Defined.

Lemma limit_offset_length {A} (limit offset : Z) (l : list A) :
  (length (limit_offset limit offset l) <= length l)%nat.
Proof.
  unfold limit_offset.
  destruct (limit <? 0); rewrite ?length_firstn; rewrite length_skipn; lia.
Qed.

(** X21. A listing with a category holds only articles of exactly that
    category, and no page holds more articles than the total it reports. *)
Theorem get_articles_category (f : faults)
    (page_param size_param category : jsval) (w w' : world) (r : response)
    (ok : bool) (data : list Summary.t) (pg : Pagination.t) :
  get_articles f page_param size_param category w = (r, w') ->
  sent r = Listing ok data pg ->
  (truthy category = true ->
   forall x, In x data -> Summary.category x = sql_of category)
  /\ Z.of_nat (length data) <= Pagination.total_items pg.
Proof.
  intros H Hsent.
  destruct (get_articles_sent _ _ _ _ _ _ _ _ _ _ H Hsent)
    as (Ed & Ep & _).
  split.
  - intros T x Hx. rewrite Ed in Hx.
    apply in_map_iff in Hx as (b & <- & Hb).
    apply limit_offset_incl in Hb.
    apply (Permutation_in _ (Permutation_sym (order_by_perm _))) in Hb.
    apply filter_In in Hb as [_ Hq]. unfold where_published in Hq.
    rewrite T in Hq. apply andb_true_iff in Hq as [_ Hq].
    apply sql_eq_spec in Hq as (t & Ht & Et).
    cbn [Summary.of_row Summary.category]. congruence.
  - rewrite Ed, Ep. cbn [Pagination.total_items].
    rewrite length_map.
    rewrite (Permutation_length
               (order_by_perm (filter (where_published category) (DB w)))).
    apply Nat2Z.inj_le, limit_offset_length.
Qed.

Lemma get_articles_category_witness :
  Z.of_nat (length (listed (fst (get_articles no_fault JNull JNull JNull
                                   sample_table)))) <= 25.
Proof.
  destruct (get_articles_category no_fault JNull JNull JNull sample_table
              (snd (get_articles no_fault JNull JNull JNull sample_table))
              (fst (get_articles no_fault JNull JNull JNull sample_table))
              true
              (listed (fst (get_articles no_fault JNull JNull JNull
                              sample_table)))
              (Pagination.mk 1 10 25 3 JNull)) as [_ L].
  - apply surjective_pairing.
  - vm_compute. reflexivity.
  - exact L.
Defined.

(* ================================================================== *)
(** ** The settings object *)

Lemma get_put_own (k k' : jsstring) (v : jsval) (props : list (jsstring * jsval)) :
  find (fun kv => str_eqb (fst kv) k) (put_own k' v props)
  = if str_eqb k' k then Some (k', v)
    else find (fun kv => str_eqb (fst kv) k) props.
Proof.
  induction props as [|[k0 v0] props IH]; cbn [put_own find fst].
  - now destruct (str_eqb k' k).
  - destruct (str_eqb k' k0) eqn:E0; cbn [find fst].
    + apply str_eqb_spec in E0. subst k0.
      now destruct (str_eqb k' k).
    + rewrite IH. destruct (str_eqb k0 k) eqn:E1; [|reflexivity].
      destruct (str_eqb k' k) eqn:E2; [|reflexivity].
      apply str_eqb_spec in E1, E2. subst. now rewrite str_eqb_refl in E0.
Qed.

(** An assignment to another key leaves the own property of a key. *)
Lemma get_own_assign_other (acc : object) (k k' : jsstring) (v : jsval) :
  k' <> k -> get_own k (assign acc k' v) = get_own k acc.
Proof.
  intros H. unfold assign, get_own.
  destruct (str_eqb k' (js "__proto__") && negb (null_prototype acc)).
  - now destruct v.
  - cbn [own]. rewrite get_put_own.
    destruct (str_eqb k' k) eqn:E; [|reflexivity].
    apply str_eqb_spec in E. contradiction.
Qed.

Lemma get_own_assign_same (acc : object) (k : jsstring) (v : jsval) :
  k <> js "__proto__" -> get_own k (assign acc k v) = Some v.
Proof.
  intros H. unfold assign, get_own.
  destruct (str_eqb k (js "__proto__")) eqn:E;
    [apply str_eqb_spec in E; contradiction|].
  cbn [andb own]. rewrite get_put_own. now rewrite str_eqb_refl.
Qed.

Lemma reduce_untouched (k : jsstring) (settings : list Setting.t) (acc : object) :
  (forall item, In item settings -> Setting.key item <> k) ->
  get_own k (fold_left (fun acc item =>
                          assign acc (Setting.key item)
                                 (js_of (Setting.value item)))
                       settings acc)
  = get_own k acc.
Proof.
  revert acc. induction settings as [|item settings IH]; intros acc H;
    [reflexivity|].
  cbn [fold_left]. rewrite IH by (intros i Hi; apply H; now right).
  apply get_own_assign_other, H. now left.
Qed.

Lemma reduce_proto (settings : list Setting.t) (acc : object) :
  NoDup (map Setting.key settings) ->
  null_prototype acc = false ->
  get_own (js "__proto__") acc = None ->
  get_own (js "__proto__")
    (fold_left (fun acc item =>
                  assign acc (Setting.key item) (js_of (Setting.value item)))
               settings acc)
  = None.
Proof.
  revert acc. induction settings as [|i0 settings IH]; intros acc N Hnp Hown;
    [assumption|].
  cbn [map] in N. inversion N as [|? ? Hfresh Hrest]; subst.
  cbn [fold_left].
  destruct (str_eqb (Setting.key i0) (js "__proto__")) eqn:E.
  - rewrite reduce_untouched.
    + unfold assign. rewrite E, Hnp. cbn [negb andb].
      now destruct (js_of (Setting.value i0)).
    + intros j Hj Ej. apply Hfresh. apply str_eqb_spec in E.
      rewrite E, <- Ej. now apply in_map.
  - apply IH; [assumption| |].
    + unfold assign. rewrite E. exact Hnp.
    + rewrite get_own_assign_other; [assumption|].
      intros X. apply str_eqb_neq in E. contradiction.
Qed.

(** X25. The settings object: with the keys of the table unique, on a
    working storage the answer is 200 and the object has, for every row
    whose key is not [__proto__], an own property of that key holding the
    value of the row (null for NULL), and no other own property: a row
    keyed [__proto__] is not served. *)
Theorem get_settings_object (settings : list Setting.t) :
  NoDup (map Setting.key settings) ->
  exists data,
    get_settings None settings = (200, SettingsData true data)
    /\ (forall item, In item settings ->
                     Setting.key item <> js "__proto__" ->
                     get_own (Setting.key item) data
                     = Some (js_of (Setting.value item)))
    /\ (forall k, (forall item, In item settings -> Setting.key item <> k) ->
                  get_own k data = None)
    /\ get_own (js "__proto__") data = None.
Proof.
  intros N. eexists. split; [reflexivity|].
  assert (G : forall acc,
             (forall item, In item settings ->
                           Setting.key item <> js "__proto__" ->
                           get_own (Setting.key item)
                             (fold_left (fun acc item =>
                                           assign acc (Setting.key item)
                                                  (js_of (Setting.value item)))
                                        settings acc)
                           = Some (js_of (Setting.value item)))).
  { induction settings as [|i0 settings IH]; intros acc item Hin Hk;
      [contradiction|].
    cbn [map] in N. inversion N as [|? ? Hfresh Hrest]; subst.
    cbn [fold_left]. destruct Hin as [->|Hin].
    - rewrite reduce_untouched.
      + now apply get_own_assign_same.
      + intros j Hj E. apply Hfresh. rewrite <- E. now apply in_map.
    - now apply IH. }
  split; [apply G|]. split.
  - intros k H. now rewrite reduce_untouched.
  - now apply reduce_proto.
Qed.

Lemma get_settings_object_witness :
  exists data,
    get_settings None seed_settings = (200, SettingsData true data)
    /\ get_own (js "site.title") data = Some (JStr (js "WebApp Pro")).
Proof.
  destruct (get_settings_object seed_settings) as (data & E & G & _).
  - vm_compute. repeat constructor; cbn [In]; intuition discriminate.
  - exists data. split; [exact E|].
    apply (G (Setting.mk (js "site.title") (Some (js "WebApp Pro")))).
    + left. reflexivity.
    + vm_compute. discriminate.
Defined.

(* ================================================================== *)
(** ** The excerpt is clean *)

Lemma replace_markup_clean (s : jsstring) :
  Forall (fun c => markup_class c = false) (replace_markup s).
Proof.
  induction s as [|c s IH]; cbn [replace_markup]; [constructor|].
  destruct (markup_class c) eqn:E; [assumption | now constructor].
Qed.

Lemma replace_markup_id (s : jsstring) :
  Forall (fun c => markup_class c = false) s -> replace_markup s = s.
Proof.
  induction 1 as [|c s Hc Hs IH]; cbn [replace_markup]; [reflexivity|].
  now rewrite Hc, IH.
Qed.

Lemma trim_Forall (P : N -> Prop) (s : jsstring) :
  Forall P s -> Forall P (trim s).
Proof.
  intros H. destruct (trim_split s) as (l & t & E & _).
  rewrite E in H. apply Forall_app in H as [_ H].
  now apply Forall_app in H as [H _].
Qed.

Lemma trimStart_id (s : jsstring) :
  (forall c, hd_error s = Some c -> is_white_space c = false) ->
  trimStart s = s.
Proof.
  destruct s as [|c s]; [reflexivity|]. intros H. cbn [trimStart].
  now rewrite (H c eq_refl).
Qed.

Lemma trim_id (s : jsstring) : trimmed s -> trim s = s.
Proof.
  intros [H1 H2]. unfold trim, trimEnd.
  rewrite (trimStart_id s H1), (trimStart_id (rev s) H2).
  apply rev_involutive.
Qed.

(** The text of an excerpt: a trimmed text without markup, cut at 150. *)
Lemma excerpt_text_clean (cleaned : jsstring) :
  Forall (fun c => markup_class c = false) cleaned -> trimmed cleaned ->
  let e := firstn 150 cleaned
           ++ (if (150 <? length cleaned)%nat then js "..." else []) in
  Forall (fun c => markup_class c = false) e /\ trimmed e
  /\ (150 <? length e)%nat = (150 <? length cleaned)%nat
  /\ firstn 150 e = firstn 150 cleaned.
Proof.
  intros Hm [Hh Hl] e. unfold e.
  destruct (150 <? length cleaned)%nat eqn:L.
  - apply Nat.ltb_lt in L.
    assert (Lf : length (firstn 150 cleaned) = 150%nat)
      by (rewrite length_firstn; lia).
    split; [|split; [|split]].
    + apply Forall_app. split.
      * rewrite <- (firstn_skipn 150 cleaned) in Hm.
        now apply Forall_app in Hm as [Hm _].
      * repeat constructor.
    + split.
      * intros c Hc. apply Hh.
        destruct cleaned as [|x cleaned]; [cbn [length] in L; lia | exact Hc].
      * intros c. rewrite rev_app_distr. cbn. intros Hc. now injection Hc as <-.
    + apply Nat.ltb_lt. rewrite length_app, Lf, js_length. cbn [String.length]. lia.
    + rewrite firstn_app, Lf, Nat.sub_diag, firstn_O, app_nil_r.
      now rewrite firstn_firstn.
  - apply Nat.ltb_ge in L. rewrite app_nil_r, !firstn_all2 by lia.
    split; [assumption|]. split; [split; assumption|].
    split; [now apply Nat.ltb_ge | reflexivity].
Qed.

(** X26. Every excerpt is clean: it holds none of the stripped characters
    and no line feed, it neither starts nor ends with white space, and
    unless it is the empty text it is its own excerpt. *)
Theorem createExcerpt_clean (content : jsval) (e : jsstring) :
  createExcerpt content = JStr e ->
  Forall (fun c => existsb (N.eqb c) stripped_characters = false) e
  /\ trimmed e
  /\ (e <> [] -> createExcerpt (JStr e) = JStr e).
Proof.
  destruct content as [| |[|c text]]; try discriminate.
  rewrite createExcerpt_string.
  pose proof (trim_Forall _ _ (replace_markup_clean (c :: text))) as Hm.
  destruct (trim_split (replace_markup (c :: text))) as (_ & _ & _ & _ & _ & Ht).
  revert Hm Ht. generalize (trim (replace_markup (c :: text))).
  intros cleaned Hm Ht H.
  assert (E : firstn 150 cleaned
              ++ (if (150 <? length cleaned)%nat then js "..." else []) = e)
    by congruence.
  destruct (excerpt_text_clean cleaned Hm Ht) as (Cm & Ct & Cl & Cf).
  cbv zeta in Cm, Ct, Cl, Cf. rewrite E in Cm, Ct, Cl, Cf.
  split; [|split; [exact Ct|]].
  - apply Forall_forall. intros x Hx. rewrite Forall_forall in Cm.
    rewrite <- markup_class_spec. now apply Cm.
  - intros Hne. destruct e as [|x e]; [contradiction|].
    rewrite createExcerpt_string.
    rewrite (replace_markup_id _ Cm), (trim_id _ Ct), Cl, Cf. now rewrite E.
Qed.

Lemma createExcerpt_clean_witness :
  createExcerpt (JStr (js "Hello World")) = JStr (js "Hello World").
Proof.
  apply (proj2 (proj2 (createExcerpt_clean (JStr (js "  # Hello World"))
                         (js "Hello World") eq_refl))).
  discriminate.
Defined.

(* ================================================================== *)
(** ** The update of the earlier revision *)

Lemma assigned_app (c : column) (l1 l2 : list (column * jsval)) :
  assigned c (l1 ++ l2)
  = match assigned c l2 with
    | Some v => Some v
    | None => assigned c l1
    end.
Proof.
  induction l1 as [|cv l1 IH]; cbn [app assigned].
  - now destruct (assigned c l2).
  - rewrite IH. now destruct (assigned c l2).
Qed.

Lemma updated_column (now : sqlval) (sets : list (column * jsval))
    (x : Row.t) (c : column) :
  get_column c (set_updated_at now (apply_sets sets x))
  = match assigned c sets with
    | Some v => sql_of v
    | None => get_column c x
    end.
Proof.
  destruct (set_updated_at_keeps now (apply_sets sets x)) as (_ & _ & _ & _ & K).
  rewrite K. apply apply_sets_value.
Qed.

Lemma assigned_named (c : column) (v : jsval) (l : list (column * jsval)) :
  assigned c l = Some v -> In c (map fst l).
Proof.
  induction l as [|cv l IH]; cbn [assigned map]; [discriminate|].
  destruct (assigned c l) eqn:E.
  - intros H. right. now apply IH.
  - destruct (column_eqb c (fst cv)) eqn:Ec; [|discriminate].
    intros _. left. apply column_eqb_spec in Ec. congruence.
Qed.

(** The clauses that pass a test, when no column is named twice. *)
Lemma assigned_filter (p : column * jsval -> bool) (l : list (column * jsval))
    (c : column) :
  NoDup (map fst l) ->
  assigned c (filter p l)
  = match assigned c l with
    | Some v => if p (c, v) then Some v else None
    | None => None
    end.
Proof.
  induction l as [|[c0 v0] l IH]; intros N; [reflexivity|].
  cbn [map fst] in N. inversion N as [|? ? Hfresh Hrest]; subst.
  specialize (IH Hrest). cbn [filter assigned fst snd].
  assert (X : forall v, assigned c l = Some v -> column_eqb c c0 = false).
  { intros v Hv. apply assigned_named in Hv.
    destruct (column_eqb c c0) eqn:E; [|reflexivity].
    apply column_eqb_spec in E. subst. contradiction. }
  destruct (p (c0, v0)) eqn:P; cbn [assigned fst snd]; rewrite IH.
  - destruct (assigned c l) as [v|] eqn:A.
    + rewrite (X v eq_refl). now destruct (p (c, v)).
    + destruct (column_eqb c c0) eqn:E; [|reflexivity].
      apply column_eqb_spec in E. subst. now rewrite P.
  - destruct (assigned c l) as [v|] eqn:A; [reflexivity|].
    destruct (column_eqb c c0) eqn:E; [|reflexivity].
    apply column_eqb_spec in E. subst. now rewrite P.
Qed.

Lemma earlier_members_assigned (body : Earlier.Body.t) (c : column) :
  assigned c
    (filter (fun kv => negb (strict_eq (snd kv) JUndefined))
       [ (c_title, Earlier.Body.title body);
         (c_excerpt, Earlier.Body.excerpt body);
         (c_content, Earlier.Body.content body);
         (c_featured_image, Earlier.Body.featured_image body);
         (c_category, Earlier.Body.category body);
         (c_author, Earlier.Body.author body);
         (c_status, Earlier.Body.status body);
         (c_meta_title, Earlier.Body.meta_title body);
         (c_meta_description, Earlier.Body.meta_description body) ])
  = let member :=
      match c with
      | c_title => Earlier.Body.title body
      | c_excerpt => Earlier.Body.excerpt body
      | c_content => Earlier.Body.content body
      | c_featured_image => Earlier.Body.featured_image body
      | c_category => Earlier.Body.category body
      | c_author => Earlier.Body.author body
      | c_status => Earlier.Body.status body
      | c_meta_title => Earlier.Body.meta_title body
      | c_meta_description => Earlier.Body.meta_description body
      | c_published_at => JUndefined
      end in
    if defined member then Some member else None.
Proof.
  rewrite assigned_filter.
  - cbv zeta. unfold defined. destruct c; reflexivity.
  - cbn [map fst]. repeat constructor; cbn [In]; intuition discriminate.
Qed.

Lemma earlier_published_at_assigned (clock : Clock.t) (body : Earlier.Body.t)
    (stored_status stored : sqlval) (x : Row.t) :
  match assigned c_published_at
          (Earlier.setClauses clock body (js_of stored_status, js_of stored)) with
  | Some v => sql_of v
  | None => stored
  end
  = earlier_published_at clock (Earlier.Body.status body) stored_status stored.
Proof.
  unfold Earlier.setClauses, earlier_published_at, present. cbn [fst snd].
  rewrite assigned_app, earlier_members_assigned. cbv zeta. cbn [defined].
  unfold defined. cbn [strict_eq negb].
  rewrite strict_eq_sql.
  2:{ unfold js_or. destruct (truthy (Earlier.Body.status body)) eqn:T.
      - destruct (Earlier.Body.status body); discriminate.
      - apply js_of_defined. }
  destruct (sql_eq _ _), (truthy (js_of stored)); reflexivity.
Qed.

(** A successful update of the earlier revision had a title or a content and
    named a stored slug; the rows of that slug got its set clauses. *)
Lemma earlier_put_200 (clock : Clock.t) (f : faults) (s : jsstring)
    (body : Earlier.Body.t) (w w' : world) (r : response) :
  Earlier.put clock f s body w = (r, w') ->
  http_status r = 200 ->
  exists a,
    (truthy (Earlier.Body.title body) = true
     \/ truthy (Earlier.Body.content body) = true)
    /\ find (has_slug s) (DB w) = Some a
    /\ DB w'
       = map (fun x =>
                if has_slug s x
                then set_updated_at (Some (Clock.CURRENT_TIMESTAMP clock))
                       (apply_sets
                          (Earlier.setClauses clock body
                             (js_of (Row.status a), js_of (Row.published_at a)))
                          x)
                else x) (DB w).
Proof.
  intros H H200. unfold Earlier.put in H.
  destruct (negb (truthy (Earlier.Body.title body))
            && negb (truthy (Earlier.Body.content body))) eqn:V;
    [answered H; other_status|].
  unfold bind, select_existing, prepare in H. cbn [DB sequence queries] in H.
  destruct (f SelectExisting); [answered H; other_status|].
  cbn [sql_of] in H.
  change (fun a => sql_eq (Row.slug a) (Some s)) with (has_slug s) in H.
  destruct (find (has_slug s) (DB w)) as [a|] eqn:F;
    [|answered H; other_status].
  destruct (length _ =? 0)%nat; [answered H; other_status|].
  unfold update_article, prepare in H. cbn [DB sequence queries] in H.
  destruct (f UpdateArticle); [answered H; other_status|].
  cbn [sql_of] in H.
  change (fun a => sql_eq (Row.slug a) (Some s)) with (has_slug s) in H.
  match type of H with
  | (let (_, _) := if ?g then _ else _ in _) = _ => destruct g
  end; [answered H; other_status|].
  cbn [changes is_zero] in H.
  answered H. cbn [DB]. exists a. split; [|split; [reflexivity|reflexivity]].
  destruct (truthy (Earlier.Body.title body)); [now left|].
  destruct (truthy (Earlier.Body.content body)); [now right | discriminate V].
Qed.

(** X27. The update of the earlier revision.  A successful update had a
    non-empty title or content.  Each of the nine members of the body
    (storable strings) that is not undefined replaces its column and each
    other column keeps its value, the excerpt and the status among them:
    the excerpt is the one the caller sends, not one derived from the
    content, and the status is stored as sent.  The publish time follows
    the requested status as it is (the stored one when none or an empty one
    is sent), compared exactly with [published].  Id, slug and created_at
    are kept and updated_at is the engine's time. *)
Theorem earlier_put_row (clock : Clock.t) (f : faults) (s : jsstring)
    (body : Earlier.Body.t) (w w' : world) (r : response) (a : Row.t) :
  Earlier.storable_body body ->
  unique_slugs (DB w) -> In a (DB w) -> Row.slug a = Some s ->
  Earlier.put clock f s body w = (r, w') ->
  http_status r = 200 ->
  (truthy (Earlier.Body.title body) = true
   \/ truthy (Earlier.Body.content body) = true)
  /\ exists a',
       In a' (DB w') /\ Row.slug a' = Some s /\ Row.id a' = Row.id a
       /\ Row.created_at a' = Row.created_at a
       /\ Row.updated_at a' = Some (Clock.CURRENT_TIMESTAMP clock)
       /\ Row.title a' = supplied (Earlier.Body.title body) (Row.title a)
       /\ Row.content a' = supplied (Earlier.Body.content body) (Row.content a)
       /\ Row.excerpt a' = supplied (Earlier.Body.excerpt body) (Row.excerpt a)
       /\ Row.status a' = supplied (Earlier.Body.status body) (Row.status a)
       /\ Row.featured_image a'
          = supplied (Earlier.Body.featured_image body) (Row.featured_image a)
       /\ Row.category a'
          = supplied (Earlier.Body.category body) (Row.category a)
       /\ Row.author a' = supplied (Earlier.Body.author body) (Row.author a)
       /\ Row.meta_title a'
          = supplied (Earlier.Body.meta_title body) (Row.meta_title a)
       /\ Row.meta_description a'
          = supplied (Earlier.Body.meta_description body)
              (Row.meta_description a)
       /\ Row.published_at a'
          = earlier_published_at clock (Earlier.Body.status body)
              (Row.status a) (Row.published_at a).
Proof.
  intros _ U Ha Hs H H200.
  destruct (earlier_put_200 _ _ _ _ _ _ _ H H200) as (a0 & V & F & E).
  rewrite (unique_find _ _ _ U Ha Hs) in F. injection F as <-.
  split; [exact V|].
  set (sets := Earlier.setClauses clock body
                 (js_of (Row.status a), js_of (Row.published_at a))) in *.
  set (now := Some (Clock.CURRENT_TIMESTAMP clock)) in *.
  exists (set_updated_at now (apply_sets sets a)).
  destruct (set_updated_at_keeps now (apply_sets sets a))
    as (Kid & Kslug & Kcr & Kup & _).
  destruct (apply_sets_keys sets a) as (Aid & Aslug & Acr).
  assert (C : forall c,
             get_column c (set_updated_at now (apply_sets sets a))
             = match assigned c sets with
               | Some v => sql_of v
               | None => get_column c a
               end) by (intros c; apply updated_column).
  assert (M : forall c,
             c <> c_published_at ->
             assigned c sets
             = assigned c
                 (filter (fun kv => negb (strict_eq (snd kv) JUndefined))
                    [ (c_title, Earlier.Body.title body);
                      (c_excerpt, Earlier.Body.excerpt body);
                      (c_content, Earlier.Body.content body);
                      (c_featured_image, Earlier.Body.featured_image body);
                      (c_category, Earlier.Body.category body);
                      (c_author, Earlier.Body.author body);
                      (c_status, Earlier.Body.status body);
                      (c_meta_title, Earlier.Body.meta_title body);
                      (c_meta_description, Earlier.Body.meta_description body) ])).
  { intros c Hc. unfold sets, Earlier.setClauses. rewrite assigned_app.
    destruct (assigned c (filter _ _)); [reflexivity|].
    destruct (strict_eq _ _ && negb _); [|destruct (negb _ && _)];
      cbn [assigned fst snd]; destruct c; try reflexivity; contradiction. }
  split.
  { rewrite E. apply in_map_iff. exists a. split; [|assumption].
    apply has_slug_spec in Hs. now rewrite Hs. }
  split; [congruence|]. split; [congruence|]. split; [congruence|].
  split; [exact Kup|].
  pose proof (C c_featured_image) as Cf.
  rewrite (M c_featured_image), earlier_members_assigned in Cf by discriminate.
  pose proof (C c_category) as Cc.
  rewrite (M c_category), earlier_members_assigned in Cc by discriminate.
  pose proof (C c_author) as Cu.
  rewrite (M c_author), earlier_members_assigned in Cu by discriminate.
  pose proof (C c_meta_title) as Cm.
  rewrite (M c_meta_title), earlier_members_assigned in Cm by discriminate.
  pose proof (C c_meta_description) as Cd.
  rewrite (M c_meta_description), earlier_members_assigned in Cd
    by discriminate.
  pose proof (C c_title) as Ct.
  rewrite (M c_title), earlier_members_assigned in Ct by discriminate.
  pose proof (C c_content) as Co.
  rewrite (M c_content), earlier_members_assigned in Co by discriminate.
  pose proof (C c_excerpt) as Ce.
  rewrite (M c_excerpt), earlier_members_assigned in Ce by discriminate.
  pose proof (C c_status) as Cs.
  rewrite (M c_status), earlier_members_assigned in Cs by discriminate.
  pose proof (C c_published_at) as Cp.
  cbv zeta in *. cbn [get_column] in *. unfold supplied.
  split; [rewrite Ct; now destruct (defined (Earlier.Body.title body))|].
  split; [rewrite Co; now destruct (defined (Earlier.Body.content body))|].
  split; [rewrite Ce; now destruct (defined (Earlier.Body.excerpt body))|].
  split; [rewrite Cs; now destruct (defined (Earlier.Body.status body))|].
  split; [rewrite Cf;
          now destruct (defined (Earlier.Body.featured_image body))|].
  split; [rewrite Cc; now destruct (defined (Earlier.Body.category body))|].
  split; [rewrite Cu; now destruct (defined (Earlier.Body.author body))|].
  split; [rewrite Cm; now destruct (defined (Earlier.Body.meta_title body))|].
  split; [rewrite Cd;
          now destruct (defined (Earlier.Body.meta_description body))|].
  rewrite Cp. unfold sets. now apply earlier_published_at_assigned.
Qed.

Lemma earlier_put_row_witness :
  exists a',
    In a' (DB (snd (Earlier.put later_clock no_fault (js "hello")
                      (Earlier.Body.mk (JStr (js "s3cret")) (JStr (js "Hi"))
                         (JStr (js "Custom")) JUndefined JUndefined
                         (JStr (js "news")) JNull (JStr (js "Published"))
                         JUndefined JUndefined)
                      (world_with (JStr (js "published"))))))
    /\ Row.excerpt a' = Some (js "Custom")
    /\ Row.status a' = Some (js "Published")
    /\ Row.category a' = Some (js "news")
    /\ Row.author a' = None
    /\ Row.published_at a' = None.
Proof.
  destruct (earlier_put_row later_clock no_fault (js "hello")
              (Earlier.Body.mk (JStr (js "s3cret")) (JStr (js "Hi"))
                 (JStr (js "Custom")) JUndefined JUndefined
                 (JStr (js "news")) JNull (JStr (js "Published"))
                 JUndefined JUndefined)
              (world_with (JStr (js "published")))
              (snd (Earlier.put later_clock no_fault (js "hello")
                      (Earlier.Body.mk (JStr (js "s3cret")) (JStr (js "Hi"))
                         (JStr (js "Custom")) JUndefined JUndefined
                         (JStr (js "news")) JNull (JStr (js "Published"))
                         JUndefined JUndefined)
                      (world_with (JStr (js "published")))))
              (fst (Earlier.put later_clock no_fault (js "hello")
                      (Earlier.Body.mk (JStr (js "s3cret")) (JStr (js "Hi"))
                         (JStr (js "Custom")) JUndefined JUndefined
                         (JStr (js "news")) JNull (JStr (js "Published"))
                         JUndefined JUndefined)
                      (world_with (JStr (js "published")))))
              (first_row (world_with (JStr (js "published")))))
    as (_ & a' & Hin & _ & _ & _ & _ & _ & _ & He & Hs & _ & Hc & Hu & _ & _
        & Hp).
  - vm_compute. repeat split.
  - vm_compute. repeat constructor. intros [].
  - vm_compute. left. reflexivity.
  - vm_compute. reflexivity.
  - apply surjective_pairing.
  - vm_compute. reflexivity.
  - exists a'. repeat split; assumption.
Defined.
